(** * MusicStream: the repository-to-library import engine

    A shallow embedding of [src/services/githubService.ts] (the scanner and
    the song identity), of [AddStreamingLinkModal.handleSubmit] (single
    import), of [AdminBulkImportModal] (bulk import) and of
    [LibraryPage.handleRefreshSource] (refresh), with the properties of the
    specification stated over them; and of the code around them: the
    extraction of the URLs of a bulk list, the deletion of a playlist and
    the age of a source on the library page, the name of a source in the
    source list, and the next and previous song of the player.

    Conventions of the model.
    - A JavaScript string is a [string]: a sequence of code units, each
      below 256.  On such strings [btoa] never raises.
    - The content API is a function from the request URL to the listing it
      answers, [None] when the request fails or is answered by a non-2xx
      status.
    - The database is a record of three tables, each a list of rows in
      insertion order.  Row ids are numbers drawn from a counter (the code
      only compares ids).  An insert fails only when it breaks the UNIQUE
      constraint of [songs.unique_link]; foreign keys, row-level policies
      and transient storage faults are outside the model, but for the
      cascade from a deleted playlist to its songs.
    - [Date.now()] and [new Date()] read a clock that the environment
      gives as a function from the number of earlier reads to a time.
    - [console] output is kept only for the warnings of the scanner;
      [alert], [setProgress] and [setError] show as the outcome of the
      operation. *)

From Stdlib Require Import List String Ascii Bool Arith NArith ZArith Lia
  DecimalString.
Import ListNotations.
Open Scope list_scope.
Open Scope string_scope.

Set Implicit Arguments.

(* ------------------------------------------------------------------ *)
(** * JavaScript string primitives *)

Module JS.

Fixpoint map (f : ascii -> ascii) (s : string) : string :=
  match s with
  | EmptyString => EmptyString
  | String c r => String (f c) (map f r)
  end.

Fixpoint forallb (f : ascii -> bool) (s : string) : bool :=
  match s with
  | EmptyString => true
  | String c r => f c && forallb f r
  end.

Definition code (c : ascii) : N := N_of_ascii c.

Definition between (lo hi : N) (c : ascii) : bool :=
  ((lo <=? code c) && (code c <=? hi))%N.

Definition is_upper (c : ascii) : bool := between 65 90 c.
Definition is_lower (c : ascii) : bool := between 97 122 c.
Definition is_digit (c : ascii) : bool := between 48 57 c.

(** [String.prototype.toLowerCase] on one code unit below 256: the ASCII
    capitals and the Latin-1 capitals U+00C0..U+00DE, the multiplication
    sign U+00D7 apart. *)
Definition lower_char (c : ascii) : ascii :=
  if is_upper c || (between 192 222 c && negb (code c =? 215)%N)
  then ascii_of_N (code c + 32) else c.

Definition toLowerCase (s : string) : string := map lower_char s.

(** [toUpperCase] of one ASCII character (the code applies it to [\w] only). *)
Definition upper_char (c : ascii) : ascii :=
  if is_lower c then ascii_of_N (code c - 32) else c.

(** The regular-expression class [\w]. *)
Definition is_word (c : ascii) : bool :=
  is_upper c || is_lower c || is_digit c || (c =? "_")%char.

(** [s.endsWith(t)]: some suffix of [s] is [t]. *)
Fixpoint endsWith (s t : string) : bool :=
  (s =? t) ||
  match s with
  | EmptyString => false
  | String _ r => endsWith r t
  end.

(** White space of [String.prototype.trim] among the code units below 256. *)
Definition is_space (c : ascii) : bool :=
  between 9 13 c || (code c =? 32)%N || (code c =? 160)%N.

Fixpoint trimStart (s : string) : string :=
  match s with
  | EmptyString => EmptyString
  | String c r => if is_space c then trimStart r else s
  end.

Fixpoint trimEnd (s : string) : string :=
  match s with
  | EmptyString => EmptyString
  | String c r =>
      match trimEnd r with
      | EmptyString => if is_space c then EmptyString else String c EmptyString
      | r' => String c r'
      end
  end.

Definition trim (s : string) : string := trimEnd (trimStart s).

(** The longest prefix of [s] whose characters satisfy [f], and the rest. *)
Fixpoint span (f : ascii -> bool) (s : string) : string * string :=
  match s with
  | EmptyString => (EmptyString, EmptyString)
  | String c r =>
      if f c then let (a, b) := span f r in (String c a, b)
      else (EmptyString, s)
  end.

(** [s] without the prefix [p], when it starts with it. *)
Fixpoint stripPrefix (p s : string) : option string :=
  match p, s with
  | EmptyString, _ => Some s
  | String a p', String b s' => if (a =? b)%char then stripPrefix p' s' else None
  | String _ _, EmptyString => None
  end.

(** [s.startsWith(p)] *)
Definition startsWith (s p : string) : bool :=
  match stripPrefix p s with
  | Some _ => true
  | None => false
  end.

(** Template-literal interpolation of a non-negative integer. *)
Definition ofNumber (n : N) : string := NilZero.string_of_uint (N.to_uint n).

(** ** [btoa]: base64 of a string of code units below 256 *)

Definition b64_alphabet : string :=
  "ABCDEFGHIJKLMNOPQRSTUVWXYZabcdefghijklmnopqrstuvwxyz0123456789+/".

Definition b64 (n : N) : ascii :=
  match get (N.to_nat n) b64_alphabet with
  | Some c => c
  | None => "="%char
  end.

Fixpoint btoa (s : string) : string :=
  match s with
  | EmptyString => EmptyString
  | String a EmptyString =>
      let x := code a in
      String (b64 (N.shiftr x 2))
        (String (b64 (N.shiftl (N.land x 3) 4)) "==")
  | String a (String b EmptyString) =>
      let x := code a in
      let y := code b in
      String (b64 (N.shiftr x 2))
        (String (b64 (N.lor (N.shiftl (N.land x 3) 4) (N.shiftr y 4)))
           (String (b64 (N.shiftl (N.land y 15) 2)) "="))
  | String a (String b (String c r)) =>
      let x := code a in
      let y := code b in
      let z := code c in
      String (b64 (N.shiftr x 2))
        (String (b64 (N.lor (N.shiftl (N.land x 3) 4) (N.shiftr y 4)))
           (String (b64 (N.lor (N.shiftl (N.land y 15) 2) (N.shiftr z 6)))
              (String (b64 (N.land z 63)) (btoa r))))
  end.

End JS.

(* ------------------------------------------------------------------ *)
(** * [GitHubService] (src/services/githubService.ts) *)

(** One entry of a listing answered by the content API ([GitHubContent]). *)
Record GitHubContent := {
  gh_name : string;
  gh_path : string;
  gh_type : string;
  download_url : option string;
  gh_size : N
}.

(** The content API: request URL to listing.  A single object answered for
    a path is already wrapped into a one-element listing. *)
Definition Remote := string -> option (list GitHubContent).

Record ScannedSong := {
  song_name : string;
  song_path : string;
  downloadUrl : string;
  song_size : N
}.

Record ScannedPlaylist := {
  pl_name : string;
  pl_path : string;
  pl_songs : list ScannedSong
}.

Inductive ScanResult :=
| ScanThrew
| ScanReturned (playlists : list ScannedPlaylist) (warnings : list string).

Record RepoInfo := { owner : string; repo : string }.

(** What one run of an operation sees of the browser, the network and the
    time: [window.location.origin], the content API and the clock. *)
Record Env := {
  origin : string;
  remote : Remote;
  clock : nat -> N
}.

Module GitHubService.

Definition AUDIO_EXTENSIONS : list string :=
  [".mp3"; ".wav"; ".flac"; ".aac"; ".ogg"; ".m4a"; ".wma"].

Definition not_slash (c : ascii) : bool := negb (c =? "/")%char.

(** [/github\.com\/([^\/]+)\/([^\/]+)/] tried at the start of [s]: both
    groups are greedy and the character after the first must be a slash. *)
Definition matchHere (s : string) : option (string * string) :=
  match JS.stripPrefix "github.com/" s with
  | None => None
  | Some rest =>
      match JS.span not_slash rest with
      | (EmptyString, _) => None
      | (g1, String "/" rest') =>
          match JS.span not_slash rest' with
          | (EmptyString, _) => None
          | (g2, _) => Some (g1, g2)
          end
      | (_, _) => None
      end
  end.

(** The leftmost match of the pattern in [url]. *)
Fixpoint matchUrl (url : string) : option (string * string) :=
  match matchHere url with
  | Some m => Some m
  | None =>
      match url with
      | EmptyString => None
      | String _ r => matchUrl r
      end
  end.

(** [s.replace(/\.git$/, '')] *)
Fixpoint dropDotGit (s : string) : string :=
  if (s =? ".git") then EmptyString
  else match s with
       | EmptyString => EmptyString
       | String c r => String c (dropDotGit r)
       end.

Definition parseGitHubUrl (url : string) : option RepoInfo :=
  match matchUrl url with
  | None => None
  | Some (g1, g2) => Some {| owner := g1; repo := dropDotGit g2 |}
  end.

Definition fetchRepositoryContents (remote : Remote) (owner repo path : string)
  : option (list GitHubContent) :=
  remote ("https://api.github.com/repos/" ++ owner ++ "/" ++ repo
            ++ "/contents/" ++ path).

Definition not_slash_dot (c : ascii) : bool :=
  negb ((c =? "/")%char || (c =? ".")%char).

(** [filename.replace(/\.[^/.]+$/, '')]: the leftmost dot that is followed,
    up to the end, by one or more characters other than slash and dot. *)
Fixpoint removeExtension (filename : string) : string :=
  match filename with
  | EmptyString => EmptyString
  | String c r =>
      if (c =? ".")%char && negb (r =? "") && JS.forallb not_slash_dot r
      then EmptyString
      else String c (removeExtension r)
  end.

(** [s.replace(/[_-]/g, ' ')] *)
Definition cleanSeparators (s : string) : string :=
  JS.map (fun c => if (c =? "_")%char || (c =? "-")%char then " "%char else c) s.

(** [s.replace(/\b\w/g, l => l.toUpperCase())]: a word character matches
    when the character before it, if any, is not a word character. *)
Fixpoint capitalizeFrom (prevWord : bool) (s : string) : string :=
  match s with
  | EmptyString => EmptyString
  | String c r =>
      String (if JS.is_word c && negb prevWord then JS.upper_char c else c)
             (capitalizeFrom (JS.is_word c) r)
  end.

Definition capitalizeWords (s : string) : string := capitalizeFrom false s.

Definition extractSongTitle (filename : string) : string :=
  let nameWithoutExt := removeExtension filename in
  let cleaned := cleanSeparators nameWithoutExt in
  capitalizeWords cleaned.

Definition formatPlaylistName (dirname : string) : string :=
  let cleaned := cleanSeparators dirname in
  capitalizeWords cleaned.

Definition isAudioFile (item : GitHubContent) : bool :=
  (gh_type item =? "file") &&
  existsb (fun ext => JS.endsWith (JS.toLowerCase (gh_name item)) ext)
          AUDIO_EXTENSIONS.

(** The loop over [audioFiles]: [if (file.download_url)] lets through a
    string that is neither null nor empty; [file.size || 0]. *)
Fixpoint pushSongs (audioFiles : list GitHubContent) : list ScannedSong :=
  match audioFiles with
  | [] => []
  | file :: rest =>
      match download_url file with
      | Some url =>
          if (url =? "") then pushSongs rest
          else {| song_name := extractSongTitle (gh_name file);
                  song_path := gh_path file;
                  downloadUrl := url;
                  song_size := if (gh_size file =? 0)%N then 0%N else gh_size file |}
               :: pushSongs rest
      | None => pushSongs rest
      end
  end.

Definition songsOf (dirContents : list GitHubContent) : list ScannedSong :=
  pushSongs (filter isAudioFile dirContents).

(** The loop over [directories]: the playlists pushed and the paths of the
    directories skipped by the inner [catch] with [console.warn]. *)
Fixpoint scanDirectories (remote : Remote) (owner repo : string)
    (directories : list GitHubContent) : list ScannedPlaylist * list string :=
  match directories with
  | [] => ([], [])
  | dir :: rest =>
      let (playlists, warnings) := scanDirectories remote owner repo rest in
      match fetchRepositoryContents remote owner repo (gh_path dir) with
      | None => (playlists, gh_path dir :: warnings)
      | Some dirContents =>
          let songs := songsOf dirContents in
          if (0 <? List.length songs)%nat
          then ({| pl_name := formatPlaylistName (gh_name dir);
                   pl_path := gh_path dir;
                   pl_songs := songs |} :: playlists, warnings)
          else (playlists, warnings)
      end
  end.

Definition scanRepositoryStructure (remote : Remote) (owner repo : string)
  : ScanResult :=
  match fetchRepositoryContents remote owner repo "" with
  | None => ScanThrew
  | Some rootContents =>
      let directories := filter (fun item => gh_type item =? "dir") rootContents in
      let (playlists, warnings) := scanDirectories remote owner repo directories in
      ScanReturned playlists warnings
  end.

Definition generateUniqueLink (env : Env) (owner repo filePath : string)
  : string :=
  let encoded := JS.btoa (owner ++ "/" ++ repo ++ "/" ++ filePath) in
  origin env ++ "/play/" ++ encoded.

End GitHubService.

(* ------------------------------------------------------------------ *)
(** * The database and the environment of one operation *)

(** Rows of [streaming_sources], [playlists] and [songs], with the columns
    the code reads or writes.  [last_synced] holds the clock value whose
    ISO rendering the code stores. *)
Record SourceRow := {
  src_id : nat;
  src_name : string;
  drive_link : string;
  created_by : string;
  last_synced : N
}.

Record PlaylistRow := {
  plist_id : nat;
  user_id : string;
  source_id : nat;
  plist_name : string;
  folder_path : string
}.

Record SongRow := {
  song_id : nat;
  playlist_id : nat;
  title : string;
  duration : N;
  file_path : string;
  unique_link : string
}.

Record Store := {
  streaming_sources : list SourceRow;
  playlists : list PlaylistRow;
  songs : list SongRow;
  next_id : nat
}.

Record World := { store : Store; reads : nat }.

Inductive Outcome (E A : Type) :=
| Threw (e : E)
| Returned (a : A).
Arguments Threw {E A} e.
Arguments Returned {E A} a.

(** An [async] function: it runs on the world, may throw, and the writes
    made before a throw stay. *)
Definition Op (E A : Type) := World -> Outcome E A * World.

Definition ret {E A} (a : A) : Op E A := fun w => (Returned a, w).

Definition throw {E A} (e : E) : Op E A := fun w => (Threw e, w).

Definition bind {E A B} (m : Op E A) (k : A -> Op E B) : Op E B :=
  fun w =>
    match m w with
    | (Returned a, w') => k a w'
    | (Threw e, w') => (Threw e, w')
    end.

(** [try { m } catch (e) { h e }] *)
Definition catch {E E' A} (m : Op E A) (h : E -> Op E' A) : Op E' A :=
  fun w =>
    match m w with
    | (Returned a, w') => (Returned a, w')
    | (Threw e, w') => h e w'
    end.

Notation "x <- m ;; k" := (bind m (fun x => k))
  (at level 61, m at next level, right associativity).

(** [for (const x of l) { s = body s x }] *)
Fixpoint foldM {E X S} (body : S -> X -> Op E S) (l : list X) (s : S) : Op E S :=
  match l with
  | [] => ret s
  | x :: rest => s' <- body s x ;; foldM body rest s'
  end.

(** Runs an operation on a database, its clock not yet read. *)
Definition run {E A} (m : Op E A) (db : Store) : Outcome E A * Store :=
  let (r, w) := m {| store := db; reads := 0 |} in (r, store w).

Definition Date_now {E} (env : Env) : Op E N :=
  fun w => (Returned (clock env (reads w)),
            {| store := store w; reads := S (reads w) |}).

(** ** The queries and writes the code issues through the client *)

Module Supabase.

Definition read {E A} (q : Store -> A) : Op E A :=
  fun w => (Returned (q (store w)), w).

Definition write {E} (f : Store -> Store) : Op E unit :=
  fun w => (Returned tt, {| store := f (store w); reads := reads w |}).

(** [from('streaming_sources').select('id, name').eq('drive_link', link)] *)
Definition sourcesByLink (link : string) (db : Store) : list SourceRow :=
  filter (fun s => drive_link s =? link) (streaming_sources db).

(** The same query with [playlists!inner(...)] and
    [.eq('playlists.user_id', user)]: the sources of that link that have
    at least one playlist of [user]. *)
Definition sourcesByLinkOwnedBy (link user : string) (db : Store) : list SourceRow :=
  filter (fun s =>
            existsb (fun p => (source_id p =? src_id s)%nat && (user_id p =? user))
                    (playlists db))
         (sourcesByLink link db).

(** [from('playlists').select(...).eq('source_id', sid).eq('user_id', user)] *)
Definition playlistsOf (sid : nat) (user : string) (db : Store) : list PlaylistRow :=
  filter (fun p => (source_id p =? sid)%nat && (user_id p =? user)) (playlists db).

(** [from('songs').select(...).eq('unique_link', link).single()]: the data
    is null unless exactly one row matches. *)
Definition songByLink (link : string) (db : Store) : option SongRow :=
  match filter (fun s => unique_link s =? link) (songs db) with
  | [row] => Some row
  | _ => None
  end.

(** A row appended to its table; the id counter moves on. *)
Definition withSource (row : SourceRow) (db : Store) : Store :=
  {| streaming_sources := (streaming_sources db ++ [row])%list;
     playlists := playlists db;
     songs := songs db;
     next_id := S (next_id db) |}.

Definition withPlaylist (row : PlaylistRow) (db : Store) : Store :=
  {| streaming_sources := streaming_sources db;
     playlists := (playlists db ++ [row])%list;
     songs := songs db;
     next_id := S (next_id db) |}.

Definition withSong (row : SongRow) (db : Store) : Store :=
  {| streaming_sources := streaming_sources db;
     playlists := playlists db;
     songs := (songs db ++ [row])%list;
     next_id := S (next_id db) |}.

Definition insertSource {E} (name link user : string) (now : N)
  : Op E (option SourceRow) :=
  fun w =>
    let row := {| src_id := next_id (store w); src_name := name;
                  drive_link := link; created_by := user;
                  last_synced := now |} in
    (Returned (Some row),
     {| store := withSource row (store w); reads := reads w |}).

Definition insertPlaylist {E} (user : string) (sid : nat) (name path : string)
  : Op E (option PlaylistRow) :=
  fun w =>
    let row := {| plist_id := next_id (store w); user_id := user;
                  source_id := sid; plist_name := name; folder_path := path |} in
    (Returned (Some row),
     {| store := withPlaylist row (store w); reads := reads w |}).

(** An insert into [songs]: refused, with an error and no row, when a row
    already has that [unique_link]. *)
Definition insertSong {E} (pid : nat) (ttl : string) (dur : N) (file link : string)
  : Op E (option SongRow) :=
  fun w =>
    if existsb (fun s => unique_link s =? link) (songs (store w))
    then (Returned None, w)
    else
      let row := {| song_id := next_id (store w); playlist_id := pid;
                    title := ttl; duration := dur; file_path := file;
                    unique_link := link |} in
      (Returned (Some row),
       {| store := withSong row (store w); reads := reads w |}).

(** [from('songs').update({ playlist_id: pid }).eq('id', id)] *)
Definition repointSong (id pid : nat) (db : Store) : Store :=
  {| streaming_sources := streaming_sources db;
     playlists := playlists db;
     songs := List.map (fun s => if (song_id s =? id)%nat
                                 then {| song_id := song_id s; playlist_id := pid;
                                         title := title s; duration := duration s;
                                         file_path := file_path s;
                                         unique_link := unique_link s |}
                                 else s) (songs db);
     next_id := next_id db |}.

(** [from('streaming_sources').update({ last_synced: now }).eq('id', id)] *)
Definition touchSource (id : nat) (now : N) (db : Store) : Store :=
  {| streaming_sources :=
       List.map (fun s => if (src_id s =? id)%nat
                          then {| src_id := src_id s; src_name := src_name s;
                                  drive_link := drive_link s;
                                  created_by := created_by s;
                                  last_synced := now |}
                          else s) (streaming_sources db);
     playlists := playlists db;
     songs := songs db;
     next_id := next_id db |}.

End Supabase.

(* ------------------------------------------------------------------ *)
(** * [AddStreamingLinkModal.handleSubmit]: the single import *)

Module AddStreamingLinkModal.

Inductive ImportError :=
| InvalidUrl          (* 'Please enter a valid GitHub repository URL' *)
| InvalidUrlFormat    (* 'Invalid GitHub repository URL format' *)
| AlreadyAdded        (* 'You have already added this repository to your library' *)
| SourceError         (* the error of the insert into streaming_sources *)
| ScanFailed          (* the error thrown by the scan *)
| NoAudioFiles.       (* 'No audio files found in repository. ...' *)

Record ImportReport := {
  totalPlaylistsCreated : nat;
  totalSongsCreated : nat
}.

Definition url_char (c : ascii) : bool :=
  JS.is_word c || (c =? "-")%char || (c =? ".")%char.

(** [/^https:\/\/github\.com\/[\w\-\.]+\/[\w\-\.]+/.test(s)] *)
Definition githubUrlPattern (s : string) : bool :=
  match JS.stripPrefix "https://github.com/" s with
  | None => false
  | Some rest =>
      match JS.span url_char rest with
      | (EmptyString, _) => false
      | (_, String "/" (String c _)) => url_char c
      | (_, _) => false
      end
  end.

(** The loop over [playlist.songs]: one row per song, its [unique_link]
    the derived link followed by the user and [Date.now()]. *)
Definition createSong (env : Env) (user : string) (repoInfo : RepoInfo)
    (playlistId : nat) (created : nat) (song : ScannedSong)
  : Op ImportError nat :=
  let uniqueLink :=
    GitHubService.generateUniqueLink env (owner repoInfo) (repo repoInfo)
                                     (song_path song) in
  now <- Date_now env ;;
  inserted <- Supabase.insertSong playlistId (song_name song) 180 (downloadUrl song)
                (uniqueLink ++ "_" ++ user ++ "_" ++ JS.ofNumber now) ;;
  match inserted with
  | None => ret created
  | Some _ => ret (S created)
  end.

(** The loop over [playlists]. *)
Definition createPlaylist (env : Env) (user : string) (repoInfo : RepoInfo)
    (sourceId : nat) (report : ImportReport) (playlist : ScannedPlaylist)
  : Op ImportError ImportReport :=
  inserted <- Supabase.insertPlaylist user sourceId (pl_name playlist)
                (pl_path playlist) ;;
  match inserted with
  | None => ret report
  | Some playlistData =>
      created <- foldM (createSong env user repoInfo (plist_id playlistData))
                   (pl_songs playlist) (totalSongsCreated report) ;;
      ret {| totalPlaylistsCreated := S (totalPlaylistsCreated report);
             totalSongsCreated := created |}
  end.

Definition handleSubmit (env : Env) (user name githubLink : string)
  : Op ImportError ImportReport :=
  let link := JS.trim githubLink in
  if negb (githubUrlPattern link) then throw InvalidUrl else
  match GitHubService.parseGitHubUrl link with
  | None => throw InvalidUrlFormat
  | Some repoInfo =>
      existingSources <- Supabase.read (Supabase.sourcesByLinkOwnedBy link user) ;;
      if (0 <? List.length existingSources)%nat then throw AlreadyAdded else
      allExistingSources <- Supabase.read (Supabase.sourcesByLink link) ;;
      sourceData <-
        match allExistingSources with
        | existing :: _ => ret existing
        | [] =>
            now <- Date_now env ;;
            inserted <- Supabase.insertSource (JS.trim name) link user now ;;
            match inserted with
            | None => throw SourceError
            | Some newSourceData => ret newSourceData
            end
        end ;;
      match GitHubService.scanRepositoryStructure (remote env)
              (owner repoInfo) (repo repoInfo) with
      | ScanThrew => throw ScanFailed
      | ScanReturned scanned _ =>
          if (List.length scanned =? 0)%nat then throw NoAudioFiles else
          foldM (createPlaylist env user repoInfo (src_id sourceData)) scanned
                {| totalPlaylistsCreated := 0; totalSongsCreated := 0 |}
      end
  end.

End AddStreamingLinkModal.

(* ------------------------------------------------------------------ *)
(** * [AdminBulkImportModal]: the bulk import *)

Module AdminBulkImportModal.

Inductive ImportFailure :=
| InvalidUrlFormat    (* 'Invalid GitHub URL format' *)
| Caught              (* the message of an error caught by the loop body *)
| NoAudioFiles.       (* 'No audio files found in repository' *)

Inductive ImportStatus :=
| StatusError (error : ImportFailure)
| StatusSuccess (playlistCount : nat).

Definition generateSourceName (githubUrl : string) : string :=
  match GitHubService.parseGitHubUrl githubUrl with
  | None => "Unknown Repository"
  | Some repoInfo => owner repoInfo ++ "/" ++ repo repoInfo
  end.

(** Returns the id of the song, or null when the insert fails. *)
Definition findOrCreateSong {E} (env : Env) (songData : ScannedSong)
    (playlistId : nat) (repoInfo : RepoInfo) : Op E (option nat) :=
  let uniqueLink :=
    GitHubService.generateUniqueLink env (owner repoInfo) (repo repoInfo)
                                     (song_path songData) in
  existingSong <- Supabase.read (Supabase.songByLink uniqueLink) ;;
  match existingSong with
  | Some existing =>
      _ <- Supabase.write (Supabase.repointSong (song_id existing) playlistId) ;;
      ret (Some (song_id existing))
  | None =>
      inserted <- Supabase.insertSong playlistId (song_name songData) 180
                    (downloadUrl songData) uniqueLink ;;
      match inserted with
      | None => ret None
      | Some newSong => ret (Some (song_id newSong))
      end
  end.

Definition linkSong {E} (env : Env) (playlistId : nat) (repoInfo : RepoInfo)
    (songsCreated : nat) (song : ScannedSong) : Op E nat :=
  songId <- findOrCreateSong env song playlistId repoInfo ;;
  match songId with
  | Some _ => ret (S songsCreated)
  | None => ret songsCreated
  end.

Definition createPlaylist {E} (env : Env) (user : string) (repoInfo : RepoInfo)
    (sourceId : nat) (totalPlaylistsCreated : nat) (playlist : ScannedPlaylist)
  : Op E nat :=
  inserted <- Supabase.insertPlaylist user sourceId (pl_name playlist)
                (pl_path playlist) ;;
  match inserted with
  | None => ret totalPlaylistsCreated
  | Some playlistData =>
      songsCreated <- foldM (linkSong env (plist_id playlistData) repoInfo)
                        (pl_songs playlist) 0 ;;
      if (0 <? songsCreated)%nat then ret (S totalPlaylistsCreated)
      else ret totalPlaylistsCreated
  end.

(** The body of the loop over [githubUrls]: [continue] and the [catch]
    both end it with the status recorded for the URL. *)
Definition processRepository {E} (env : Env) (user url : string)
  : Op E ImportStatus :=
  let repoName := generateSourceName url in
  existingSources <- Supabase.read (Supabase.sourcesByLink (JS.trim url)) ;;
  resolved <-
    match existingSources with
    | existing :: _ => ret (inr existing)
    | [] =>
        match GitHubService.parseGitHubUrl url with
        | None => ret (inl (StatusError InvalidUrlFormat))
        | Some _ =>
            now <- Date_now env ;;
            inserted <- Supabase.insertSource repoName (JS.trim url) user now ;;
            match inserted with
            | None => ret (inl (StatusError Caught))
            | Some newSourceData => ret (inr newSourceData)
            end
        end
    end ;;
  match resolved with
  | inl status => ret status
  | inr sourceData =>
      match GitHubService.parseGitHubUrl url with
      | None => ret (StatusError InvalidUrlFormat)
      | Some repoInfo =>
          match GitHubService.scanRepositoryStructure (remote env)
                  (owner repoInfo) (repo repoInfo) with
          | ScanThrew => ret (StatusError Caught)
          | ScanReturned scanned _ =>
              if (List.length scanned =? 0)%nat
              then ret (StatusError NoAudioFiles)
              else
                total <- foldM (createPlaylist env user repoInfo (src_id sourceData))
                           scanned 0 ;;
                ret (StatusSuccess total)
          end
      end
  end.

(** The loop of [handleSubmit] over the URLs extracted from the list. *)
Definition processAll {E} (env : Env) (user : string) (githubUrls : list string)
  : Op E (list ImportStatus) :=
  foldM (fun results url =>
           status <- processRepository env user url ;;
           ret (results ++ [status])%list)
        githubUrls [].

End AdminBulkImportModal.

(* ------------------------------------------------------------------ *)
(** * [LibraryPage.handleRefreshSource]: the refresh *)

Module LibraryPage.

Inductive RefreshError :=
| InvalidRepositoryUrl   (* 'Invalid GitHub repository URL' *)
| ScanFailed.            (* the error thrown by the scan *)

Inductive RefreshReport :=
| NoNewPlaylists                       (* 'No new playlists found ...' *)
| Added (newPlaylists addedSongs : nat).

Inductive SongError := InsertError.

Record SongData := {
  sd_title : string;
  sd_duration : N;
  sd_file_path : string;
  sd_unique_link : string
}.

(** Returns the song row; null when the song sits in another playlist. *)
Definition findOrCreateSong (playlistId : nat) (songData : SongData)
  : Op SongError (option SongRow) :=
  existingSong <- Supabase.read (Supabase.songByLink (sd_unique_link songData)) ;;
  match existingSong with
  | Some existing =>
      if (playlist_id existing =? playlistId)%nat then ret (Some existing)
      else ret None
  | None =>
      inserted <- Supabase.insertSong playlistId (sd_title songData)
                    (sd_duration songData) (sd_file_path songData)
                    (sd_unique_link songData) ;;
      match inserted with
      | None => throw InsertError
      | Some newSong => ret (Some newSong)
      end
  end.

Definition addSong (env : Env) (repoInfo : RepoInfo) (playlistId : nat)
    (addedSongsCount : nat) (song : ScannedSong) : Op RefreshError nat :=
  let uniqueLink :=
    GitHubService.generateUniqueLink env (owner repoInfo) (repo repoInfo)
                                     (song_path song) in
  let songData := {| sd_title := song_name song; sd_duration := 180;
                     sd_file_path := downloadUrl song;
                     sd_unique_link := uniqueLink |} in
  catch (result <- findOrCreateSong playlistId songData ;;
         match result with
         | Some _ => ret (S addedSongsCount)
         | None => ret addedSongsCount
         end)
        (fun _ => ret addedSongsCount).

Definition addPlaylist (env : Env) (user : string) (repoInfo : RepoInfo)
    (sourceId : nat) (addedSongsCount : nat) (playlist : ScannedPlaylist)
  : Op RefreshError nat :=
  inserted <- Supabase.insertPlaylist user sourceId (pl_name playlist)
                (pl_path playlist) ;;
  match inserted with
  | None => ret addedSongsCount
  | Some playlistData =>
      foldM (addSong env repoInfo (plist_id playlistData)) (pl_songs playlist)
            addedSongsCount
  end.

Definition handleRefreshSource (env : Env) (user : string) (source : SourceRow)
  : Op RefreshError RefreshReport :=
  match GitHubService.parseGitHubUrl (drive_link source) with
  | None => throw InvalidRepositoryUrl
  | Some repoInfo =>
      match GitHubService.scanRepositoryStructure (remote env)
              (owner repoInfo) (repo repoInfo) with
      | ScanThrew => throw ScanFailed
      | ScanReturned newPlaylists _ =>
          existingPlaylists <-
            Supabase.read (Supabase.playlistsOf (src_id source) user) ;;
          let existingPaths := List.map folder_path existingPlaylists in
          let newPlaylistsToAdd :=
            filter (fun playlist =>
                      negb (existsb (String.eqb (pl_path playlist)) existingPaths))
                   newPlaylists in
          if (List.length newPlaylistsToAdd =? 0)%nat then ret NoNewPlaylists else
          addedSongsCount <-
            foldM (addPlaylist env user repoInfo (src_id source))
                  newPlaylistsToAdd 0 ;;
          now <- Date_now env ;;
          _ <- Supabase.write (Supabase.touchSource (src_id source) now) ;;
          ret (Added (List.length newPlaylistsToAdd) addedSongsCount)
      end
  end.

End LibraryPage.

(* ------------------------------------------------------------------ *)
(** * Sequences of operations

    A bulk import starts from the URLs extracted from the fetched list. *)

Inductive Operation :=
| Import (env : Env) (user name githubLink : string)
| BulkImport (env : Env) (user : string) (githubUrls : list string)
| Refresh (env : Env) (user : string) (source : SourceRow).

Definition perform (db : Store) (op : Operation) : Store :=
  match op with
  | Import env user name githubLink =>
      snd (run (AddStreamingLinkModal.handleSubmit env user name githubLink) db)
  | BulkImport env user githubUrls =>
      snd (run (AdminBulkImportModal.processAll (E := Empty_set) env user githubUrls) db)
  | Refresh env user source =>
      snd (run (LibraryPage.handleRefreshSource env user source) db)
  end.

Definition performAll (ops : list Operation) (db : Store) : Store :=
  fold_left perform ops db.

Definition emptyStore : Store :=
  {| streaming_sources := []; playlists := []; songs := []; next_id := 0 |}.

(* ------------------------------------------------------------------ *)
(** * Notions used to state the properties *)

(** ** The catalog *)

(** The playlist the scan pushes for a directory and its listing. *)
Definition playlistOf (dir : GitHubContent) (dirContents : list GitHubContent)
  : ScannedPlaylist :=
  {| pl_name := GitHubService.formatPlaylistName (gh_name dir);
     pl_path := gh_path dir;
     pl_songs := GitHubService.songsOf dirContents |}.

(** The song the scan pushes for a file and its download URL. *)
Definition songOf (file : GitHubContent) (url : string) : ScannedSong :=
  {| song_name := GitHubService.extractSongTitle (gh_name file);
     song_path := gh_path file;
     downloadUrl := url;
     song_size := if (gh_size file =? 0)%N then 0%N else gh_size file |}.

(** The name ends, letter case apart, with a supported audio extension. *)
Definition AudioName (name : string) : Prop :=
  exists base ext, name = base ++ ext /\
                   In (JS.toLowerCase ext) GitHubService.AUDIO_EXTENSIONS.

Definition AudioFile (file : GitHubContent) : Prop :=
  gh_type file = "file" /\ AudioName (gh_name file).

(** An audio file that carries a download URL. *)
Definition Playable (file : GitHubContent) : Prop :=
  AudioFile file /\ exists url, download_url file = Some url /\ url <> "".

(** The directory is a playlist candidate of the catalog. *)
Definition candidate (catalog : list ScannedPlaylist) (dir : GitHubContent) : Prop :=
  exists p, In p catalog /\ pl_path p = gh_path dir.


(** ** Title case, word by word

    A word is a maximal run of word characters; its first character is
    put in upper case and the others are kept. *)







(** ** The store *)

(** [user] owns a playlist against the source [sid]. *)
Definition ownsPlaylistOf (user : string) (sid : nat) (db : Store) : Prop :=
  exists p, In p (playlists db) /\ source_id p = sid /\ user_id p = user.

(** The source an import resolves for a link: the first row carrying it. *)
Definition resolvedSource (link : string) (db : Store) : option SourceRow :=
  hd_error (Supabase.sourcesByLink link db).

(** [user] has a playlist of the source [sid] for the folder [path]. *)
Definition hasFolder (sid : nat) (user path : string) (db : Store) : Prop :=
  exists row, In row (playlists db) /\ source_id row = sid /\
              user_id row = user /\ folder_path row = path.

Definition hasSource (link : string) (db : Store) : Prop :=
  Supabase.sourcesByLink link db <> [].

Definition uniqueSongLinks (db : Store) : Prop :=
  NoDup (List.map unique_link (songs db)).

Definition uniqueSourceLinks (db : Store) : Prop :=
  NoDup (List.map drive_link (streaming_sources db)).

(** [row] moved to the playlist [pid]. *)
Definition movedTo (pid : nat) (row : SongRow) : SongRow :=
  {| song_id := song_id row; playlist_id := pid; title := title row;
     duration := duration row; file_path := file_path row;
     unique_link := unique_link row |}.

(** The row stands for the song whose derived link is [link]: the bulk
    import and the refresh store the link as it is, the single import
    stores it followed by an underscore, the user and the time. *)
Definition standsFor (link : string) (row : SongRow) : bool :=
  (unique_link row =? link) || JS.startsWith (unique_link row) (link ++ "_").

(** ** Triples on the store *)

(** From a store in [P] the operation ends, thrown or returned, with an
    outcome and a store in [Q]. *)
Definition hoare {E A} (P : Store -> Prop) (m : Op E A)
    (Q : Outcome E A -> Store -> Prop) : Prop :=
  forall w, P (store w) -> Q (fst (m w)) (store (snd (m w))).

(** The operation keeps the store in [I], however it ends. *)
Definition keeps {E A} (I : Store -> Prop) (m : Op E A) : Prop :=
  hoare I m (fun _ => I).


(* ------------------------------------------------------------------ *)
(** * Sample repositories *)

Module Sample.

Definition file (name path : string) (url : option string) (size : N)
  : GitHubContent :=
  {| gh_name := name; gh_path := path; gh_type := "file";
     download_url := url; gh_size := size |}.

Definition dir (name : string) : GitHubContent :=
  {| gh_name := name; gh_path := name; gh_type := "dir";
     download_url := None; gh_size := 0 |}.

Definition api (owner repo path : string) : string :=
  "https://api.github.com/repos/" ++ owner ++ "/" ++ repo ++ "/contents/" ++ path.

(** alice/mymusic: [Rock_Hits/] with two songs and a text file, and an
    empty folder. *)
Definition rockRoot : list GitHubContent :=
  [dir "Rock_Hits"; dir "empty_folder"; file "README.md" "README.md" (Some "https://raw/README.md") 10].

Definition rockHits : list GitHubContent :=
  [file "song_one.mp3" "Rock_Hits/song_one.mp3" (Some "https://raw/song_one.mp3") 100;
   file "Song_Two.FLAC" "Rock_Hits/Song_Two.FLAC" (Some "https://raw/Song_Two.FLAC") 200;
   file "notes.txt" "Rock_Hits/notes.txt" (Some "https://raw/notes.txt") 5].

(** alice/mix: the listing of [B] cannot be fetched. *)
Definition mixRoot : list GitHubContent := [dir "A"; dir "B"; dir "C"].

Definition mixA : list GitHubContent :=
  [file "a.mp3" "A/a.mp3" (Some "https://raw/a.mp3") 1].

Definition mixC : list GitHubContent :=
  [file "c.ogg" "C/c.ogg" (Some "https://raw/c.ogg") 3].

(** alice/muted: the only audio file has no download URL. *)
Definition mutedRoot : list GitHubContent := [dir "Muted"].

Definition mutedListing : list GitHubContent :=
  [file "a.mp3" "Muted/a.mp3" None 7].

(** alice/silence: no directory at the root. *)
Definition silenceRoot : list GitHubContent :=
  [file "README.md" "README.md" (Some "https://raw/README.md") 10].

Definition github : Remote :=
  fun url =>
    if url =? api "alice" "mymusic" "" then Some rockRoot
    else if url =? api "alice" "mymusic" "Rock_Hits" then Some rockHits
    else if url =? api "alice" "mymusic" "empty_folder" then Some []
    else if url =? api "alice" "mix" "" then Some mixRoot
    else if url =? api "alice" "mix" "A" then Some mixA
    else if url =? api "alice" "mix" "C" then Some mixC
    else if url =? api "alice" "muted" "" then Some mutedRoot
    else if url =? api "alice" "muted" "Muted" then Some mutedListing
    else if url =? api "alice" "silence" "" then Some silenceRoot
    else None.

(** A browser session whose clock starts at [start] and moves by one
    millisecond a read. *)
Definition session (start : N) : Env :=
  {| origin := "https://musicstream.app";
     remote := github;
     clock := fun k => (start + N.of_nat k)%N |}.

Definition mymusic : string := "https://github.com/alice/mymusic".

Definition mymusicInfo : RepoInfo := {| owner := "alice"; repo := "mymusic" |}.

Definition songOne : ScannedSong :=
  {| song_name := "Song One"; song_path := "Rock_Hits/song_one.mp3";
     downloadUrl := "https://raw/song_one.mp3"; song_size := 100 |}.

Definition songOneLink : string :=
  GitHubService.generateUniqueLink (session 0) "alice" "mymusic"
                                   "Rock_Hits/song_one.mp3".

(** The store after alice imported alice/mymusic at time 1000. *)
Definition afterAlice : Store :=
  perform emptyStore (Import (session 1000) "alice-id" "My Music" mymusic).

(** The store after alice and then bob imported it. *)
Definition afterAliceAndBob : Store :=
  performAll [Import (session 1000) "alice-id" "My Music" mymusic;
              Import (session 2000) "bob-id" "Her Music" mymusic] emptyStore.

(** The store after an administrator bulk-imported it at time 1000, and
    the source row that import created. *)
Definition afterBulk : Store :=
  perform emptyStore (BulkImport (session 1000) "admin-id" [mymusic]).

Definition mymusicSource : SourceRow :=
  {| src_id := 0; src_name := "alice/mymusic"; drive_link := mymusic;
     created_by := "admin-id"; last_synced := 1000 |}.

(** The store after carol then refreshed that source at time 5000. *)
Definition afterRefresh : Store :=
  perform afterBulk (Refresh (session 5000) "carol-id" mymusicSource).

End Sample.

(** ** Base64 and slash-free strings *)

(** Every code unit. *)
Definition all_ascii : list ascii := List.map ascii_of_nat (seq 0 256).

(** The four sextets [btoa] draws from three code units. *)
Definition sextet1 (a : ascii) : N := N.shiftr (JS.code a) 2.
Definition sextet2 (a b : ascii) : N :=
  N.lor (N.shiftl (N.land (JS.code a) 3) 4) (N.shiftr (JS.code b) 4).
Definition sextet3 (b c : ascii) : N :=
  N.lor (N.shiftl (N.land (JS.code b) 15) 2) (N.shiftr (JS.code c) 6).
Definition sextet4 (c : ascii) : N := N.land (JS.code c) 63.

(** The last sextet of a final group of one and of two code units. *)
Definition sextet2_last (a : ascii) : N := N.shiftl (N.land (JS.code a) 3) 4.
Definition sextet3_last (b : ascii) : N := N.shiftl (N.land (JS.code b) 15) 2.

Definition slashFree (s : string) : Prop := JS.forallb GitHubService.not_slash s = true.

(** ** Display names *)

Definition separatorFree (s : string) : Prop :=
  JS.forallb (fun c => negb ((c =? "_")%char || (c =? "-")%char)) s = true.

(* ------------------------------------------------------------------ *)
(** * [AdminBulkImportModal.extractGitHubUrls]: the list of a bulk import *)

Module BulkList.

(** [/https:\/\/github\.com\/[\w\-\.]+\/[\w\-\.]+/] tried at the start of
    [s]: the text it matches there. *)
Definition matchAt (s : string) : option string :=
  match JS.stripPrefix "https://github.com/" s with
  | None => None
  | Some rest =>
      match JS.span AddStreamingLinkModal.url_char rest with
      | (EmptyString, _) => None
      | (g1, String "/" rest') =>
          match JS.span AddStreamingLinkModal.url_char rest' with
          | (EmptyString, _) => None
          | (g2, _) => Some ("https://github.com/" ++ g1 ++ "/" ++ g2)
          end
      | (_, _) => None
      end
  end.

(** [text.match(pattern)] with the flag [g]: the matches from left to
    right, each search starting where the match before ended; [skip] counts
    the characters of the last match still to pass. *)
Fixpoint matchAll (skip : nat) (text : string) : list string :=
  match text with
  | EmptyString => []
  | String _ rest =>
      match skip with
      | S k => matchAll k rest
      | O =>
          match matchAt text with
          | Some m => m :: matchAll (String.length m - 1) rest
          | None => matchAll 0 rest
          end
      end
  end.

(** [[...new Set(urls)]]: the first occurrence of each, in order. *)
Definition addToSet (seen : list string) (url : string) : list string :=
  if existsb (String.eqb url) seen then seen else (seen ++ [url])%list.

Definition extractGitHubUrls (text : string) : list string :=
  fold_left addToSet (matchAll 0 text) [].

(** The pattern matches the whole of [url]. *)
Definition isRepoAddress (url : string) : bool :=
  match matchAt url with
  | Some m => m =? url
  | None => false
  end.

End BulkList.

(** A repository address as the list pattern matches it. *)
Definition RepoAddress (url : string) : Prop :=
  exists g1 g2,
    url = "https://github.com/" ++ g1 ++ "/" ++ g2 /\
    g1 <> "" /\ g2 <> "" /\
    JS.forallb AddStreamingLinkModal.url_char g1 = true /\
    JS.forallb AddStreamingLinkModal.url_char g2 = true.

Definition newline : string := String (ascii_of_nat 10) "".

(* ------------------------------------------------------------------ *)
(** * Notions used to state the further properties *)

(** ** What an import appends *)

(** From [s] to [s'] nothing changed but [k] song rows appended, all in
    the playlist [pid]. *)
Definition songsAdded (pid k : nat) (s s' : Store) : Prop :=
  streaming_sources s' = streaming_sources s /\
  playlists s' = playlists s /\
  next_id s <= next_id s' /\
  exists ng, songs s' = (songs s ++ ng)%list /\ List.length ng = k /\
             Forall (fun g => playlist_id g = pid) ng.

(** From [s] to [s'] nothing changed but the playlist rows [np] appended,
    one for each scanned playlist, in order, owned by [user] against the
    source [sid], and the song rows [ng] appended, each in one of them. *)
Definition imported (user : string) (sid : nat) (scanned : list ScannedPlaylist)
    (s s' : Store) (np : list PlaylistRow) (ng : list SongRow) : Prop :=
  streaming_sources s' = streaming_sources s /\
  playlists s' = (playlists s ++ np)%list /\
  songs s' = (songs s ++ ng)%list /\
  next_id s <= next_id s' /\
  Forall2 (fun p c => user_id p = user /\ source_id p = sid /\
                      plist_name p = pl_name c /\ folder_path p = pl_path c /\
                      next_id s <= plist_id p < next_id s') np scanned /\
  Forall (fun g => exists p, In p np /\ playlist_id g = plist_id p) ng.

(* ------------------------------------------------------------------ *)
(** * [AdminBulkImportModal.handleSubmit]: the bulk import as a whole *)

Module BulkSubmit.
Import AdminBulkImportModal.

Inductive SubmitError :=
| FetchFailed      (* 'Failed to fetch source list: ...', or the error of fetch *)
| NoUrlsFound.     (* 'No GitHub repository URLs found in the provided source' *)

(** [handleSubmit] of the bulk import; [response] is the text of the
    fetched list, absent when the fetch fails or is not ok.  The result
    pairs each URL with its name and its status: the URLs being pairwise
    distinct, the update of the result whose [url] is the one processed
    is the update of the result at its position. *)
Definition handleSubmit (env : Env) (user : string) (response : option string)
  : Op SubmitError (list (string * string * ImportStatus)) :=
  match response with
  | None => throw FetchFailed
  | Some textContent =>
      let githubUrls := BulkList.extractGitHubUrls textContent in
      if (List.length githubUrls =? 0)%nat then throw NoUrlsFound else
      statuses <- processAll env user githubUrls ;;
      ret (List.map (fun p => (fst p, generateSourceName (fst p), snd p))
                    (List.combine githubUrls statuses))
  end.

End BulkSubmit.

(** The error the bulk import records for a URL, none when it succeeds:
    read off the URL and the remote alone. *)
Definition expectedFailure (env : Env) (url : string)
  : option AdminBulkImportModal.ImportFailure :=
  match GitHubService.parseGitHubUrl url with
  | None => Some AdminBulkImportModal.InvalidUrlFormat
  | Some info =>
      match GitHubService.scanRepositoryStructure (remote env) (owner info) (repo info) with
      | ScanThrew => Some AdminBulkImportModal.Caught
      | ScanReturned [] _ => Some AdminBulkImportModal.NoAudioFiles
      | ScanReturned (_ :: _) _ => None
      end
  end.

Definition failureOf (status : AdminBulkImportModal.ImportStatus)
  : option AdminBulkImportModal.ImportFailure :=
  match status with
  | AdminBulkImportModal.StatusError e => Some e
  | AdminBulkImportModal.StatusSuccess _ => None
  end.

(** ** Songs and their playlist *)


(** ** What a refresh finds new *)

(** The scanned playlists for whose folder [user] has no playlist of the
    source [sid]. *)
Definition newFolders (sid : nat) (user : string) (scanned : list ScannedPlaylist)
    (db : Store) : list ScannedPlaylist :=
  filter (fun playlist =>
            negb (existsb (String.eqb (pl_path playlist))
                          (List.map folder_path (Supabase.playlistsOf sid user db))))
         scanned.

(** The number of songs of the scanned playlists. *)
Definition songCount (scanned : list ScannedPlaylist) : nat :=
  list_sum (List.map (fun p => List.length (pl_songs p)) scanned).

(** ** Rows through a sequence of operations *)

(** The source row but for the time of its last refresh. *)
Definition untimed (row : SourceRow) : SourceRow :=
  {| src_id := src_id row; src_name := src_name row; drive_link := drive_link row;
     created_by := created_by row; last_synced := 0 |}.

(** The playlists of [user], whatever their source. *)
Definition playlistsOfUser (user : string) (db : Store) : list PlaylistRow :=
  filter (fun p => user_id p =? user) (playlists db).

(** The user an operation runs for. *)
Definition actor (op : Operation) : string :=
  match op with
  | Import _ user _ _ => user
  | BulkImport _ user _ => user
  | Refresh _ user _ => user
  end.

(* ------------------------------------------------------------------ *)
(** * [LibraryPage]: deleting a playlist and the age of a source;
      [AdminSourceManagementModal.getRepoName] *)

Module LibraryTools.

(** [from('playlists').delete().eq('id', pid).eq('user_id', user)], with
    the cascade the migration declares on [songs.playlist_id]: the songs
    of a deleted playlist row go with it. *)
Definition deletePlaylist (pid : nat) (user : string) (db : Store) : Store :=
  let doomed := fun p => (plist_id p =? pid)%nat && (user_id p =? user) in
  let deleted := filter doomed (playlists db) in
  {| streaming_sources := streaming_sources db;
     playlists := filter (fun p => negb (doomed p)) (playlists db);
     songs := filter (fun g => negb (existsb (fun p => (plist_id p =? playlist_id g)%nat)
                                             deleted))
                     (songs db);
     next_id := next_id db |}.

(** [handleDeletePlaylist]; [confirmed] is the answer to [confirm]. *)
Definition handleDeletePlaylist {E} (confirmed : bool) (user : string)
    (playlistId : nat) : Op E unit :=
  if negb confirmed then ret tt
  else Supabase.write (deletePlaylist playlistId user).

Inductive TimeAgo :=
| JustNow                  (* 'Just now' *)
| HoursAgo (hours : Z)     (* `${diffInHours}h ago` *)
| DaysAgo (days : Z)       (* `${diffInDays}d ago` *)
| OnDate (date : Z).       (* formatDate(dateString) *)

(** [formatTimeAgo]; [now] and [date] are the two times in milliseconds,
    and [Math.floor] of the quotient is the floored division. *)
Definition formatTimeAgo (now date : Z) : TimeAgo :=
  let diffInHours := ((now - date) / (1000 * 60 * 60))%Z in
  if (diffInHours <? 1)%Z then JustNow
  else if (diffInHours <? 24)%Z then HoursAgo diffInHours
  else
    let diffInDays := (diffInHours / 24)%Z in
    if (diffInDays <? 7)%Z then DaysAgo diffInDays else OnDate date.

End LibraryTools.

Module AdminSourceManagementModal.

(** [getRepoName]: the first group of
    [/github\.com\/([^\/]+\/[^\/]+)/], or the URL when nothing matches. *)
Definition getRepoName (githubUrl : string) : string :=
  match GitHubService.matchUrl githubUrl with
  | Some (g1, g2) => g1 ++ "/" ++ g2
  | None => githubUrl
  end.

End AdminSourceManagementModal.

(** Every song row sits in a playlist row. *)
Definition songsHavePlaylists (db : Store) : Prop :=
  forall g, In g (songs db) -> exists p, In p (playlists db) /\ plist_id p = playlist_id g.

Definition hour : Z := 3600000.
Definition day : Z := 86400000.

(* ------------------------------------------------------------------ *)
(** * [MusicContext]: next and previous song *)

Module MusicContext.

Inductive LoopMode :=
| LoopOff     (* 'off' *)
| LoopOne     (* 'one' *)
| LoopAll.    (* 'all' *)

(** The state of the player that [nextSong], [previousSong] and
    [toggleLoop] read and set. *)
Record Player := {
  currentSong : option SongRow;
  currentPlaylist : list SongRow;
  isPlaying : bool;
  isShuffled : bool;
  loopMode : LoopMode
}.

(** [l.findIndex(song => song.id === id)] from the index [i] on: -1 when
    no song has the id. *)
Fixpoint findIndexFrom (i : Z) (id : nat) (l : list SongRow) : Z :=
  match l with
  | [] => (-1)%Z
  | song :: rest =>
      if (song_id song =? id)%nat then i else findIndexFrom (i + 1)%Z id rest
  end.

Definition findIndex (id : nat) (l : list SongRow) : Z := findIndexFrom 0 id l.

(** [l[i]]: undefined below 0 and from the length on. *)
Definition at_index (l : list SongRow) (i : Z) : option SongRow :=
  if (i <? 0)%Z then None else nth_error l (Z.to_nat i).

(** [play(song)]: an undefined song keeps the current one. *)
Definition play (song : option SongRow) (p : Player) : Player :=
  {| currentSong := match song with
                    | Some s => Some s
                    | None => currentSong p
                    end;
     currentPlaylist := currentPlaylist p;
     isPlaying := true;
     isShuffled := isShuffled p;
     loopMode := loopMode p |}.

Definition isAll (mode : LoopMode) : bool :=
  match mode with
  | LoopAll => true
  | _ => false
  end.

(** [nextSong]; [pick] is [Math.floor(Math.random() * length)]. *)
Definition nextSong (pick : Z) (p : Player) : Player :=
  let length := Z.of_nat (List.length (currentPlaylist p)) in
  match currentSong p with
  | None => p
  | Some current =>
      if (length =? 0)%Z then p else
      let currentIndex := findIndex (song_id current) (currentPlaylist p) in
      let nextIndex :=
        if isShuffled p then pick else Z.rem (currentIndex + 1) length in
      if isAll (loopMode p) || negb (nextIndex =? 0)%Z
         || negb (currentIndex =? length - 1)%Z
      then play (at_index (currentPlaylist p) nextIndex) p
      else p
  end.

Definition previousSong (p : Player) : Player :=
  let length := Z.of_nat (List.length (currentPlaylist p)) in
  match currentSong p with
  | None => p
  | Some current =>
      if (length =? 0)%Z then p else
      let currentIndex := findIndex (song_id current) (currentPlaylist p) in
      let prevIndex :=
        if (currentIndex =? 0)%Z then (length - 1)%Z else (currentIndex - 1)%Z in
      play (at_index (currentPlaylist p) prevIndex) p
  end.

End MusicContext.

(** The player plays [song] of the playlist [l], shuffle off. *)
Definition playing (mode : MusicContext.LoopMode) (l : list SongRow)
    (song : SongRow) (on : bool) : MusicContext.Player :=
  {| MusicContext.currentSong := Some song;
     MusicContext.currentPlaylist := l;
     MusicContext.isPlaying := on;
     MusicContext.isShuffled := false;
     MusicContext.loopMode := mode |}.

Definition distinctIds (l : list SongRow) : Prop := NoDup (List.map song_id l).

Module PlayerSample.

Definition songOneRow : SongRow :=
  {| song_id := 2; playlist_id := 1; title := "Song One"; duration := 180;
     file_path := "https://raw/song_one.mp3"; unique_link := Sample.songOneLink |}.

Definition songTwoRow : SongRow :=
  {| song_id := 3; playlist_id := 1; title := "Song Two"; duration := 180;
     file_path := "https://raw/Song_Two.FLAC"; unique_link := "two" |}.

(** A song of a playlist that is not loaded. *)
Definition strayRow : SongRow :=
  {| song_id := 9; playlist_id := 5; title := "Stray"; duration := 180;
     file_path := "https://raw/stray.mp3"; unique_link := "stray" |}.

End PlayerSample.

(* ================================================================== *)
(** * Part II: properties *)

(* ------------------------------------------------------------------ *)
(** * Strings *)

Section Strings.

Lemma append_nil_r (s : string) : s ++ "" = s.
Proof. induction s; simpl; congruence. Qed.

Lemma append_assoc (a b c : string) : (a ++ b) ++ c = a ++ (b ++ c).
Proof. induction a; simpl; congruence. Qed.

Lemma endsWith_iff (s t : string) :
  JS.endsWith s t = true <-> exists base, s = base ++ t.
Proof.
  induction s as [|c r IH]; cbn [JS.endsWith].
  - rewrite orb_false_r, String.eqb_eq. split.
    + intros <-. now exists "".
    + intros (b & H). destruct b; simpl in H; [auto | discriminate].
  - rewrite orb_true_iff, String.eqb_eq, IH. split.
    + intros [<- | (b & ->)]; [now exists "" | now exists (String c b)].
    + intros (b & H). destruct b as [|c' b]; simpl in H.
      * now left.
      * right. injection H as _ ->. now exists b.
Qed.

Lemma toLowerCase_app (a b : string) :
  JS.toLowerCase (a ++ b) = JS.toLowerCase a ++ JS.toLowerCase b.
Proof.
  unfold JS.toLowerCase. induction a; simpl; [reflexivity | now f_equal].
Qed.

Lemma toLowerCase_split (s x y : string) :
  JS.toLowerCase s = x ++ y ->
  exists a b, s = a ++ b /\ JS.toLowerCase a = x /\ JS.toLowerCase b = y.
Proof.
  revert s. induction x as [|c x IH]; simpl; intros s H.
  - now exists "", s.
  - destruct s as [|d s]; simpl in H; [discriminate|].
    injection H as Hc Hs. apply IH in Hs. destruct Hs as (a & b & -> & Ha & Hb).
    exists (String d a), b. unfold JS.toLowerCase in *. simpl. now rewrite Hc, Ha.
Qed.







Lemma isAudioFile_iff (item : GitHubContent) :
  GitHubService.isAudioFile item = true <->
  gh_type item = "file" /\ AudioName (gh_name item).
Proof.
  unfold GitHubService.isAudioFile, AudioName.
  rewrite andb_true_iff, String.eqb_eq, existsb_exists. split.
  - intros [Ht (ext & Hin & Hends)]. split; [exact Ht|].
    apply endsWith_iff in Hends. destruct Hends as (b & Hb).
    apply toLowerCase_split in Hb. destruct Hb as (base & ext' & Hn & _ & He).
    exists base, ext'. now rewrite He.
  - intros [Ht (base & ext & Hn & Hin)]. split; [exact Ht|].
    exists (JS.toLowerCase ext). split; [exact Hin|].
    apply endsWith_iff. exists (JS.toLowerCase base).
    now rewrite Hn, toLowerCase_app.
Qed.

(** ** Title case *)





End Strings.

(* ------------------------------------------------------------------ *)
(** * The scanner *)

Section Songs.

Import GitHubService.

Lemma pushSongs_In (audioFiles : list GitHubContent) (s : ScannedSong) :
  In s (pushSongs audioFiles) <->
  exists file url, In file audioFiles /\ download_url file = Some url /\
                   url <> "" /\ s = songOf file url.
Proof.
  induction audioFiles as [|file rest IH]; simpl.
  - split; [tauto | intros (f & u & [] & _)].
  - destruct (download_url file) as [url|] eqn:Hurl.
    + destruct (String.eqb_spec url "") as [Hempty|Hfull].
      * rewrite IH. split.
        -- intros (f & u & Hin & H). exists f, u. tauto.
        -- intros (f & u & [Heq|Hin] & Hu & Hne & Hs).
           ++ subst f. congruence.
           ++ exists f, u. tauto.
      * simpl. rewrite IH. split.
        -- intros [Hs|(f & u & Hin & H)].
           ++ exists file, url. repeat split; auto.
           ++ exists f, u. tauto.
        -- intros (f & u & [Heq|Hin] & Hu & Hne & Hs).
           ++ subst f. left. rewrite Hurl in Hu. injection Hu as <-. now subst s.
           ++ right. exists f, u. tauto.
    + rewrite IH. split.
      * intros (f & u & Hin & H). exists f, u. tauto.
      * intros (f & u & [Heq|Hin] & Hu & Hne & Hs).
        -- subst f. congruence.
        -- exists f, u. tauto.
Qed.

Lemma songsOf_In (dirContents : list GitHubContent) (s : ScannedSong) :
  In s (songsOf dirContents) <->
  exists file url, In file dirContents /\ isAudioFile file = true /\
                   download_url file = Some url /\ url <> "" /\
                   s = songOf file url.
Proof.
  unfold songsOf. rewrite pushSongs_In. split.
  - intros (f & u & Hin & H). apply filter_In in Hin. exists f, u. tauto.
  - intros (f & u & Hin & Ha & H). exists f, u. rewrite filter_In. tauto.
Qed.

Lemma songsOf_nonempty (dirContents : list GitHubContent) :
  songsOf dirContents <> [] <->
  exists file url, In file dirContents /\ isAudioFile file = true /\
                   download_url file = Some url /\ url <> "".
Proof.
  split.
  - destruct (songsOf dirContents) as [|s l] eqn:E; [congruence|].
    intros _. assert (Hin : In s (songsOf dirContents)) by (rewrite E; now left).
    apply songsOf_In in Hin. destruct Hin as (f & u & H1 & H2 & H3 & H4 & _).
    now exists f, u.
  - intros (f & u & H1 & H2 & H3 & H4) E.
    assert (Hin : In (songOf f u) (songsOf dirContents))
      by (apply songsOf_In; exists f, u; tauto).
    rewrite E in Hin. destruct Hin.
Qed.

Lemma length_pos_iff {A} (l : list A) : (0 <? List.length l)%nat = true <-> l <> [].
Proof. destruct l; simpl; split; intros; try congruence; try easy. Qed.

End Songs.

Section Scanner.

Import GitHubService.

Variable remote : Remote.
Variables owner repo : string.

Let fetch := fetchRepositoryContents remote owner repo.

Lemma scanDirectories_In (directories : list GitHubContent) (p : ScannedPlaylist) :
  In p (fst (scanDirectories remote owner repo directories)) <->
  exists dir dirContents,
    In dir directories /\ fetch (gh_path dir) = Some dirContents /\
    songsOf dirContents <> [] /\ p = playlistOf dir dirContents.
Proof.
  induction directories as [|dir rest IH]; simpl.
  - split; [tauto | intros (d & c & [] & _)].
  - destruct (scanDirectories remote owner repo rest) as [playlists warnings].
    simpl in IH. unfold fetch in *.
    destruct (fetchRepositoryContents remote owner repo (gh_path dir))
      as [dirContents|] eqn:Hfetch.
    + destruct (0 <? List.length (songsOf dirContents))%nat eqn:Hlen; simpl.
      * apply length_pos_iff in Hlen. rewrite IH. split.
        -- intros [Hp|(d & c & Hin & H)].
           ++ exists dir, dirContents. subst p. tauto.
           ++ exists d, c. tauto.
        -- intros (d & c & [Hd|Hin] & Hf & Hne & Hp).
           ++ subst d. left. rewrite Hfetch in Hf. injection Hf as <-. now subst p.
           ++ right. exists d, c. tauto.
      * assert (Hnil : songsOf dirContents = []).
        { destruct (songsOf dirContents); [reflexivity | discriminate]. }
        rewrite IH. split.
        -- intros (d & c & Hin & H). exists d, c. tauto.
        -- intros (d & c & [Hd|Hin] & Hf & Hne & Hp).
           ++ subst d. rewrite Hfetch in Hf. injection Hf as <-. contradiction.
           ++ exists d, c. tauto.
    + simpl. rewrite IH. split.
      * intros (d & c & Hin & H). exists d, c. tauto.
      * intros (d & c & [Hd|Hin] & Hf & Hne & Hp).
        -- subst d. congruence.
        -- exists d, c. tauto.
Qed.

Lemma scanDirectories_warned (directories : list GitHubContent) (path : string) :
  In path (snd (scanDirectories remote owner repo directories)) <->
  exists dir, In dir directories /\ fetch (gh_path dir) = None /\ path = gh_path dir.
Proof.
  induction directories as [|dir rest IH]; simpl.
  - split; [tauto | intros (d & [] & _)].
  - destruct (scanDirectories remote owner repo rest) as [playlists warnings].
    simpl in IH. unfold fetch in *.
    destruct (fetchRepositoryContents remote owner repo (gh_path dir))
      as [dirContents|] eqn:Hfetch.
    + assert (Hsnd : snd (if (0 <? List.length (songsOf dirContents))%nat
                          then (playlistOf dir dirContents :: playlists, warnings)
                          else (playlists, warnings)) = warnings)
        by (destruct (0 <? _)%nat; reflexivity).
      unfold playlistOf in Hsnd. rewrite Hsnd, IH. split.
      * intros (d & Hin & H). exists d. tauto.
      * intros (d & [Hd|Hin] & Hf & Hp).
        -- subst d. congruence.
        -- exists d. tauto.
    + simpl. rewrite IH. split.
      * intros [Hp|(d & Hin & H)].
        -- exists dir. subst path. tauto.
        -- exists d. tauto.
      * intros (d & [Hd|Hin] & Hf & Hp).
        -- subst d. now left.
        -- right. exists d. tauto.
Qed.

(** With the root listing fetched the scan returns, and its playlists are
    those of the directories of the root whose listing could be fetched and
    holds a song. *)
Lemma scan_returns (rootContents : list GitHubContent) :
  fetch "" = Some rootContents ->
  exists playlists warnings,
    scanRepositoryStructure remote owner repo = ScanReturned playlists warnings /\
    (forall p, In p playlists <->
       exists dir dirContents,
         In dir rootContents /\ gh_type dir = "dir" /\
         fetch (gh_path dir) = Some dirContents /\
         songsOf dirContents <> [] /\ p = playlistOf dir dirContents) /\
    (forall path, In path warnings <->
       exists dir, In dir rootContents /\ gh_type dir = "dir" /\
                   fetch (gh_path dir) = None /\ path = gh_path dir).
Proof.
  intros Hroot. unfold scanRepositoryStructure. unfold fetch in Hroot. rewrite Hroot.
  pose proof (scanDirectories_In
                (filter (fun item => gh_type item =? "dir") rootContents)) as HP.
  pose proof (scanDirectories_warned
                (filter (fun item => gh_type item =? "dir") rootContents)) as HW.
  destruct (scanDirectories remote owner repo _) as [playlists warnings].
  simpl in HP, HW. exists playlists, warnings. split; [reflexivity|]. split.
  - intros p. rewrite HP. split.
    + intros (d & c & Hin & H). apply filter_In in Hin. destruct Hin as [Hin Ht].
      apply String.eqb_eq in Ht. exists d, c. tauto.
    + intros (d & c & Hin & Ht & H). exists d, c. rewrite filter_In.
      rewrite Ht, String.eqb_refl. tauto.
  - intros path. rewrite HW. split.
    + intros (d & Hin & H). apply filter_In in Hin. destruct Hin as [Hin Ht].
      apply String.eqb_eq in Ht. exists d. tauto.
    + intros (d & Hin & Ht & H). exists d. rewrite filter_In.
      rewrite Ht, String.eqb_refl. tauto.
Qed.

End Scanner.

(* ------------------------------------------------------------------ *)
(** * Repository URLs *)

Section Urls.
Import GitHubService AddStreamingLinkModal.

Lemma stripPrefix_Some (p s r : string) :
  JS.stripPrefix p s = Some r -> s = p ++ r.
Proof.
  revert s. induction p as [|a p IH]; simpl; intros s H.
  - congruence.
  - destruct s as [|b s]; [discriminate|].
    destruct (Ascii.eqb_spec a b) as [->|]; [|discriminate].
    now rewrite (IH _ H).
Qed.

Lemma stripPrefix_app (p r : string) : JS.stripPrefix p (p ++ r) = Some r.
Proof. induction p; simpl; [reflexivity | now rewrite Ascii.eqb_refl]. Qed.

(** A run of URL characters that stops at a slash is a run of characters
    other than slash that stops there. *)
Lemma span_url_not_slash (s g rest : string) :
  JS.span url_char s = (g, String "/" rest) ->
  JS.span not_slash s = (g, String "/" rest).
Proof.
  revert g. induction s as [|c r IH]; simpl; intros g H.
  - discriminate.
  - destruct (url_char c) eqn:Hc.
    + destruct (JS.span url_char r) as [a b] eqn:Hspan. injection H as <- ->.
      rewrite (IH a eq_refl).
      assert (Hns : not_slash c = true).
      { destruct c as [[] [] [] [] [] [] [] []]; try reflexivity; discriminate Hc. }
      now rewrite Hns.
    + injection H as <- -> ->. reflexivity.
Qed.

Lemma matchUrl_here (s : string) (m : string * string) :
  matchHere s = Some m -> matchUrl s = Some m.
Proof. intros H. destruct s; cbn [matchUrl]; now rewrite H. Qed.

Lemma githubUrlPattern_parses (link : string) :
  githubUrlPattern link = true -> exists repoInfo, parseGitHubUrl link = Some repoInfo.
Proof.
  unfold githubUrlPattern. intros H.
  destruct (JS.stripPrefix "https://github.com/" link) as [rest|] eqn:Hpre;
    [|discriminate].
  apply stripPrefix_Some in Hpre. subst link.
  destruct (JS.span url_char rest) as [g1 after] eqn:Hspan.
  destruct g1 as [|c1 g1]; [discriminate|].
  destruct after as [|slash after]; [discriminate|].
  destruct (Ascii.eqb_spec slash "/") as [->|Hne].
  2:{ destruct slash as [[] [] [] [] [] [] [] []]; try discriminate H.
      now contradiction Hne. }
  destruct after as [|c2 after]; [discriminate|].
  apply span_url_not_slash in Hspan.
  assert (Hhere : exists m, matchHere ("github.com/" ++ rest) = Some m).
  { unfold matchHere. rewrite stripPrefix_app, Hspan. simpl.
    assert (Hns : not_slash c2 = true).
    { destruct c2 as [[] [] [] [] [] [] [] []]; try reflexivity; discriminate H. }
    rewrite Hns. destruct (JS.span not_slash after) as [a b]. eauto. }
  destruct Hhere as ([g1' g2] & Hhere). apply matchUrl_here in Hhere.
  unfold parseGitHubUrl.
  replace (matchUrl ("https://github.com/" ++ rest))
    with (matchUrl ("github.com/" ++ rest)) by reflexivity.
  rewrite Hhere. eauto.
Qed.

End Urls.

(* ------------------------------------------------------------------ *)
(** * Single steps of the three paths *)

Section Policies.

Variable env : Env.
Variable repoInfo : RepoInfo.
Variable song : ScannedSong.

Let uniqueLink :=
  GitHubService.generateUniqueLink env (owner repoInfo) (repo repoInfo) (song_path song).

Lemma filter_map_commute {A} (f : A -> A) (p : A -> bool) (l : list A) :
  (forall a, p (f a) = p a) -> filter p (List.map f l) = List.map f (filter p l).
Proof.
  intros H. induction l as [|a l IH]; simpl; [reflexivity|].
  rewrite H. destruct (p a); simpl; now rewrite IH.
Qed.

Lemma songByLink_In link db row :
  Supabase.songByLink link db = Some row ->
  filter (fun s => unique_link s =? link) (songs db) = [row].
Proof.
  unfold Supabase.songByLink.
  destruct (filter _ (songs db)) as [|r [|r' l]]; congruence.
Qed.

Lemma bulk_repoints db pid existing :
  Supabase.songByLink uniqueLink db = Some existing ->
  run (AdminBulkImportModal.findOrCreateSong (E := Empty_set) env song pid repoInfo) db
    = (Returned (Some (song_id existing)),
       Supabase.repointSong (song_id existing) pid db) /\
  Supabase.songByLink uniqueLink (Supabase.repointSong (song_id existing) pid db)
    = Some (movedTo pid existing).
Proof.
  intros Hfound. split.
  - unfold run, AdminBulkImportModal.findOrCreateSong.
    fold uniqueLink. unfold bind at 1. unfold Supabase.read at 1. cbn [store].
    rewrite Hfound. reflexivity.
  - apply songByLink_In in Hfound.
    unfold Supabase.songByLink, Supabase.repointSong. cbn [songs].
    rewrite filter_map_commute.
    + rewrite Hfound. cbn. now rewrite Nat.eqb_refl.
    + intros a. now destruct (song_id a =? song_id existing)%nat.
Qed.

Lemma refresh_skips db pid existing ttl dur file :
  Supabase.songByLink uniqueLink db = Some existing ->
  playlist_id existing <> pid ->
  run (LibraryPage.findOrCreateSong pid
         {| LibraryPage.sd_title := ttl; LibraryPage.sd_duration := dur;
            LibraryPage.sd_file_path := file;
            LibraryPage.sd_unique_link := uniqueLink |}) db
    = (Returned None, db).
Proof.
  intros Hfound Hother.
  unfold run, LibraryPage.findOrCreateSong. cbn [LibraryPage.sd_unique_link].
  unfold bind at 1. unfold Supabase.read at 1. cbn [store].
  rewrite Hfound. apply Nat.eqb_neq in Hother. now rewrite Hother.
Qed.

Lemma append_longer (a b : string) : b <> "" -> a ++ b <> a.
Proof.
  intros Hb. induction a as [|c a IH]; simpl; [exact Hb|].
  intros H. injection H as H. now apply IH.
Qed.

Lemma single_import_copies db user pid created existing :
  Supabase.songByLink uniqueLink db = Some existing ->
  let stored := uniqueLink ++ "_" ++ user ++ "_" ++ JS.ofNumber (clock env 0) in
  exists created' db',
    run (AddStreamingLinkModal.createSong env user repoInfo pid created song) db
      = (Returned created', db') /\
    Supabase.songByLink uniqueLink db' = Some existing /\
    if existsb (fun s => unique_link s =? stored) (songs db)
    then db' = db /\ created' = created
    else songs db' =
           (songs db ++
              [{| song_id := next_id db; playlist_id := pid;
                  title := song_name song; duration := 180;
                  file_path := downloadUrl song; unique_link := stored |}])%list
         /\ created' = S created.
Proof.
  intros Hfound stored.
  unfold run, AddStreamingLinkModal.createSong. fold uniqueLink.
  unfold bind at 1. unfold Date_now at 1. cbn [store reads]. fold stored.
  unfold bind at 1. unfold Supabase.insertSong at 1. cbn [store reads].
  destruct (existsb (fun s => unique_link s =? stored) (songs db)) eqn:Hdup.
  - exists created, db. cbn. repeat split; auto.
  - eexists (S created), _. cbn. split; [reflexivity|]. split; [|split; reflexivity].
    unfold Supabase.songByLink, Supabase.withSong. cbn [songs].
    rewrite filter_app. cbn.
    assert (Hne : (stored =? uniqueLink) = false).
    { apply String.eqb_neq. unfold stored. apply append_longer. discriminate. }
    rewrite Hne, app_nil_r. exact Hfound.
Qed.

End Policies.

(* ------------------------------------------------------------------ *)
(** * Rules of the triples *)

Section Rules.

Context {E : Type}.

Lemma hoare_weaken {A} (P P' : Store -> Prop) (m : Op E A)
    (Q Q' : Outcome E A -> Store -> Prop) :
  hoare P' m Q' -> (forall s, P s -> P' s) -> (forall r s, Q' r s -> Q r s) ->
  hoare P m Q.
Proof. intros H HP HQ w Hw. apply HQ, H, HP, Hw. Qed.

Lemma hoare_ret {A} (P : Store -> Prop) (a : A) (Q : Outcome E A -> Store -> Prop) :
  (forall s, P s -> Q (Returned a) s) -> hoare P (ret a) Q.
Proof. intros H w Hw. apply H, Hw. Qed.

Lemma hoare_throw {A} (P : Store -> Prop) (e : E) (Q : Outcome E A -> Store -> Prop) :
  (forall s, P s -> Q (Threw e) s) -> hoare P (throw e) Q.
Proof. intros H w Hw. apply H, Hw. Qed.

Lemma hoare_bind {A B} (P : Store -> Prop) (R : A -> Store -> Prop)
    (m : Op E A) (k : A -> Op E B) (Q : Outcome E B -> Store -> Prop) :
  hoare P m (fun r s => match r with
                        | Returned a => R a s
                        | Threw e => Q (Threw e) s
                        end) ->
  (forall a, hoare (R a) (k a) Q) ->
  hoare P (bind m k) Q.
Proof.
  intros Hm Hk w Hw. specialize (Hm w Hw). unfold bind.
  destruct (m w) as [[e|a] w']; cbn in *; [exact Hm | now apply Hk].
Qed.

Lemma hoare_catch {E' A} (P : Store -> Prop) (R : E' -> Store -> Prop)
    (m : Op E' A) (h : E' -> Op E A) (Q : Outcome E A -> Store -> Prop) :
  hoare P m (fun r s => match r with
                        | Returned a => Q (Returned a) s
                        | Threw e => R e s
                        end) ->
  (forall e, hoare (R e) (h e) Q) ->
  hoare P (catch m h) Q.
Proof.
  intros Hm Hh w Hw. specialize (Hm w Hw). unfold catch.
  destruct (m w) as [[e|a] w']; cbn in *; [now apply Hh | exact Hm].
Qed.

Lemma hoare_read {A} (P : Store -> Prop) (q : Store -> A)
    (Q : Outcome E A -> Store -> Prop) :
  (forall s, P s -> Q (Returned (q s)) s) -> hoare P (Supabase.read q) Q.
Proof. intros H w Hw. apply H, Hw. Qed.

Lemma hoare_write (P : Store -> Prop) (f : Store -> Store)
    (Q : Outcome E unit -> Store -> Prop) :
  (forall s, P s -> Q (Returned tt) (f s)) -> hoare P (Supabase.write f) Q.
Proof. intros H w Hw. apply H, Hw. Qed.

Lemma hoare_Date_now (P : Store -> Prop) (env : Env)
    (Q : Outcome E N -> Store -> Prop) :
  (forall s now, P s -> Q (Returned now) s) -> hoare P (Date_now env) Q.
Proof. intros H w Hw. apply H, Hw. Qed.

Lemma hoare_insertPlaylist (P : Store -> Prop) user sid name path
    (Q : Outcome E (option PlaylistRow) -> Store -> Prop) :
  (forall s, P s ->
     let row := {| plist_id := next_id s; user_id := user; source_id := sid;
                   plist_name := name; folder_path := path |} in
     Q (Returned (Some row)) (Supabase.withPlaylist row s)) ->
  hoare P (Supabase.insertPlaylist user sid name path) Q.
Proof. intros H w Hw. apply H, Hw. Qed.

Lemma hoare_insertSource (P : Store -> Prop) name link user now
    (Q : Outcome E (option SourceRow) -> Store -> Prop) :
  (forall s, P s ->
     let row := {| src_id := next_id s; src_name := name; drive_link := link;
                   created_by := user; last_synced := now |} in
     Q (Returned (Some row)) (Supabase.withSource row s)) ->
  hoare P (Supabase.insertSource name link user now) Q.
Proof. intros H w Hw. apply H, Hw. Qed.

Lemma hoare_insertSong (P : Store -> Prop) pid ttl dur file link
    (Q : Outcome E (option SongRow) -> Store -> Prop) :
  (forall s, P s ->
     existsb (fun r => unique_link r =? link) (songs s) = true ->
     Q (Returned None) s) ->
  (forall s, P s ->
     existsb (fun r => unique_link r =? link) (songs s) = false ->
     let row := {| song_id := next_id s; playlist_id := pid; title := ttl;
                   duration := dur; file_path := file; unique_link := link |} in
     Q (Returned (Some row)) (Supabase.withSong row s)) ->
  hoare P (Supabase.insertSong pid ttl dur file link) Q.
Proof.
  intros Hdup Hnew w Hw. unfold Supabase.insertSong.
  destruct (existsb _ (songs (store w))) eqn:Hex; cbn.
  - now apply Hdup.
  - now apply Hnew.
Qed.

Lemma keeps_bind {A B} (I : Store -> Prop) (m : Op E A) (k : A -> Op E B) :
  keeps I m -> (forall a, keeps I (k a)) -> keeps I (bind m k).
Proof.
  intros Hm Hk. apply hoare_bind with (R := fun _ => I); [|exact Hk].
  eapply hoare_weaken; [exact Hm | auto |]. now intros [?|?] ?.
Qed.

Lemma hoare_bind_keep {A B} (P I : Store -> Prop) (m : Op E A) (k : A -> Op E B) :
  hoare P m (fun _ => I) -> (forall a, keeps I (k a)) ->
  hoare P (bind m k) (fun _ => I).
Proof.
  intros Hm Hk. apply hoare_bind with (R := fun _ => I); [|exact Hk].
  eapply hoare_weaken; [exact Hm | auto |]. now intros [?|?] ?.
Qed.

Lemma keeps_catch {E' A} (I : Store -> Prop) (m : Op E' A) (h : E' -> Op E A) :
  keeps I m -> (forall e, keeps I (h e)) -> keeps I (catch m h).
Proof.
  intros Hm Hh w Hw. specialize (Hm w Hw). unfold catch.
  destruct (m w) as [[e|a] w']; cbn in *; [now apply Hh | exact Hm].
Qed.

Lemma keeps_foldM {X S} (I : Store -> Prop) (body : S -> X -> Op E S)
    (l : list X) (s0 : S) :
  (forall s x, In x l -> keeps I (body s x)) -> keeps I (foldM body l s0).
Proof.
  revert s0. induction l as [|x rest IH]; intros s0 Hbody; cbn [foldM].
  - now apply hoare_ret.
  - apply keeps_bind.
    + apply Hbody. now left.
    + intros a. apply IH. intros s x' Hin. apply Hbody. now right.
Qed.

End Rules.

(* ------------------------------------------------------------------ *)
(** * Properties of the store that every operation keeps

    A property closed under the five writes of the client, the insert of a
    source only where the lookup by its link is empty and the insert of a
    song only where its link is free, is kept by the three operations. *)

Section Closed.

Variable I : Store -> Prop.

Hypothesis I_playlist : forall row s, I s -> I (Supabase.withPlaylist row s).
Hypothesis I_song :
  forall row s, I s ->
    existsb (fun r => unique_link r =? unique_link row) (songs s) = false ->
    I (Supabase.withSong row s).
Hypothesis I_repoint : forall id pid s, I s -> I (Supabase.repointSong id pid s).
Hypothesis I_touch : forall id now s, I s -> I (Supabase.touchSource id now s).
Hypothesis I_source :
  forall row s, I s -> Supabase.sourcesByLink (drive_link row) s = [] ->
    I (Supabase.withSource row s).

Ltac keep :=
  first
    [ apply hoare_ret; now auto
    | apply hoare_throw; now auto
    | apply hoare_read; now auto
    | apply hoare_Date_now; now auto
    | apply hoare_write; intros; now auto
    | apply hoare_insertPlaylist; intros; now auto ].

Ltac next := apply keeps_bind; [keep | intros ?].

Lemma keeps_insertSong {E} pid ttl dur file link :
  keeps (E := E) I (Supabase.insertSong pid ttl dur file link).
Proof.
  apply hoare_insertSong; intros s Hs Hex; [exact Hs|]. now apply I_song.
Qed.

Lemma keeps_single_createSong env user repoInfo pid created song :
  keeps I (AddStreamingLinkModal.createSong env user repoInfo pid created song).
Proof.
  unfold AddStreamingLinkModal.createSong. next.
  apply keeps_bind; [apply keeps_insertSong|]. intros [row|]; keep.
Qed.

Lemma keeps_single_createPlaylist env user repoInfo sid report playlist :
  keeps I (AddStreamingLinkModal.createPlaylist env user repoInfo sid report playlist).
Proof.
  unfold AddStreamingLinkModal.createPlaylist. next.
  destruct a as [playlistData|]; [|keep].
  apply keeps_bind; [|intros; keep].
  apply keeps_foldM. intros. apply keeps_single_createSong.
Qed.

(** The source of an import is inserted only after the lookup by its link
    came back empty. *)
Lemma keeps_resolve {E A} link (found : list SourceRow) (create : Op E A)
    (reuse : SourceRow -> Op E A) :
  hoare (fun s => I s /\ Supabase.sourcesByLink link s = []) create (fun _ => I) ->
  (forall existing, keeps I (reuse existing)) ->
  hoare (fun s => I s /\ found = Supabase.sourcesByLink link s)
        match found with
        | [] => create
        | existing :: _ => reuse existing
        end
        (fun _ => I).
Proof.
  intros Hcreate Hreuse. destruct found as [|existing others].
  - eapply hoare_weaken; [exact Hcreate | | auto]. intros s [Hs Hnone]. auto.
  - eapply hoare_weaken; [apply Hreuse | | auto]. tauto.
Qed.

Lemma keeps_create_source {E A} env name link user (k : option SourceRow -> Op E A) :
  (forall inserted, keeps I (k inserted)) ->
  hoare (fun s => I s /\ Supabase.sourcesByLink link s = [])
        (now <- Date_now env ;;
         inserted <- Supabase.insertSource name link user now ;;
         k inserted)
        (fun _ => I).
Proof.
  intros Hk.
  apply hoare_bind
    with (R := fun _ s => I s /\ Supabase.sourcesByLink link s = []).
  - apply hoare_Date_now. auto.
  - intros now. apply hoare_bind_keep; [|exact Hk].
    apply hoare_insertSource. intros s [Hs Hnone]. cbn. now apply I_source.
Qed.

Lemma keeps_handleSubmit env user name githubLink :
  keeps I (AddStreamingLinkModal.handleSubmit env user name githubLink).
Proof.
  unfold AddStreamingLinkModal.handleSubmit.
  destruct (negb _); [keep|].
  destruct (GitHubService.parseGitHubUrl _) as [repoInfo|]; [|keep].
  next. destruct (0 <? _)%nat; [keep|].
  apply hoare_bind
    with (R := fun found s => I s /\ found = Supabase.sourcesByLink (JS.trim githubLink) s).
  { apply hoare_read. auto. }
  intros found.
  apply hoare_bind_keep.
  - apply keeps_resolve; [|intros; keep].
    apply keeps_create_source. intros [row|]; keep.
  - intros sourceData.
    destruct (GitHubService.scanRepositoryStructure _ _ _) as [|scanned warnings];
      [keep|].
    destruct (_ =? 0)%nat; [keep|].
    apply keeps_foldM. intros. apply keeps_single_createPlaylist.
Qed.

(** ** Bulk import *)

Lemma keeps_bulk_findOrCreateSong {E} env song pid repoInfo :
  keeps (E := E) I (AdminBulkImportModal.findOrCreateSong env song pid repoInfo).
Proof.
  unfold AdminBulkImportModal.findOrCreateSong. next.
  destruct a as [existing|].
  - next. keep.
  - apply keeps_bind; [apply keeps_insertSong|]. intros [row|]; keep.
Qed.

Lemma keeps_bulk_createPlaylist {E} env user repoInfo sid total playlist :
  keeps (E := E) I
    (AdminBulkImportModal.createPlaylist env user repoInfo sid total playlist).
Proof.
  unfold AdminBulkImportModal.createPlaylist. next.
  destruct a as [playlistData|]; [|keep].
  apply keeps_bind.
  - apply keeps_foldM. intros s x _. unfold AdminBulkImportModal.linkSong.
    apply keeps_bind; [apply keeps_bulk_findOrCreateSong|]. intros [id|]; keep.
  - intros n. destruct (0 <? n)%nat; keep.
Qed.

Lemma keeps_processRepository {E} env user url :
  keeps (E := E) I (AdminBulkImportModal.processRepository env user url).
Proof.
  unfold AdminBulkImportModal.processRepository.
  apply hoare_bind
    with (R := fun found s => I s /\ found = Supabase.sourcesByLink (JS.trim url) s).
  { apply hoare_read. auto. }
  intros found.
  apply hoare_bind_keep.
  - apply keeps_resolve; [|intros; keep].
    destruct (GitHubService.parseGitHubUrl url); [|apply hoare_ret; tauto].
    apply keeps_create_source. intros [row|]; keep.
  - intros [status|sourceData]; [keep|].
    destruct (GitHubService.parseGitHubUrl url) as [repoInfo|]; [|keep].
    destruct (GitHubService.scanRepositoryStructure _ _ _) as [|scanned warnings];
      [keep|].
    destruct (_ =? 0)%nat; [keep|].
    apply keeps_bind; [|intros; keep].
    apply keeps_foldM. intros. apply keeps_bulk_createPlaylist.
Qed.

Lemma keeps_processAll {E} env user githubUrls :
  keeps (E := E) I (AdminBulkImportModal.processAll env user githubUrls).
Proof.
  unfold AdminBulkImportModal.processAll. apply keeps_foldM. intros results url _.
  apply keeps_bind; [apply keeps_processRepository | intros; keep].
Qed.

(** ** Refresh *)

Lemma keeps_refresh_findOrCreateSong pid songData :
  keeps I (LibraryPage.findOrCreateSong pid songData).
Proof.
  unfold LibraryPage.findOrCreateSong. next.
  destruct a as [existing|].
  - destruct (_ =? _)%nat; keep.
  - apply keeps_bind; [apply keeps_insertSong|]. intros [row|]; keep.
Qed.

Lemma keeps_addSong env repoInfo pid count song :
  keeps I (LibraryPage.addSong env repoInfo pid count song).
Proof.
  unfold LibraryPage.addSong. apply keeps_catch; [|intros; keep].
  apply keeps_bind; [apply keeps_refresh_findOrCreateSong|]. intros [row|]; keep.
Qed.

Lemma keeps_addPlaylist env user repoInfo sid count playlist :
  keeps I (LibraryPage.addPlaylist env user repoInfo sid count playlist).
Proof.
  unfold LibraryPage.addPlaylist. next.
  destruct a as [playlistData|]; [|keep].
  apply keeps_foldM. intros. apply keeps_addSong.
Qed.

Lemma keeps_handleRefreshSource env user source :
  keeps I (LibraryPage.handleRefreshSource env user source).
Proof.
  unfold LibraryPage.handleRefreshSource.
  destruct (GitHubService.parseGitHubUrl _) as [repoInfo|]; [|keep].
  destruct (GitHubService.scanRepositoryStructure _ _ _) as [|scanned warnings];
    [keep|].
  next. destruct (_ =? 0)%nat; [keep|].
  apply keeps_bind.
  - apply keeps_foldM. intros. apply keeps_addPlaylist.
  - intros count. next. next. keep.
Qed.

(** ** Any sequence of operations *)

Lemma keeps_run {E A} (m : Op E A) (db : Store) :
  keeps I m -> I db -> I (snd (run m db)).
Proof.
  intros Hm Hdb. unfold run.
  specialize (Hm {| store := db; reads := 0 |} Hdb).
  destruct (m _) as [r w]. exact Hm.
Qed.

Lemma keeps_perform (op : Operation) (db : Store) : I db -> I (perform db op).
Proof.
  destruct op; cbn [perform]; apply keeps_run.
  - apply keeps_handleSubmit.
  - apply keeps_processAll.
  - apply keeps_handleRefreshSource.
Qed.

Lemma keeps_performAll (ops : list Operation) (db : Store) :
  I db -> I (performAll ops db).
Proof.
  unfold performAll. revert db.
  induction ops as [|op ops IH]; intros db Hdb; cbn [fold_left];
    [exact Hdb | apply IH, keeps_perform, Hdb].
Qed.

End Closed.

(* ------------------------------------------------------------------ *)
(** * Invariants of the store *)

Section Invariants.

Lemma existsb_eqb_In {A} (f : A -> string) (v : string) (l : list A) :
  existsb (fun x => f x =? v) l = false -> ~ In v (List.map f l).
Proof.
  intros Hex Hin. apply in_map_iff in Hin. destruct Hin as (x & <- & Hx).
  assert (existsb (fun y => f y =? f x) l = true)
    by (apply existsb_exists; exists x; now rewrite String.eqb_refl).
  congruence.
Qed.

Lemma NoDup_snoc {A} (l : list A) (a : A) : NoDup l -> ~ In a l -> NoDup (l ++ [a]).
Proof.
  intros Hl Ha. apply NoDup_app; [exact Hl | repeat constructor; auto |].
  intros x Hx [<-|[]]. contradiction.
Qed.

Lemma NoDup_filter_le {A} (f : A -> string) (v : string) (l : list A) :
  NoDup (List.map f l) -> List.length (filter (fun x => f x =? v) l) <= 1.
Proof.
  induction l as [|a l IH]; cbn; [lia|]. intros Hnd. inversion Hnd as [|? ? Hnotin Hnd']; subst.
  destruct (String.eqb_spec (f a) v) as [Heq|Hne]; [|auto].
  assert (Hnone : filter (fun x => f x =? v) l = []).
  { destruct (filter _ l) as [|b rest] eqn:Hf; [reflexivity|].
    assert (Hb : In b (filter (fun x => f x =? v) l)) by (rewrite Hf; now left).
    apply filter_In in Hb. destruct Hb as [Hb Hfb]. apply String.eqb_eq in Hfb.
    exfalso. apply Hnotin. rewrite Heq, <- Hfb. now apply in_map. }
  rewrite Hnone. cbn. lia.
Qed.

Lemma map_repoint (id pid : nat) (db : Store) :
  List.map unique_link (songs (Supabase.repointSong id pid db))
  = List.map unique_link (songs db).
Proof.
  unfold Supabase.repointSong. cbn [songs]. rewrite map_map. apply map_ext.
  intros s. now destruct (song_id s =? id)%nat.
Qed.

Lemma map_touch (id : nat) (now : N) (db : Store) :
  List.map drive_link (streaming_sources (Supabase.touchSource id now db))
  = List.map drive_link (streaming_sources db).
Proof.
  unfold Supabase.touchSource. cbn [streaming_sources]. rewrite map_map.
  apply map_ext. intros s. now destruct (src_id s =? id)%nat.
Qed.

Lemma sourcesByLink_none (link : string) (db : Store) :
  Supabase.sourcesByLink link db = [] ->
  ~ In link (List.map drive_link (streaming_sources db)).
Proof.
  unfold Supabase.sourcesByLink. intros Hnone Hin.
  apply in_map_iff in Hin. destruct Hin as (row & <- & Hrow).
  assert (Hf : In row (filter (fun s => drive_link s =? drive_link row)
                              (streaming_sources db)))
    by (apply filter_In; split; [exact Hrow | apply String.eqb_refl]).
  rewrite Hnone in Hf. destruct Hf.
Qed.

Lemma uniqueSongLinks_kept (ops : list Operation) (db : Store) :
  uniqueSongLinks db -> uniqueSongLinks (performAll ops db).
Proof.
  apply keeps_performAll; unfold uniqueSongLinks; auto.
  - intros row s Hs Hex. cbn. rewrite map_app. cbn.
    apply NoDup_snoc; [exact Hs | now apply existsb_eqb_In].
  - intros id pid s Hs. now rewrite map_repoint.
Qed.

Lemma uniqueSourceLinks_kept (ops : list Operation) (db : Store) :
  uniqueSourceLinks db -> uniqueSourceLinks (performAll ops db).
Proof.
  apply keeps_performAll; unfold uniqueSourceLinks; auto.
  - intros id now s Hs. now rewrite map_touch.
  - intros row s Hs Hnone. cbn. rewrite map_app. cbn.
    apply NoDup_snoc; [exact Hs | now apply sourcesByLink_none].
Qed.

Lemma sourcesByLink_touch link id now db :
  hasSource link db -> hasSource link (Supabase.touchSource id now db).
Proof.
  unfold hasSource, Supabase.sourcesByLink, Supabase.touchSource.
  cbn [streaming_sources]. intros Hhas Hnone. apply Hhas.
  destruct (filter _ (streaming_sources db)) as [|row rest] eqn:Hf; [reflexivity|].
  assert (Hrow : In row (filter (fun s => drive_link s =? link) (streaming_sources db)))
    by (rewrite Hf; now left).
  apply filter_In in Hrow. destruct Hrow as [Hrow Hlink].
  set (touch := fun s : SourceRow => if (src_id s =? id)%nat then _ else s) in Hnone.
  assert (Hin : In (touch row) (filter (fun s => drive_link s =? link)
                                       (List.map touch (streaming_sources db)))).
  { apply filter_In. split; [now apply in_map|].
    unfold touch. now destruct (src_id row =? id)%nat. }
  rewrite Hnone in Hin. destruct Hin.
Qed.

Lemma hasSource_closed (link : string) :
  (forall row s, hasSource link s -> hasSource link (Supabase.withPlaylist row s)) /\
  (forall row s, hasSource link s -> hasSource link (Supabase.withSong row s)) /\
  (forall id pid s, hasSource link s -> hasSource link (Supabase.repointSong id pid s)) /\
  (forall id now s, hasSource link s -> hasSource link (Supabase.touchSource id now s)) /\
  (forall row s, hasSource link s -> hasSource link (Supabase.withSource row s)).
Proof.
  repeat split; auto using sourcesByLink_touch.
  intros row s Hs. unfold hasSource, Supabase.sourcesByLink in *. cbn.
  rewrite filter_app. intros Hnil. apply app_eq_nil in Hnil. tauto.
Qed.

End Invariants.

(* ------------------------------------------------------------------ *)
(** * Import and refresh *)

Section OneSource.
Import AddStreamingLinkModal.

Lemma handleSubmit_has_source env user name githubLink :
  githubUrlPattern (JS.trim githubLink) = true ->
  hoare (fun _ => True) (handleSubmit env user name githubLink)
        (fun _ s => hasSource (JS.trim githubLink) s).
Proof.
  intros Hpat. destruct (githubUrlPattern_parses _ Hpat) as (repoInfo & Hparse).
  destruct (hasSource_closed (JS.trim githubLink)) as (Hp & Hs & Hr & Ht & Hsrc).
  unfold handleSubmit. rewrite Hpat, Hparse. cbn [negb].
  apply hoare_bind
    with (R := fun owned s =>
                 owned = Supabase.sourcesByLinkOwnedBy (JS.trim githubLink) user s).
  { apply hoare_read. auto. }
  intros owned. destruct (0 <? List.length owned)%nat eqn:Hlen.
  { apply hoare_throw. intros s ->. unfold hasSource. intros Hnone.
    unfold Supabase.sourcesByLinkOwnedBy in Hlen. rewrite Hnone in Hlen.
    discriminate Hlen. }
  apply hoare_bind
    with (R := fun found s => found = Supabase.sourcesByLink (JS.trim githubLink) s).
  { apply hoare_read. auto. }
  intros found.
  apply hoare_bind_keep with (I := hasSource (JS.trim githubLink)).
  - destruct found as [|existing others].
    + apply hoare_bind with (R := fun _ _ => True); [now apply hoare_Date_now|].
      intros now. apply hoare_bind_keep with (I := hasSource (JS.trim githubLink)).
      * apply hoare_insertSource. intros s _ row. cbv beta.
        unfold hasSource, Supabase.sourcesByLink, Supabase.withSource.
        cbn [streaming_sources]. rewrite filter_app. subst row.
        cbn [filter drive_link].
        rewrite String.eqb_refl. intros Hnil. apply app_eq_nil in Hnil.
        destruct Hnil as [_ Hnil]. discriminate Hnil.
      * intros [row|]; [now apply hoare_ret | now apply hoare_throw].
    + apply hoare_ret. intros s Hfound. unfold hasSource. rewrite <- Hfound.
      discriminate.
  - intros sourceData.
    destruct (GitHubService.scanRepositoryStructure _ _ _) as [|scanned warnings];
      [now apply hoare_throw|].
    destruct (_ =? 0)%nat; [now apply hoare_throw|].
    apply keeps_foldM. intros. apply keeps_single_createPlaylist; auto.
Qed.

End OneSource.

Section Refresh.
Import LibraryPage.

Variables (sid : nat) (user : string).


Lemma hasFolder_existing (path : string) (db : Store) :
  existsb (String.eqb path)
          (List.map folder_path (Supabase.playlistsOf sid user db)) = true
  <-> hasFolder sid user path db.
Proof.
  rewrite existsb_exists. unfold hasFolder, Supabase.playlistsOf. split.
  - intros (q & Hin & Heq). apply String.eqb_eq in Heq. subst q.
    apply in_map_iff in Hin. destruct Hin as (row & Hpath & Hrow).
    apply filter_In in Hrow. destruct Hrow as [Hrow Hcond].
    apply andb_true_iff in Hcond. destruct Hcond as [Hs Hu].
    apply Nat.eqb_eq in Hs. apply String.eqb_eq in Hu. exists row. tauto.
  - intros (row & Hin & Hs & Hu & Hpath). exists path. split.
    + apply in_map_iff. exists row. split; [exact Hpath|].
      apply filter_In. split; [exact Hin|].
      now rewrite Hs, Hu, Nat.eqb_refl, String.eqb_refl.
    + apply String.eqb_refl.
Qed.






Lemma filter_nil {A} (f : A -> bool) (l : list A) :
  (forall a, In a l -> f a = false) -> filter f l = [].
Proof.
  induction l as [|a l IH]; cbn; intros H; [reflexivity|].
  rewrite (H a (or_introl eq_refl)). apply IH. auto.
Qed.

End Refresh.

Section RefreshTwice.
Import LibraryPage.

Variables (user : string) (source : SourceRow) (repoInfo : RepoInfo).
Variables (rem : Remote) (scanned : list ScannedPlaylist) (warnings : list string).

Hypothesis Hparse : GitHubService.parseGitHubUrl (drive_link source) = Some repoInfo.
Hypothesis Hscan :
  GitHubService.scanRepositoryStructure rem (owner repoInfo) (repo repoInfo)
  = ScanReturned scanned warnings.


(** A refresh that finds a folder for every scanned playlist reports that
    nothing is new and leaves the store as it was. *)
Lemma refresh_nothing_new env db source' :
  remote env = rem ->
  src_id source' = src_id source -> drive_link source' = drive_link source ->
  (forall p, In p scanned -> hasFolder (src_id source) user (pl_path p) db) ->
  run (handleRefreshSource env user source') db = (Returned NoNewPlaylists, db).
Proof.
  intros Hrem Hid Hlink Hall. unfold run, handleRefreshSource.
  rewrite Hlink, Hparse, Hrem, Hscan, Hid.
  unfold bind at 1. unfold Supabase.read at 1. cbn [store].
  rewrite filter_nil; [reflexivity|].
  intros p Hp. apply negb_false_iff. apply hasFolder_existing. auto.
Qed.

End RefreshTwice.

(** A refresh whose scan throws fails with the error of the scan and
    leaves the store, [last_synced] included, as it was. *)
Lemma refresh_scan_failed env user source repoInfo db :
  GitHubService.parseGitHubUrl (drive_link source) = Some repoInfo ->
  GitHubService.scanRepositoryStructure (remote env) (owner repoInfo) (repo repoInfo)
    = ScanThrew ->
  run (LibraryPage.handleRefreshSource env user source) db
  = (Threw LibraryPage.ScanFailed, db).
Proof.
  intros Hparse Hscan. unfold run, LibraryPage.handleRefreshSource.
  now rewrite Hparse, Hscan.
Qed.

(* ------------------------------------------------------------------ *)
(** * The properties of the specification: the scanner *)

Lemma playable_iff (file : GitHubContent) :
  Playable file <->
  GitHubService.isAudioFile file = true /\
  exists url, download_url file = Some url /\ url <> "".
Proof. unfold Playable, AudioFile. rewrite isAudioFile_iff. tauto. Qed.

Section Catalog.

Import GitHubService.

Variable remote : Remote.
Variables owner repo : string.

Let fetch := fetchRepositoryContents remote owner repo.

Lemma scan_inversion (catalog : list ScannedPlaylist) (warnings : list string) :
  scanRepositoryStructure remote owner repo = ScanReturned catalog warnings ->
  exists rootContents,
    fetch "" = Some rootContents /\
    (forall p, In p catalog <->
       exists dir dirContents,
         In dir rootContents /\ gh_type dir = "dir" /\
         fetch (gh_path dir) = Some dirContents /\
         songsOf dirContents <> [] /\ p = playlistOf dir dirContents) /\
    (forall path, In path warnings <->
       exists dir, In dir rootContents /\ gh_type dir = "dir" /\
                   fetch (gh_path dir) = None /\ path = gh_path dir).
Proof.
  intros Hscan. unfold fetch.
  destruct (fetchRepositoryContents remote owner repo "") as [rootContents|] eqn:Hroot.
  - destruct (@scan_returns remote owner repo _ Hroot) as (ps & ws & Hret & HP & HW).
    rewrite Hret in Hscan. injection Hscan as -> ->. now exists rootContents.
  - unfold scanRepositoryStructure in Hscan. rewrite Hroot in Hscan. discriminate.
Qed.

Lemma candidate_iff (rootContents : list GitHubContent)
    (catalog : list ScannedPlaylist) (warnings : list string)
    (dir : GitHubContent) (dirContents : list GitHubContent) :
  fetch "" = Some rootContents ->
  scanRepositoryStructure remote owner repo = ScanReturned catalog warnings ->
  In dir rootContents -> gh_type dir = "dir" ->
  fetch (gh_path dir) = Some dirContents ->
  (candidate catalog dir <-> songsOf dirContents <> []).
Proof.
  intros Hroot Hscan Hdir Htype Hlist.
  destruct (@scan_inversion _ _ Hscan) as (root' & Hroot' & HP & _).
  rewrite Hroot in Hroot'. injection Hroot' as <-.
  unfold candidate. split.
  - intros (p & Hp & Hpath). apply HP in Hp.
    destruct Hp as (d & c & _ & _ & Hc & Hne & ->). cbn in Hpath.
    rewrite Hpath, Hlist in Hc. now injection Hc as ->.
  - intros Hne. exists (playlistOf dir dirContents). split; [|reflexivity].
    apply HP. exists dir, dirContents. tauto.
Qed.

End Catalog.

(** C6, as amended.  For every scanned repository, a directory of the root
    whose listing could be fetched is a playlist candidate of the catalog
    if and only if its listing holds an entry of kind "file" whose name
    ends, letter case apart, with one of .mp3, .wav, .flac, .aac, .ogg,
    .m4a, .wma, and that carries a non-empty download URL. *)
Theorem C6_candidate_iff_playable_file
    (remote : Remote) (owner repo : string)
    (rootContents : list GitHubContent)
    (catalog : list ScannedPlaylist) (warnings : list string)
    (dir : GitHubContent) (dirContents : list GitHubContent) :
  GitHubService.fetchRepositoryContents remote owner repo "" = Some rootContents ->
  GitHubService.scanRepositoryStructure remote owner repo
    = ScanReturned catalog warnings ->
  In dir rootContents -> gh_type dir = "dir" ->
  GitHubService.fetchRepositoryContents remote owner repo (gh_path dir)
    = Some dirContents ->
  (candidate catalog dir <-> exists file, In file dirContents /\ Playable file).
Proof.
  intros Hroot Hscan Hdir Htype Hlist.
  rewrite (@candidate_iff remote owner repo _ _ _ _ _ Hroot Hscan Hdir Htype Hlist),
    songsOf_nonempty.
  split.
  - intros (file & url & Hin & Haudio & Hurl & Hne). exists file.
    split; [exact Hin|]. apply (proj2 (playable_iff file)).
    split; [exact Haudio|]. now exists url.
  - intros (file & Hin & Hplay). apply (proj1 (playable_iff file)) in Hplay.
    destruct Hplay as (Haudio & url & Hurl & Hne). now exists file, url.
Qed.

Lemma C6_candidate_iff_playable_file_witness :
  (GitHubService.fetchRepositoryContents Sample.github "alice" "mymusic" ""
     = Some Sample.rockRoot /\
   GitHubService.scanRepositoryStructure Sample.github "alice" "mymusic"
     = ScanReturned [playlistOf (Sample.dir "Rock_Hits") Sample.rockHits] [] /\
   In (Sample.dir "Rock_Hits") Sample.rockRoot /\
   gh_type (Sample.dir "Rock_Hits") = "dir" /\
   GitHubService.fetchRepositoryContents Sample.github "alice" "mymusic"
     (gh_path (Sample.dir "Rock_Hits")) = Some Sample.rockHits) /\
  (candidate [playlistOf (Sample.dir "Rock_Hits") Sample.rockHits]
             (Sample.dir "Rock_Hits")
   <-> exists file, In file Sample.rockHits /\ Playable file).
Proof.
  assert (H1 : GitHubService.fetchRepositoryContents Sample.github "alice" "mymusic" ""
               = Some Sample.rockRoot) by reflexivity.
  assert (H2 : GitHubService.scanRepositoryStructure Sample.github "alice" "mymusic"
               = ScanReturned [playlistOf (Sample.dir "Rock_Hits") Sample.rockHits] [])
    by reflexivity.
  assert (H3 : In (Sample.dir "Rock_Hits") Sample.rockRoot) by (left; reflexivity).
  assert (H4 : gh_type (Sample.dir "Rock_Hits") = "dir") by reflexivity.
  assert (H5 : GitHubService.fetchRepositoryContents Sample.github "alice" "mymusic"
                 (gh_path (Sample.dir "Rock_Hits")) = Some Sample.rockHits)
    by reflexivity.
  split; [tauto|].
  exact (@C6_candidate_iff_playable_file Sample.github "alice" "mymusic"
           _ _ _ _ _ H1 H2 H3 H4 H5).
Defined.

(** C6 as stated fails: the listing of [Muted] holds the audio file
    [a.mp3], yet [Muted] is no playlist candidate, because the file has no
    download URL. *)
Lemma C6_counterexample :
  GitHubService.fetchRepositoryContents Sample.github "alice" "muted" ""
    = Some Sample.mutedRoot /\
  GitHubService.scanRepositoryStructure Sample.github "alice" "muted"
    = ScanReturned [] [] /\
  In (Sample.dir "Muted") Sample.mutedRoot /\
  GitHubService.fetchRepositoryContents Sample.github "alice" "muted" "Muted"
    = Some Sample.mutedListing /\
  (exists file, In file Sample.mutedListing /\ AudioFile file) /\
  ~ candidate [] (Sample.dir "Muted").
Proof.
  repeat split; try reflexivity.
  - now left.
  - exists (Sample.file "a.mp3" "Muted/a.mp3" None 7). split; [now left|].
    split; [reflexivity|]. exists "a", ".mp3". split; [reflexivity|]. now left.
  - intros (p & [] & _).
Qed.

(** C7.  When the root listing is fetched the scan returns, however many
    directory listings fail: its catalog holds exactly the playlists of the
    directories whose listing was fetched and holds a song, and every
    directory whose listing failed is warned about and left out. *)
Theorem C7_partial_failure_tolerated
    (remote : Remote) (owner repo : string) (rootContents : list GitHubContent) :
  GitHubService.fetchRepositoryContents remote owner repo "" = Some rootContents ->
  exists catalog warnings,
    GitHubService.scanRepositoryStructure remote owner repo
      = ScanReturned catalog warnings /\
    (forall p, In p catalog <->
       exists dir dirContents,
         In dir rootContents /\ gh_type dir = "dir" /\
         GitHubService.fetchRepositoryContents remote owner repo (gh_path dir)
           = Some dirContents /\
         GitHubService.songsOf dirContents <> [] /\
         p = playlistOf dir dirContents) /\
    (forall dir, In dir rootContents -> gh_type dir = "dir" ->
       GitHubService.fetchRepositoryContents remote owner repo (gh_path dir) = None ->
       In (gh_path dir) warnings /\ ~ candidate catalog dir).
Proof.
  intros Hroot.
  destruct (@scan_returns remote owner repo _ Hroot)
    as (catalog & warnings & Hscan & HP & HW).
  exists catalog, warnings. split; [exact Hscan|]. split; [exact HP|].
  intros dir Hdir Htype Hfail. split.
  - apply HW. exists dir. tauto.
  - intros (p & Hp & Hpath). apply HP in Hp.
    destruct Hp as (d & c & _ & _ & Hc & _ & ->). cbn in Hpath.
    rewrite Hpath in Hc. congruence.
Qed.

Lemma C7_partial_failure_tolerated_witness :
  GitHubService.fetchRepositoryContents Sample.github "alice" "mix" ""
    = Some Sample.mixRoot /\
  GitHubService.scanRepositoryStructure Sample.github "alice" "mix"
    = ScanReturned [playlistOf (Sample.dir "A") Sample.mixA;
                    playlistOf (Sample.dir "C") Sample.mixC] ["B"] /\
  exists catalog warnings,
    GitHubService.scanRepositoryStructure Sample.github "alice" "mix"
      = ScanReturned catalog warnings /\
    (forall p, In p catalog <->
       exists dir dirContents,
         In dir Sample.mixRoot /\ gh_type dir = "dir" /\
         GitHubService.fetchRepositoryContents Sample.github "alice" "mix"
           (gh_path dir) = Some dirContents /\
         GitHubService.songsOf dirContents <> [] /\
         p = playlistOf dir dirContents) /\
    (forall dir, In dir Sample.mixRoot -> gh_type dir = "dir" ->
       GitHubService.fetchRepositoryContents Sample.github "alice" "mix"
         (gh_path dir) = None ->
       In (gh_path dir) warnings /\ ~ candidate catalog dir).
Proof.
  split; [reflexivity|]. split; [reflexivity|].
  exact (@C7_partial_failure_tolerated Sample.github "alice" "mix" Sample.mixRoot
           eq_refl).
Defined.

(** C10.  A file without a download URL (absent, null or empty) adds no
    song to the list of its directory, a directory whose audio files all
    lack one is no playlist candidate, and every song of a returned
    catalog has a non-empty download URL. *)
Theorem C10_download_url_guard
    (remote : Remote) (owner repo : string)
    (catalog : list ScannedPlaylist) (warnings : list string) :
  GitHubService.scanRepositoryStructure remote owner repo
    = ScanReturned catalog warnings ->
  (forall p s, In p catalog -> In s (pl_songs p) -> downloadUrl s <> "") /\
  (forall before file after,
     download_url file = None \/ download_url file = Some "" ->
     GitHubService.songsOf (before ++ file :: after)
     = GitHubService.songsOf (before ++ after)) /\
  (forall rootContents dir dirContents,
     GitHubService.fetchRepositoryContents remote owner repo "" = Some rootContents ->
     In dir rootContents -> gh_type dir = "dir" ->
     GitHubService.fetchRepositoryContents remote owner repo (gh_path dir)
       = Some dirContents ->
     (forall file, In file dirContents -> GitHubService.isAudioFile file = true ->
                   download_url file = None \/ download_url file = Some "") ->
     ~ candidate catalog dir).
Proof.
  intros Hscan. split; [|split].
  - intros p s Hp Hs.
    destruct (@scan_inversion remote owner repo _ _ Hscan) as (root & _ & HP & _).
    apply HP in Hp. destruct Hp as (d & c & _ & _ & _ & _ & ->). cbn in Hs.
    apply songsOf_In in Hs. destruct Hs as (f & u & _ & _ & _ & Hne & ->).
    exact Hne.
  - intros before file after Hnone. unfold GitHubService.songsOf.
    rewrite !filter_app. cbn [filter].
    destruct (GitHubService.isAudioFile file); [|reflexivity].
    induction (filter GitHubService.isAudioFile before) as [|f l IH]; cbn.
    + destruct Hnone as [-> | ->]; reflexivity.
    + destruct (download_url f) as [u|]; [|exact IH].
      destruct (u =? ""); [exact IH | now rewrite IH].
  - intros root dir dirContents Hroot Hdir Htype Hlist Hnone Hcand.
    apply (@candidate_iff remote owner repo _ _ _ _ _ Hroot Hscan Hdir Htype Hlist)
      in Hcand.
    apply songsOf_nonempty in Hcand.
    destruct Hcand as (f & u & Hin & Haudio & Hurl & Hne).
    destruct (Hnone f Hin Haudio) as [H|H]; rewrite H in Hurl; congruence.
Qed.

Lemma C10_download_url_guard_witness :
  GitHubService.scanRepositoryStructure Sample.github "alice" "mymusic"
    = ScanReturned [playlistOf (Sample.dir "Rock_Hits") Sample.rockHits] [] /\
  (forall p s, In p [playlistOf (Sample.dir "Rock_Hits") Sample.rockHits] ->
               In s (pl_songs p) -> downloadUrl s <> "") /\
  (forall before file after,
     download_url file = None \/ download_url file = Some "" ->
     GitHubService.songsOf (before ++ file :: after)
     = GitHubService.songsOf (before ++ after)) /\
  (forall rootContents dir dirContents,
     GitHubService.fetchRepositoryContents Sample.github "alice" "mymusic" ""
       = Some rootContents ->
     In dir rootContents -> gh_type dir = "dir" ->
     GitHubService.fetchRepositoryContents Sample.github "alice" "mymusic"
       (gh_path dir) = Some dirContents ->
     (forall file, In file dirContents -> GitHubService.isAudioFile file = true ->
                   download_url file = None \/ download_url file = Some "") ->
     ~ candidate [playlistOf (Sample.dir "Rock_Hits") Sample.rockHits] dir).
Proof.
  split; [reflexivity|].
  exact (@C10_download_url_guard Sample.github "alice" "mymusic"
           [playlistOf (Sample.dir "Rock_Hits") Sample.rockHits] [] eq_refl).
Defined.






(* ------------------------------------------------------------------ *)
(** * The properties of the specification: import and refresh *)

Lemma hoare_run {E A} (P : Store -> Prop) (m : Op E A)
    (Q : Outcome E A -> Store -> Prop) (db : Store) :
  hoare P m Q -> P db -> Q (fst (run m db)) (snd (run m db)).
Proof.
  intros Hm Hdb. unfold run. specialize (Hm {| store := db; reads := 0 |} Hdb).
  destruct (m _) as [r w]. exact Hm.
Qed.

Lemma hasSource_kept (link : string) (op : Operation) (db : Store) :
  hasSource link db -> hasSource link (perform db op).
Proof.
  destruct (hasSource_closed link) as (Hp & Hs & Hr & Ht & Hsrc).
  apply keeps_perform; auto.
Qed.

(** C5.  When the user owns a playlist against the source resolved for a
    location that passes the URL check of the import, importing that
    location again fails with [AlreadyAdded] and leaves the store as it
    was, whatever the folders of the playlists. *)
Theorem C5_second_import_already_added
    (env : Env) (user name githubLink : string) (db : Store)
    (resolved : SourceRow) :
  AddStreamingLinkModal.githubUrlPattern (JS.trim githubLink) = true ->
  resolvedSource (JS.trim githubLink) db = Some resolved ->
  ownsPlaylistOf user (src_id resolved) db ->
  run (AddStreamingLinkModal.handleSubmit env user name githubLink) db
  = (Threw AddStreamingLinkModal.AlreadyAdded, db).
Proof.
  intros Hpat Hres (p & Hin & Hsid & Huser).
  destruct (githubUrlPattern_parses _ Hpat) as (repoInfo & Hparse).
  unfold run, AddStreamingLinkModal.handleSubmit. rewrite Hpat, Hparse. cbn [negb].
  unfold bind at 1. unfold Supabase.read at 1. cbn [store].
  assert (Hmem : In resolved (Supabase.sourcesByLinkOwnedBy (JS.trim githubLink) user db)).
  { unfold Supabase.sourcesByLinkOwnedBy. apply filter_In. split.
    - unfold resolvedSource in Hres.
      destruct (Supabase.sourcesByLink (JS.trim githubLink) db); [discriminate|].
      injection Hres as ->. now left.
    - apply existsb_exists. exists p. split; [exact Hin|].
      now rewrite Hsid, Huser, Nat.eqb_refl, String.eqb_refl. }
  destruct (Supabase.sourcesByLinkOwnedBy (JS.trim githubLink) user db);
    [destruct Hmem | reflexivity].
Qed.

Lemma C5_second_import_already_added_witness :
  (AddStreamingLinkModal.githubUrlPattern (JS.trim Sample.mymusic) = true /\
   resolvedSource (JS.trim Sample.mymusic) Sample.afterAlice
   = Some {| src_id := 0; src_name := "My Music"; drive_link := Sample.mymusic;
             created_by := "alice-id"; last_synced := 1000 |} /\
   ownsPlaylistOf "alice-id" 0 Sample.afterAlice) /\
  run (AddStreamingLinkModal.handleSubmit (Sample.session 7000) "alice-id"
         "Again" Sample.mymusic) Sample.afterAlice
  = (Threw AddStreamingLinkModal.AlreadyAdded, Sample.afterAlice).
Proof.
  assert (H1 : AddStreamingLinkModal.githubUrlPattern (JS.trim Sample.mymusic) = true)
    by reflexivity.
  assert (H2 : resolvedSource (JS.trim Sample.mymusic) Sample.afterAlice
               = Some {| src_id := 0; src_name := "My Music";
                         drive_link := Sample.mymusic;
                         created_by := "alice-id"; last_synced := 1000 |})
    by reflexivity.
  assert (H3 : ownsPlaylistOf "alice-id" 0 Sample.afterAlice).
  { exists {| plist_id := 1; user_id := "alice-id"; source_id := 0;
              plist_name := "Rock Hits"; folder_path := "Rock_Hits" |}.
    repeat split. now left. }
  split; [tauto|].
  exact (@C5_second_import_already_added (Sample.session 7000) "alice-id" "Again"
           Sample.mymusic Sample.afterAlice _ H1 H2 H3).
Defined.

(** C2, as amended.  When the scan inside an import that got past the URL
    check and the guard returns no playlist candidate, the import fails
    with [NoAudioFiles] and no playlist or song row is created or changed;
    the source was resolved before the scan, so that no source row is
    created or changed when the location had one, and a single source row
    for the location has been appended when it had none. *)
Theorem C2_no_audio_keeps_playlists_and_songs
    (env : Env) (user name githubLink : string) (db : Store)
    (repoInfo : RepoInfo) (warnings : list string) :
  AddStreamingLinkModal.githubUrlPattern (JS.trim githubLink) = true ->
  GitHubService.parseGitHubUrl (JS.trim githubLink) = Some repoInfo ->
  Supabase.sourcesByLinkOwnedBy (JS.trim githubLink) user db = [] ->
  GitHubService.scanRepositoryStructure (remote env) (owner repoInfo) (repo repoInfo)
    = ScanReturned [] warnings ->
  exists db',
    run (AddStreamingLinkModal.handleSubmit env user name githubLink) db
      = (Threw AddStreamingLinkModal.NoAudioFiles, db') /\
    playlists db' = playlists db /\
    songs db' = songs db /\
    match resolvedSource (JS.trim githubLink) db with
    | Some _ => db' = db
    | None =>
        streaming_sources db' =
        (streaming_sources db ++
           [{| src_id := next_id db; src_name := JS.trim name;
               drive_link := JS.trim githubLink; created_by := user;
               last_synced := clock env 0 |}])%list
    end.
Proof.
  intros Hpat Hparse Hguard Hscan.
  unfold run, AddStreamingLinkModal.handleSubmit. rewrite Hpat, Hparse. cbn [negb].
  unfold bind at 1. unfold Supabase.read at 1. cbn [store]. rewrite Hguard.
  cbn [List.length Nat.ltb Nat.leb].
  unfold bind at 1. unfold Supabase.read at 1. cbn [store].
  unfold resolvedSource.
  destruct (Supabase.sourcesByLink (JS.trim githubLink) db) as [|existing others].
  - unfold bind, Date_now, Supabase.insertSource, ret. cbn [store reads hd_error].
    rewrite Hscan. cbn. eexists. repeat split.
  - unfold bind at 1. unfold ret at 1. rewrite Hscan. cbn.
    exists db. repeat split.
Qed.

Lemma C2_no_audio_keeps_playlists_and_songs_witness :
  (AddStreamingLinkModal.githubUrlPattern
     (JS.trim "https://github.com/alice/silence") = true /\
   GitHubService.parseGitHubUrl (JS.trim "https://github.com/alice/silence")
   = Some {| owner := "alice"; repo := "silence" |} /\
   Supabase.sourcesByLinkOwnedBy (JS.trim "https://github.com/alice/silence")
     "bob-id" Sample.afterAlice = [] /\
   GitHubService.scanRepositoryStructure (remote (Sample.session 3000))
     "alice" "silence" = ScanReturned [] []) /\
  exists db',
    run (AddStreamingLinkModal.handleSubmit (Sample.session 3000) "bob-id" "Quiet"
           "https://github.com/alice/silence") Sample.afterAlice
      = (Threw AddStreamingLinkModal.NoAudioFiles, db') /\
    playlists db' = playlists Sample.afterAlice /\
    songs db' = songs Sample.afterAlice /\
    streaming_sources db' =
    (streaming_sources Sample.afterAlice ++
       [{| src_id := 4; src_name := "Quiet";
           drive_link := "https://github.com/alice/silence";
           created_by := "bob-id"; last_synced := 3000 |}])%list.
Proof.
  split; [repeat split|].
  exact (@C2_no_audio_keeps_playlists_and_songs (Sample.session 3000) "bob-id"
           "Quiet" "https://github.com/alice/silence" Sample.afterAlice
           {| owner := "alice"; repo := "silence" |} []
           eq_refl eq_refl eq_refl eq_refl).
Defined.

(** C2 as stated fails: the import of a repository without any playlist
    candidate, whose location has no source row yet, fails with
    [NoAudioFiles] and leaves a new source row behind. *)
Lemma C2_counterexample :
  GitHubService.scanRepositoryStructure (remote (Sample.session 3000))
    "alice" "silence" = ScanReturned [] [] /\
  run (AddStreamingLinkModal.handleSubmit (Sample.session 3000) "bob-id" "Quiet"
         "https://github.com/alice/silence") emptyStore
  = (Threw AddStreamingLinkModal.NoAudioFiles,
     {| streaming_sources :=
          [{| src_id := 0; src_name := "Quiet";
              drive_link := "https://github.com/alice/silence";
              created_by := "bob-id"; last_synced := 3000 |}];
        playlists := []; songs := []; next_id := 1 |}) /\
  snd (run (AddStreamingLinkModal.handleSubmit (Sample.session 3000) "bob-id"
              "Quiet" "https://github.com/alice/silence") emptyStore)
  <> emptyStore.
Proof. repeat split. discriminate. Qed.

(** C4, as amended.  For a scanned song whose derived link is already the
    [unique_link] of a song row in another playlist, the three paths
    differ: the bulk import moves the row to the new playlist; the refresh
    returns null and leaves the store as it was; the single import does not
    look the link up and inserts a row of its own under the link followed
    by the user and the time (nothing when that value is taken), leaving
    the row found untouched. *)
Theorem C4_policy_of_each_path
    (env : Env) (repoInfo : RepoInfo) (song : ScannedSong) (db : Store)
    (user : string) (pid created : nat) (existing : SongRow) :
  let uniqueLink :=
    GitHubService.generateUniqueLink env (owner repoInfo) (repo repoInfo)
                                     (song_path song) in
  let stored := uniqueLink ++ "_" ++ user ++ "_" ++ JS.ofNumber (clock env 0) in
  Supabase.songByLink uniqueLink db = Some existing ->
  playlist_id existing <> pid ->
  (run (AdminBulkImportModal.findOrCreateSong (E := Empty_set) env song pid repoInfo) db
   = (Returned (Some (song_id existing)),
      Supabase.repointSong (song_id existing) pid db) /\
   Supabase.songByLink uniqueLink (Supabase.repointSong (song_id existing) pid db)
   = Some (movedTo pid existing)) /\
  run (LibraryPage.findOrCreateSong pid
         {| LibraryPage.sd_title := song_name song;
            LibraryPage.sd_duration := 180;
            LibraryPage.sd_file_path := downloadUrl song;
            LibraryPage.sd_unique_link := uniqueLink |}) db
  = (Returned None, db) /\
  exists created' db',
    run (AddStreamingLinkModal.createSong env user repoInfo pid created song) db
      = (Returned created', db') /\
    Supabase.songByLink uniqueLink db' = Some existing /\
    if existsb (fun s => unique_link s =? stored) (songs db)
    then db' = db /\ created' = created
    else songs db' =
           (songs db ++
              [{| song_id := next_id db; playlist_id := pid;
                  title := song_name song; duration := 180;
                  file_path := downloadUrl song; unique_link := stored |}])%list
         /\ created' = S created.
Proof.
  intros uniqueLink stored Hfound Hother. split; [|split].
  - exact (@bulk_repoints env repoInfo song db pid existing Hfound).
  - exact (@refresh_skips env repoInfo song db pid existing _ _ _ Hfound Hother).
  - exact (@single_import_copies env repoInfo song db user pid created existing
             Hfound).
Qed.

Lemma C4_policy_of_each_path_witness :
  let existing :=
    {| song_id := 2; playlist_id := 1; title := "Song One"; duration := 180;
       file_path := "https://raw/song_one.mp3";
       unique_link := Sample.songOneLink |} in
  let env := Sample.session 5000 in
  (Supabase.songByLink Sample.songOneLink Sample.afterBulk = Some existing /\
   playlist_id existing <> 9) /\
  run (AdminBulkImportModal.findOrCreateSong (E := Empty_set) env Sample.songOne 9
         Sample.mymusicInfo) Sample.afterBulk
  = (Returned (Some 2), Supabase.repointSong 2 9 Sample.afterBulk) /\
  run (LibraryPage.findOrCreateSong 9
         {| LibraryPage.sd_title := "Song One"; LibraryPage.sd_duration := 180;
            LibraryPage.sd_file_path := "https://raw/song_one.mp3";
            LibraryPage.sd_unique_link := Sample.songOneLink |}) Sample.afterBulk
  = (Returned None, Sample.afterBulk) /\
  exists created' db',
    run (AddStreamingLinkModal.createSong env "carol-id" Sample.mymusicInfo 9 0
           Sample.songOne) Sample.afterBulk
      = (Returned created', db') /\
    Supabase.songByLink Sample.songOneLink db' = Some existing.
Proof.
  intros existing env.
  assert (H1 : Supabase.songByLink Sample.songOneLink Sample.afterBulk = Some existing)
    by reflexivity.
  assert (H2 : playlist_id existing <> 9) by (cbn; lia).
  split; [tauto|].
  destruct (@C4_policy_of_each_path env Sample.mymusicInfo Sample.songOne
              Sample.afterBulk "carol-id" 9 0 existing H1 H2)
    as ((Hbulk & _) & Hrefresh & (created' & db' & Hrun & Hsame & _)).
  split; [exact Hbulk|]. split; [exact Hrefresh|].
  exists created', db'. split; [exact Hrun | exact Hsame].
Defined.

(** C4 as stated fails: handed the song [song_one.mp3], whose link is the
    [unique_link] of a row of playlist 1, and the new playlist 9, the bulk
    import moves the row to playlist 9, the refresh leaves it in playlist 1
    and the single import leaves it there and adds a second row. *)
Lemma C4_counterexample :
  let env := Sample.session 5000 in
  let byBulk :=
    snd (run (AdminBulkImportModal.findOrCreateSong (E := Empty_set) env
                Sample.songOne 9 Sample.mymusicInfo) Sample.afterBulk) in
  let byRefresh :=
    snd (run (LibraryPage.findOrCreateSong 9
                {| LibraryPage.sd_title := "Song One";
                   LibraryPage.sd_duration := 180;
                   LibraryPage.sd_file_path := "https://raw/song_one.mp3";
                   LibraryPage.sd_unique_link := Sample.songOneLink |})
             Sample.afterBulk) in
  let bySingle :=
    snd (run (AddStreamingLinkModal.createSong env "carol-id" Sample.mymusicInfo
                9 0 Sample.songOne) Sample.afterBulk) in
  List.map (fun s => (song_id s, playlist_id s)) (songs Sample.afterBulk)
    = [(2, 1); (3, 1)] /\
  List.map (fun s => (song_id s, playlist_id s)) (songs byBulk)
    = [(2, 9); (3, 1)] /\
  List.map (fun s => (song_id s, playlist_id s)) (songs byRefresh)
    = [(2, 1); (3, 1)] /\
  List.map (fun s => (song_id s, playlist_id s)) (songs bySingle)
    = [(2, 1); (3, 1); (4, 9)] /\
  byBulk <> byRefresh /\ byBulk <> bySingle /\ byRefresh <> bySingle.
Proof.
  cbv zeta. repeat split; try reflexivity; vm_compute; discriminate.
Qed.



(** C1, as amended.  After any sequence of imports, bulk imports and
    refreshes, from a store where it holds, at most one song row carries
    any given stored [unique_link] and at most one source row any given
    location; and when two users then import the same location, which
    passes the URL check, exactly one source row carries it. *)
Theorem C1_one_row_per_stored_link (ops : list Operation) (db : Store) :
  uniqueSongLinks db -> uniqueSourceLinks db ->
  let db' := performAll ops db in
  (forall link,
     List.length (filter (fun s => unique_link s =? link) (songs db')) <= 1) /\
  (forall uri, List.length (Supabase.sourcesByLink uri db') <= 1) /\
  (forall env1 env2 user1 user2 name1 name2 githubLink,
     AddStreamingLinkModal.githubUrlPattern (JS.trim githubLink) = true ->
     List.length
       (Supabase.sourcesByLink (JS.trim githubLink)
          (performAll [Import env1 user1 name1 githubLink;
                       Import env2 user2 name2 githubLink] db')) = 1).
Proof.
  intros Hsongs Hsources db'.
  assert (Hsongs' : uniqueSongLinks db') by now apply uniqueSongLinks_kept.
  assert (Hsources' : uniqueSourceLinks db') by now apply uniqueSourceLinks_kept.
  split; [|split].
  - intros link. now apply NoDup_filter_le.
  - intros uri. unfold Supabase.sourcesByLink. now apply NoDup_filter_le.
  - intros env1 env2 user1 user2 name1 name2 githubLink Hpat.
    set (both := performAll _ db').
    assert (Hle : List.length (Supabase.sourcesByLink (JS.trim githubLink) both) <= 1).
    { unfold Supabase.sourcesByLink. apply NoDup_filter_le.
      now apply uniqueSourceLinks_kept. }
    assert (Hhas : hasSource (JS.trim githubLink) both).
    { unfold both, performAll. cbn [fold_left]. apply hasSource_kept.
      cbn [perform].
      exact (@hoare_run _ _ _ _ _ db'
               (@handleSubmit_has_source env1 user1 name1 githubLink Hpat)
               Logic.I). }
    unfold hasSource in Hhas.
    destruct (Supabase.sourcesByLink (JS.trim githubLink) both) as [|a [|b l]];
      [congruence | reflexivity | cbn in Hle; lia].
Qed.

Lemma C1_one_row_per_stored_link_witness :
  (uniqueSongLinks emptyStore /\ uniqueSourceLinks emptyStore) /\
  let db' := performAll [BulkImport (Sample.session 1000) "admin-id" [Sample.mymusic];
                         Refresh (Sample.session 5000) "carol-id" Sample.mymusicSource]
                        emptyStore in
  (forall link,
     List.length (filter (fun s => unique_link s =? link) (songs db')) <= 1) /\
  (forall uri, List.length (Supabase.sourcesByLink uri db') <= 1) /\
  (forall env1 env2 user1 user2 name1 name2 githubLink,
     AddStreamingLinkModal.githubUrlPattern (JS.trim githubLink) = true ->
     List.length
       (Supabase.sourcesByLink (JS.trim githubLink)
          (performAll [Import env1 user1 name1 githubLink;
                       Import env2 user2 name2 githubLink] db')) = 1).
Proof.
  assert (H1 : uniqueSongLinks emptyStore) by constructor.
  assert (H2 : uniqueSourceLinks emptyStore) by constructor.
  split; [tauto|].
  exact (@C1_one_row_per_stored_link
           [BulkImport (Sample.session 1000) "admin-id" [Sample.mymusic];
            Refresh (Sample.session 5000) "carol-id" Sample.mymusicSource]
           emptyStore H1 H2).
Defined.

(** C1 as stated fails: alice and bob import the same repository of two
    songs; one source row results, but four song rows, two for each
    derived link, none of which carries the derived link itself. *)
Lemma C1_counterexample :
  List.length (streaming_sources Sample.afterAliceAndBob) = 1 /\
  List.map (fun s => (playlist_id s, file_path s, unique_link s))
           (songs Sample.afterAliceAndBob)
  = [(1, "https://raw/song_one.mp3", Sample.songOneLink ++ "_alice-id_1001");
     (1, "https://raw/Song_Two.FLAC",
      GitHubService.generateUniqueLink (Sample.session 0) "alice" "mymusic"
        "Rock_Hits/Song_Two.FLAC" ++ "_alice-id_1002");
     (4, "https://raw/song_one.mp3", Sample.songOneLink ++ "_bob-id_2000");
     (4, "https://raw/Song_Two.FLAC",
      GitHubService.generateUniqueLink (Sample.session 0) "alice" "mymusic"
        "Rock_Hits/Song_Two.FLAC" ++ "_bob-id_2001")] /\
  List.length (filter (standsFor Sample.songOneLink) (songs Sample.afterAliceAndBob))
  = 2 /\
  ~ (forall link,
       List.length (filter (standsFor link) (songs Sample.afterAliceAndBob)) <= 1).
Proof.
  repeat split.
  intros H. specialize (H Sample.songOneLink). vm_compute in H. lia.
Qed.

(* ================================================================== *)
(** * Part III: further properties *)

(* ------------------------------------------------------------------ *)
(** * [btoa] is injective *)

Section Base64.

Lemma all_ascii_In (a : ascii) : In a all_ascii.
Proof.
  unfold all_ascii. rewrite <- (ascii_nat_embedding a). apply in_map.
  apply in_seq. pose proof (nat_ascii_bounded a). lia.
Qed.

Lemma forall_ascii (f : ascii -> bool) :
  forallb f all_ascii = true -> forall a, f a = true.
Proof.
  intros H a. rewrite forallb_forall in H. apply H, all_ascii_In.
Qed.

Lemma forall_ascii2 (f : ascii -> ascii -> bool) :
  forallb (fun a => forallb (f a) all_ascii) all_ascii = true ->
  forall a b, f a b = true.
Proof.
  intros H a b. apply forall_ascii. revert a. apply forall_ascii. exact H.
Qed.

Lemma b64_inj (n m : N) :
  (n < 64)%N -> (m < 64)%N -> JS.b64 n = JS.b64 m -> n = m.
Proof.
  intros Hn Hm Heq.
  assert (Hall : forallb (fun i => forallb (fun j =>
             implb (Ascii.eqb (JS.b64 (N.of_nat i)) (JS.b64 (N.of_nat j)))
                   (Nat.eqb i j)) (seq 0 64)) (seq 0 64) = true)
    by (vm_compute; reflexivity).
  rewrite forallb_forall in Hall.
  specialize (Hall (N.to_nat n)). rewrite forallb_forall in Hall.
  assert (Hi : In (N.to_nat n) (seq 0 64)) by (apply in_seq; lia).
  assert (Hj : In (N.to_nat m) (seq 0 64)) by (apply in_seq; lia).
  specialize (Hall Hi _ Hj). rewrite !N2Nat.id, Heq, Ascii.eqb_refl in Hall.
  cbn in Hall. apply Nat.eqb_eq in Hall. lia.
Qed.

Lemma b64_not_pad (n : N) : (n < 64)%N -> JS.b64 n <> "="%char.
Proof.
  intros Hn Heq.
  assert (Hall : forallb (fun i => negb (Ascii.eqb (JS.b64 (N.of_nat i)) "="))
                         (seq 0 64) = true) by (vm_compute; reflexivity).
  rewrite forallb_forall in Hall.
  assert (Hi : In (N.to_nat n) (seq 0 64)) by (apply in_seq; lia).
  specialize (Hall _ Hi). rewrite N2Nat.id, Heq in Hall. discriminate.
Qed.

Lemma sextet1_bound a : (sextet1 a < 64)%N.
Proof.
  apply N.ltb_lt. revert a. apply forall_ascii. vm_compute. reflexivity.
Qed.

Lemma sextet4_bound c : (sextet4 c < 64)%N.
Proof.
  apply N.ltb_lt. revert c. apply forall_ascii. vm_compute. reflexivity.
Qed.

Lemma sextet2_bound a b : (sextet2 a b < 64)%N.
Proof.
  apply N.ltb_lt. revert a b. apply forall_ascii2. vm_compute. reflexivity.
Qed.

Lemma sextet3_bound b c : (sextet3 b c < 64)%N.
Proof.
  apply N.ltb_lt. revert b c. apply forall_ascii2. vm_compute. reflexivity.
Qed.

Lemma sextet2_last_bound a : (sextet2_last a < 64)%N.
Proof.
  apply N.ltb_lt. revert a. apply forall_ascii. vm_compute. reflexivity.
Qed.

Lemma sextet3_last_bound b : (sextet3_last b < 64)%N.
Proof.
  apply N.ltb_lt. revert b. apply forall_ascii. vm_compute. reflexivity.
Qed.

Lemma btoa_1 a :
  JS.btoa (String a "")
  = String (JS.b64 (sextet1 a)) (String (JS.b64 (sextet2_last a)) "==").
Proof. reflexivity. Qed.

Lemma btoa_2 a b :
  JS.btoa (String a (String b ""))
  = String (JS.b64 (sextet1 a))
      (String (JS.b64 (sextet2 a b)) (String (JS.b64 (sextet3_last b)) "=")).
Proof. reflexivity. Qed.

Lemma btoa_3 a b c r :
  JS.btoa (String a (String b (String c r)))
  = String (JS.b64 (sextet1 a))
      (String (JS.b64 (sextet2 a b))
         (String (JS.b64 (sextet3 b c))
            (String (JS.b64 (sextet4 c)) (JS.btoa r)))).
Proof. reflexivity. Qed.

Lemma code_inj a a' : JS.code a = JS.code a' -> a = a'.
Proof.
  unfold JS.code. intros H.
  rewrite <- (ascii_N_embedding a), <- (ascii_N_embedding a'). now rewrite H.
Qed.

(** The code units read back from the sextets. *)
Lemma first_of_last a :
  JS.code a = (4 * sextet1 a + N.shiftr (sextet2_last a) 4)%N.
Proof.
  apply N.eqb_eq. revert a. apply forall_ascii. vm_compute. reflexivity.
Qed.

Lemma first_of_pair a b :
  JS.code a = (4 * sextet1 a + N.shiftr (sextet2 a b) 4)%N.
Proof.
  apply N.eqb_eq. revert a b. apply forall_ascii2. vm_compute. reflexivity.
Qed.

Lemma second_high a b : N.shiftr (JS.code b) 4 = N.land (sextet2 a b) 15.
Proof.
  apply N.eqb_eq. revert a b. apply forall_ascii2. vm_compute. reflexivity.
Qed.

Lemma second_low_last b : N.land (JS.code b) 15 = N.shiftr (sextet3_last b) 2.
Proof.
  apply N.eqb_eq. revert b. apply forall_ascii. vm_compute. reflexivity.
Qed.

Lemma second_low b c : N.land (JS.code b) 15 = N.shiftr (sextet3 b c) 2.
Proof.
  apply N.eqb_eq. revert b c. apply forall_ascii2. vm_compute. reflexivity.
Qed.

Lemma second_of_halves b :
  JS.code b = (16 * N.shiftr (JS.code b) 4 + N.land (JS.code b) 15)%N.
Proof.
  apply N.eqb_eq. revert b. apply forall_ascii. vm_compute. reflexivity.
Qed.

Lemma third_of_pair b c :
  JS.code c = (64 * N.land (sextet3 b c) 3 + sextet4 c)%N.
Proof.
  apply N.eqb_eq. revert b c. apply forall_ascii2. vm_compute. reflexivity.
Qed.

Lemma string_ind3 (P : string -> Prop) :
  P "" -> (forall a, P (String a "")) -> (forall a b, P (String a (String b ""))) ->
  (forall a b c r, P r -> P (String a (String b (String c r)))) ->
  forall s, P s.
Proof.
  intros H0 H1 H2 H3 s.
  assert (H : P s /\ (forall c, P (String c s)) /\ (forall b c, P (String b (String c s)))).
  { induction s as [|d s (IH0 & IH1 & IH2)].
    - auto.
    - repeat split; auto. }
  apply H.
Qed.

Lemma btoa_injective (s t : string) : JS.btoa s = JS.btoa t -> s = t.
Proof.
  revert t. induction s as [|a|a b|a b c r IH] using string_ind3;
    intros [|a' [|b' [|c' r']]]; rewrite ?btoa_1, ?btoa_2, ?btoa_3;
    try discriminate; try reflexivity; intros H.
  - (* one, one *)
    injection H as H1 H2.
    apply b64_inj in H1; auto using sextet1_bound.
    apply b64_inj in H2; auto using sextet2_last_bound.
    f_equal. apply code_inj. rewrite (first_of_last a), (first_of_last a').
    now rewrite H1, H2.
  - (* one, two *)
    injection H as _ _ H3. symmetry in H3.
    now apply b64_not_pad in H3; auto using sextet3_last_bound.
  - (* one, three or more *)
    injection H as _ _ H3 _. symmetry in H3.
    now apply b64_not_pad in H3; auto using sextet3_bound.
  - (* two, one *)
    injection H as _ _ H3.
    now apply b64_not_pad in H3; auto using sextet3_last_bound.
  - (* two, two *)
    injection H as H1 H2 H3.
    apply b64_inj in H1; auto using sextet1_bound.
    apply b64_inj in H2; auto using sextet2_bound.
    apply b64_inj in H3; auto using sextet3_last_bound.
    assert (Ha : a = a').
    { apply code_inj. rewrite (first_of_pair a b), (first_of_pair a' b').
      now rewrite H1, H2. }
    assert (Hb : b = b').
    { apply code_inj. rewrite (second_of_halves b), (second_of_halves b').
      rewrite (second_high a b), (second_high a' b').
      rewrite (second_low_last b), (second_low_last b'). now rewrite H2, H3. }
    now subst.
  - (* two, three or more *)
    injection H as _ _ _ H4 _. symmetry in H4.
    now apply b64_not_pad in H4; auto using sextet4_bound.
  - (* three or more, one *)
    injection H as _ _ H3 _.
    now apply b64_not_pad in H3; auto using sextet3_bound.
  - (* three or more, two *)
    injection H as _ _ _ H4 _.
    now apply b64_not_pad in H4; auto using sextet4_bound.
  - (* three or more, three or more *)
    injection H as H1 H2 H3 H4 Hr.
    apply b64_inj in H1; auto using sextet1_bound.
    apply b64_inj in H2; auto using sextet2_bound.
    apply b64_inj in H3; auto using sextet3_bound.
    apply b64_inj in H4; auto using sextet4_bound.
    assert (Ha : a = a').
    { apply code_inj. rewrite (first_of_pair a b), (first_of_pair a' b').
      now rewrite H1, H2. }
    assert (Hb : b = b').
    { apply code_inj. rewrite (second_of_halves b), (second_of_halves b').
      rewrite (second_high a b), (second_high a' b').
      rewrite (second_low b c), (second_low b' c'). now rewrite H2, H3. }
    assert (Hc : c = c').
    { apply code_inj. rewrite (third_of_pair b c), (third_of_pair b' c').
      now rewrite H3, H4. }
    subst. f_equal. f_equal. f_equal. now apply IH.
Qed.

End Base64.

(* ------------------------------------------------------------------ *)
(** * What [parseGitHubUrl] matches *)

Section Parse.
Import GitHubService.

Lemma append_assoc' (a b c : string) : (a ++ b) ++ c = a ++ b ++ c.
Proof. induction a; simpl; congruence. Qed.

Lemma span_spec (f : ascii -> bool) (s a b : string) :
  JS.span f s = (a, b) ->
  s = a ++ b /\ JS.forallb f a = true /\
  (b = "" \/ exists c b', b = String c b' /\ f c = false).
Proof.
  revert a b. induction s as [|c r IH]; simpl; intros a b H.
  - injection H as <- <-. auto.
  - destruct (f c) eqn:Hc.
    + destruct (JS.span f r) as [a' b'] eqn:Hspan. injection H as <- <-.
      destruct (IH _ _ eq_refl) as (-> & Hall & Hrest). simpl. rewrite Hc. auto.
    + injection H as <- <-. repeat split. right. eauto.
Qed.

Lemma span_app (f : ascii -> bool) (a tail : string) :
  JS.forallb f a = true ->
  (tail = "" \/ exists c t, tail = String c t /\ f c = false) ->
  JS.span f (a ++ tail) = (a, tail).
Proof.
  intros Ha Htail. induction a as [|c r IH]; simpl in *.
  - destruct Htail as [->|(c & t & -> & Hc)]; simpl; [reflexivity | now rewrite Hc].
  - apply andb_true_iff in Ha. destruct Ha as [Hc Hr]. rewrite Hc, (IH Hr). reflexivity.
Qed.

Lemma dropDotGit_spec (s : string) :
  (dropDotGit s = s /\ JS.endsWith s ".git" = false) \/ s = dropDotGit s ++ ".git".
Proof.
  induction s as [|c r IH].
  - left. split; reflexivity.
  - cbn [dropDotGit JS.endsWith].
    destruct (String.eqb_spec (String c r) ".git") as [Heq|Hne].
    + right. now rewrite Heq.
    + destruct IH as [[Hsame Hends]|Hcut].
      * left. cbn [orb]. now rewrite Hsame, Hends.
      * right. simpl. now rewrite <- Hcut.
Qed.

Lemma length_append (a b : string) :
  String.length (a ++ b) = String.length a + String.length b.
Proof. induction a; simpl; [reflexivity | now rewrite IHa]. Qed.

Lemma dropDotGit_app (s : string) : dropDotGit (s ++ ".git") = s.
Proof.
  induction s as [|c r IH]; [reflexivity|].
  cbn [dropDotGit append].
  destruct (String.eqb_spec (String c (r ++ ".git")) ".git") as [Heq|Hne].
  - exfalso. apply (f_equal String.length) in Heq. simpl in Heq.
    rewrite length_append in Heq. simpl in Heq. lia.
  - now rewrite IH.
Qed.

Lemma forallb_app' (f : ascii -> bool) (a b : string) :
  JS.forallb f (a ++ b) = JS.forallb f a && JS.forallb f b.
Proof. induction a; simpl; [reflexivity | now rewrite IHa, andb_assoc]. Qed.

Lemma dropDotGit_slashFree (s : string) : slashFree s -> slashFree (dropDotGit s).
Proof.
  unfold slashFree. intros Hs. destruct (dropDotGit_spec s) as [[-> _]|Hcut]; [exact Hs|].
  rewrite Hcut, forallb_app' in Hs. now apply andb_true_iff in Hs.
Qed.

Lemma matchHere_spec (s g1 g2 : string) :
  matchHere s = Some (g1, g2) ->
  exists after,
    s = "github.com/" ++ g1 ++ "/" ++ g2 ++ after /\
    g1 <> "" /\ g2 <> "" /\ slashFree g1 /\ slashFree g2 /\
    (after = "" \/ exists t, after = String "/" t).
Proof.
  unfold matchHere. intros H.
  destruct (JS.stripPrefix "github.com/" s) as [rest|] eqn:Hpre; [|discriminate].
  apply stripPrefix_Some in Hpre. subst s.
  destruct (JS.span not_slash rest) as [a b] eqn:Hspan1.
  apply span_spec in Hspan1. destruct Hspan1 as (-> & Ha & _).
  destruct a as [|c a]; [discriminate|].
  destruct b as [|slash rest']; [discriminate|].
  destruct (Ascii.eqb_spec slash "/") as [->|Hne].
  2:{ destruct slash as [[] [] [] [] [] [] [] []]; try discriminate H.
      now contradiction Hne. }
  destruct (JS.span not_slash rest') as [a2 b2] eqn:Hspan2.
  apply span_spec in Hspan2. destruct Hspan2 as (-> & Ha2 & Hb2).
  destruct a2 as [|c2 a2]; [discriminate|]. injection H as <- <-.
  exists b2. repeat split; try discriminate; auto.
  destruct Hb2 as [->|(c' & t & -> & Hc')]; [now left|]. right. exists t.
  unfold not_slash in Hc'. apply negb_false_iff, Ascii.eqb_eq in Hc'. now subst.
Qed.

Lemma matchUrl_spec (url : string) (m : string * string) :
  matchUrl url = Some m ->
  exists before rest, url = before ++ rest /\ matchHere rest = Some m.
Proof.
  induction url as [|c r IH]; cbn [matchUrl]; intros H.
  - destruct (matchHere "") eqn:Hm; [|discriminate]. injection H as <-.
    now exists "", "".
  - destruct (matchHere (String c r)) eqn:Hm.
    + injection H as <-. now exists "", (String c r).
    + destruct (IH H) as (before & rest & -> & Hrest).
      now exists (String c before), rest.
Qed.

(** What [parseGitHubUrl] returns is read off the URL. *)
Lemma parseGitHubUrl_sound (url : string) (info : RepoInfo) :
  parseGitHubUrl url = Some info ->
  exists before segment after,
    url = before ++ "github.com/" ++ owner info ++ "/" ++ segment ++ after /\
    (after = "" \/ exists t, after = String "/" t) /\
    owner info <> "" /\ slashFree (owner info) /\
    segment <> "" /\ slashFree segment /\
    repo info = dropDotGit segment /\ slashFree (repo info).
Proof.
  unfold parseGitHubUrl. intros H.
  destruct (matchUrl url) as [[g1 g2]|] eqn:Hm; [|discriminate].
  injection H as <-. cbn [owner repo].
  apply matchUrl_spec in Hm. destruct Hm as (before & rest & -> & Hhere).
  apply matchHere_spec in Hhere.
  destruct Hhere as (after & -> & Hg1 & Hg2 & Hs1 & Hs2 & Hafter).
  exists before, g2, after. repeat split; auto. now apply dropDotGit_slashFree.
Qed.

Lemma parse_after_scheme (rest : string) (m : string * string) :
  matchHere ("github.com/" ++ rest) = Some m ->
  matchUrl ("https://github.com/" ++ rest) = Some m.
Proof.
  intros H. apply matchUrl_here in H.
  now replace (matchUrl ("https://github.com/" ++ rest))
    with (matchUrl ("github.com/" ++ rest)) by reflexivity.
Qed.

(** The web address of a repository, with or without a path behind
    it, and its clone address parse to the same owner and name. *)
Lemma parseGitHubUrl_of_address (ownerName repoName : string) :
  ownerName <> "" -> repoName <> "" -> slashFree ownerName -> slashFree repoName ->
  (forall tail,
     tail = "" \/ (exists t, tail = String "/" t) ->
     parseGitHubUrl ("https://github.com/" ++ ownerName ++ "/" ++ repoName ++ tail)
     = Some {| owner := ownerName; repo := dropDotGit repoName |}) /\
  (JS.endsWith repoName ".git" = false -> dropDotGit repoName = repoName) /\
  parseGitHubUrl ("https://github.com/" ++ ownerName ++ "/" ++ repoName ++ ".git")
  = Some {| owner := ownerName; repo := repoName |}.
Proof.
  intros Ho Hr Hso Hsr.
  assert (Hgen : forall name tail,
            name <> "" -> slashFree name ->
            tail = "" \/ (exists t, tail = String "/" t) ->
            parseGitHubUrl ("https://github.com/" ++ ownerName ++ "/" ++ name ++ tail)
            = Some {| owner := ownerName; repo := dropDotGit name |}).
  { intros name tail Hn Hsn Htail. unfold parseGitHubUrl.
    rewrite (@parse_after_scheme (ownerName ++ "/" ++ name ++ tail) (ownerName, name));
      [reflexivity|].
    unfold matchHere. rewrite stripPrefix_app.
    rewrite (@span_app not_slash ownerName ("/" ++ name ++ tail) Hso)
      by (right; exists "/"%char, (name ++ tail); split; reflexivity).
    destruct ownerName as [|c o]; [congruence|]. cbn [append].
    rewrite (@span_app not_slash name tail Hsn).
    - destruct name; [congruence | reflexivity].
    - destruct Htail as [->|(t & ->)]; [now left|]. right. now exists "/"%char, t. }
  split; [|split].
  - intros tail Htail. now apply Hgen.
  - intros Hends. destruct (dropDotGit_spec repoName) as [[Hsame _]|Hcut]; [exact Hsame|].
    exfalso. assert (Ht : JS.endsWith repoName ".git" = true)
      by (apply endsWith_iff; now exists (dropDotGit repoName)).
    congruence.
  - specialize (Hgen (repoName ++ ".git") "").
    rewrite dropDotGit_app in Hgen. rewrite <- Hgen.
    + now rewrite append_nil_r.
    + destruct repoName; discriminate.
    + unfold slashFree in *. now rewrite forallb_app', Hsr.
    + now left.
Qed.

End Parse.

(* ------------------------------------------------------------------ *)
(** * Links, counts and names *)

Section Links.
Import GitHubService.

Lemma append_cancel_l (a b c : string) : a ++ b = a ++ c -> b = c.
Proof. induction a; simpl; intros H; [exact H | injection H; auto]. Qed.

Lemma slash_split (a a' r r' : string) :
  slashFree a -> slashFree a' ->
  a ++ String "/" r = a' ++ String "/" r' -> a = a' /\ r = r'.
Proof.
  unfold slashFree. revert a'. induction a as [|c a IH]; intros [|c' a'] Ha Ha' H;
    simpl in *.
  - injection H as ->. auto.
  - injection H as <- _. discriminate.
  - injection H as -> _. discriminate.
  - injection H as -> H. apply andb_true_iff in Ha, Ha'.
    destruct (IH a' (proj2 Ha) (proj2 Ha') H) as [-> ->]. auto.
Qed.

Lemma generateUniqueLink_inj env o r p o' r' p' :
  slashFree o -> slashFree r -> slashFree o' -> slashFree r' ->
  generateUniqueLink env o r p = generateUniqueLink env o' r' p' ->
  o = o' /\ r = r' /\ p = p'.
Proof.
  intros Ho Hr Ho' Hr' H. unfold generateUniqueLink in H.
  apply append_cancel_l in H. apply (@append_cancel_l "/play/") in H.
  apply btoa_injective in H.
  apply (@slash_split _ _ _ _ Ho Ho') in H. destruct H as [-> H].
  apply (@slash_split _ _ _ _ Hr Hr') in H. destruct H as [-> ->]. auto.
Qed.

End Links.

Section Counts.
Import GitHubService.

Variable remote : Remote.
Variables owner repo : string.

Lemma scanDirectories_counts (directories : list GitHubContent) :
  List.length (fst (scanDirectories remote owner repo directories))
  + List.length (snd (scanDirectories remote owner repo directories))
  <= List.length directories.
Proof.
  induction directories as [|dir rest IH]; simpl; [lia|].
  destruct (scanDirectories remote owner repo rest) as [playlists warnings].
  simpl in IH.
  destruct (fetchRepositoryContents remote owner repo (gh_path dir)) as [c|];
    [destruct (0 <? _)%nat|]; simpl; lia.
Qed.

Lemma scanDirectories_songs (directories : list GitHubContent) (p : ScannedPlaylist) :
  In p (fst (scanDirectories remote owner repo directories)) -> pl_songs p <> [].
Proof.
  intros Hp. apply scanDirectories_In in Hp.
  destruct Hp as (d & c & _ & _ & Hne & ->). exact Hne.
Qed.

End Counts.

Section Names.
Import GitHubService.

Lemma map_length (f : ascii -> ascii) (s : string) :
  String.length (JS.map f s) = String.length s.
Proof. induction s; simpl; congruence. Qed.

Lemma capitalizeFrom_length (prev : bool) (s : string) :
  String.length (capitalizeFrom prev s) = String.length s.
Proof. revert prev. induction s; intros prev; simpl; [reflexivity | now rewrite IHs]. Qed.

Lemma upper_char_facts (c : ascii) :
  JS.is_word (JS.upper_char c) = JS.is_word c /\
  JS.upper_char (JS.upper_char c) = JS.upper_char c /\
  (negb ((c =? "_")%char || (c =? "-")%char) = true ->
   negb ((JS.upper_char c =? "_")%char || (JS.upper_char c =? "-")%char) = true).
Proof.
  destruct c as [[] [] [] [] [] [] [] []]; repeat split; intros; try reflexivity;
    try assumption.
Qed.

Lemma capitalizeFrom_idem (prev : bool) (s : string) :
  capitalizeFrom prev (capitalizeFrom prev s) = capitalizeFrom prev s.
Proof.
  revert prev. induction s as [|c r IH]; intros prev; simpl; [reflexivity|].
  destruct (upper_char_facts c) as (Hw & Hu & _).
  destruct (JS.is_word c) eqn:Hc, prev; simpl; rewrite ?Hw, ?Hc, ?Hu, ?IH; simpl;
    rewrite ?Hc; reflexivity.
Qed.

Lemma cleanSeparators_free (s : string) : separatorFree (cleanSeparators s).
Proof.
  unfold separatorFree, cleanSeparators.
  induction s as [|c r IH]; simpl; [reflexivity|]. rewrite IH, andb_true_r.
  destruct c as [[] [] [] [] [] [] [] []]; reflexivity.
Qed.

Lemma cleanSeparators_id (s : string) : separatorFree s -> cleanSeparators s = s.
Proof.
  unfold separatorFree, cleanSeparators.
  induction s as [|c r IH]; simpl; [reflexivity|]. intros H.
  apply andb_true_iff in H. destruct H as [Hc Hr]. rewrite (IH Hr).
  apply negb_true_iff in Hc. now rewrite Hc.
Qed.

Lemma capitalizeFrom_free (prev : bool) (s : string) :
  separatorFree s -> separatorFree (capitalizeFrom prev s).
Proof.
  unfold separatorFree. revert prev.
  induction s as [|c r IH]; intros prev; simpl; [reflexivity|]. intros H.
  apply andb_true_iff in H. destruct H as [Hc Hr]. rewrite (IH _ Hr), andb_true_r.
  destruct (JS.is_word c && negb prev); [|exact Hc].
  now apply upper_char_facts.
Qed.

Lemma removeExtension_prefix (s : string) :
  exists cut, s = removeExtension s ++ cut.
Proof.
  induction s as [|c r (cut & IH)]; simpl.
  - now exists "".
  - destruct ((c =? ".")%char && negb (r =? "") && JS.forallb not_slash_dot r).
    + now exists (String c r).
    + exists cut. simpl. now rewrite <- IH.
Qed.

End Names.

(* ------------------------------------------------------------------ *)
(** * The addresses of a list *)

Section Extract.
Import BulkList.

Lemma matchAt_spec (s m : string) :
  matchAt s = Some m ->
  RepoAddress m /\ exists tail, s = m ++ tail /\
    (tail = "" \/ exists c t, tail = String c t /\ AddStreamingLinkModal.url_char c = false).
Proof.
  unfold matchAt. intros H.
  destruct (JS.stripPrefix "https://github.com/" s) as [rest|] eqn:Hpre; [|discriminate].
  apply stripPrefix_Some in Hpre. subst s.
  destruct (JS.span AddStreamingLinkModal.url_char rest) as [a b] eqn:Hspan1.
  apply span_spec in Hspan1. destruct Hspan1 as (-> & Ha & _).
  destruct a as [|c a]; [discriminate|].
  destruct b as [|slash rest']; [discriminate|].
  destruct (Ascii.eqb_spec slash "/") as [->|Hne].
  2:{ destruct slash as [[] [] [] [] [] [] [] []]; try discriminate H.
      now contradiction Hne. }
  destruct (JS.span AddStreamingLinkModal.url_char rest') as [a2 b2] eqn:Hspan2.
  apply span_spec in Hspan2. destruct Hspan2 as (-> & Ha2 & Hb2).
  destruct a2 as [|c2 a2]; [discriminate|]. injection H as <-. split.
  - exists (String c a), (String c2 a2). repeat split; auto; discriminate.
  - exists b2. split; [|exact Hb2].
    change ("https://github.com/" ++ (String c a ++ String "/" (String c2 a2 ++ b2))
            = ("https://github.com/" ++ String c a ++ "/" ++ String c2 a2) ++ b2).
    now rewrite !append_assoc'.
Qed.

Lemma isRepoAddress_spec (url : string) :
  isRepoAddress url = true -> RepoAddress url.
Proof.
  unfold isRepoAddress. destruct (matchAt url) as [m|] eqn:Hm; [|discriminate].
  intros Heq. apply String.eqb_eq in Heq. subst m. now apply matchAt_spec in Hm.
Qed.

Lemma url_char_not_slash (c : ascii) :
  AddStreamingLinkModal.url_char c = true ->
  (c =? "/")%char = false /\ JS.is_space c = false.
Proof. destruct c as [[] [] [] [] [] [] [] []]; split; try reflexivity; discriminate. Qed.

Lemma matchAt_address (url tail : string) :
  RepoAddress url ->
  (tail = "" \/ exists c t, tail = String c t /\ AddStreamingLinkModal.url_char c = false) ->
  matchAt (url ++ tail) = Some url.
Proof.
  intros (g1 & g2 & -> & H1 & H2 & Hc1 & Hc2) Htail. unfold matchAt.
  rewrite !append_assoc'. rewrite stripPrefix_app.
  rewrite (@span_app AddStreamingLinkModal.url_char g1 ("/" ++ g2 ++ tail) Hc1)
    by (right; exists "/"%char, (g2 ++ tail); split; reflexivity).
  destruct g1 as [|c1 g1]; [congruence|]. cbn [append].
  rewrite (@span_app AddStreamingLinkModal.url_char g2 tail Hc2 Htail).
  destruct g2; [congruence | reflexivity].
Qed.

Lemma RepoAddress_pattern (url : string) :
  RepoAddress url -> AddStreamingLinkModal.githubUrlPattern url = true.
Proof.
  intros (g1 & g2 & -> & H1 & H2 & Hc1 & Hc2).
  unfold AddStreamingLinkModal.githubUrlPattern. rewrite stripPrefix_app.
  rewrite (@span_app AddStreamingLinkModal.url_char g1 ("/" ++ g2) Hc1)
    by (right; exists "/"%char, g2; split; reflexivity).
  destruct g1 as [|c1 g1]; [congruence|]. cbn [append].
  destruct g2 as [|c2 g2]; [congruence|]. simpl in Hc2.
  now apply andb_true_iff in Hc2.
Qed.

Lemma trimEnd_keeps (s : string) (c : ascii) :
  JS.is_space c = false -> JS.trimEnd (s ++ String c "") = s ++ String c "".
Proof.
  intros Hc. induction s as [|d s IH]; simpl.
  - now rewrite Hc.
  - rewrite IH. destruct s; reflexivity.
Qed.

Lemma last_char (s : string) :
  s <> "" -> exists init c, s = init ++ String c "".
Proof.
  induction s as [|d s IH]; [congruence|]. intros _.
  destruct s as [|e s].
  - now exists "", d.
  - destruct IH as (init & c & Heq); [discriminate|].
    exists (String d init), c. simpl. now rewrite <- Heq.
Qed.

Lemma forallb_last (f : ascii -> bool) (init : string) (c : ascii) :
  JS.forallb f (init ++ String c "") = true -> f c = true.
Proof.
  rewrite forallb_app'. simpl. rewrite andb_true_r. intros H.
  now apply andb_true_iff in H.
Qed.

Lemma RepoAddress_trim (url : string) : RepoAddress url -> JS.trim url = url.
Proof.
  intros (g1 & g2 & -> & H1 & H2 & Hc1 & Hc2). unfold JS.trim.
  change (JS.trimStart ("https://github.com/" ++ g1 ++ "/" ++ g2))
    with ("https://github.com/" ++ g1 ++ "/" ++ g2).
  destruct (last_char H2) as (init & c & ->).
  apply forallb_last in Hc2. apply url_char_not_slash in Hc2.
  replace ("https://github.com/" ++ g1 ++ "/" ++ init ++ String c "")
    with (("https://github.com/" ++ g1 ++ "/" ++ init) ++ String c "")
    by now rewrite !append_assoc'.
  now apply trimEnd_keeps.
Qed.

Lemma matchAll_skip (a tail : string) :
  matchAll (String.length a) (a ++ tail) = matchAll 0 tail.
Proof. induction a; simpl; [now destruct tail | exact IHa]. Qed.

Lemma matchAll_address (url tail : string) :
  RepoAddress url ->
  (tail = "" \/ exists c t, tail = String c t /\ AddStreamingLinkModal.url_char c = false) ->
  matchAll 0 (url ++ tail) = url :: matchAll 0 tail.
Proof.
  intros Hurl Htail. pose proof (matchAt_address Hurl Htail) as Hat.
  destruct Hurl as (g1 & g2 & Heq & _).
  destruct url as [|c rest]; [rewrite Heq in *; discriminate|].
  cbn [append matchAll]. cbn [append] in Hat. rewrite Hat. f_equal.
  cbn [String.length]. rewrite Nat.sub_succ, Nat.sub_0_r. apply matchAll_skip.
Qed.

Lemma matchAll_all (skip : nat) (text : string) :
  Forall RepoAddress (matchAll skip text).
Proof.
  revert skip. induction text as [|c r IH]; intros skip; cbn [matchAll].
  - constructor.
  - destruct skip; [|apply IH].
    destruct (matchAt (String c r)) as [m|] eqn:Hm; [|apply IH].
    constructor; [|apply IH]. now apply matchAt_spec in Hm.
Qed.

Lemma addToSet_spec (urls seen : list string) :
  NoDup seen ->
  NoDup (fold_left addToSet urls seen) /\
  (forall u, In u (fold_left addToSet urls seen) <-> In u seen \/ In u urls).
Proof.
  revert seen. induction urls as [|x urls IH]; intros seen Hseen; cbn [fold_left].
  - split; [exact Hseen|]. intros u. simpl. tauto.
  - unfold addToSet at 2 4.
    destruct (existsb (String.eqb x) seen) eqn:Hex.
    + destruct (IH seen Hseen) as [Hnd Hin]. split; [exact Hnd|].
      intros u. rewrite Hin. simpl.
      apply existsb_exists in Hex. destruct Hex as (y & Hy & Heq).
      apply String.eqb_eq in Heq. subst y. split; [tauto|].
      intros [H|[<-|H]]; auto.
    + assert (Hnew : NoDup (seen ++ [x])).
      { apply NoDup_snoc; [exact Hseen|]. intros Hin.
        assert (existsb (String.eqb x) seen = true)
          by (apply existsb_exists; exists x; split; [exact Hin | apply String.eqb_refl]).
        congruence. }
      destruct (IH _ Hnew) as [Hnd Hin]. split; [exact Hnd|].
      intros u. rewrite Hin, in_app_iff. simpl. tauto.
Qed.

End Extract.

(* ------------------------------------------------------------------ *)
(** * The shape of a single import *)

Section ImportShape.
Import AddStreamingLinkModal.

Lemma songsAdded_refl pid s : songsAdded pid 0 s s.
Proof.
  repeat split; auto. exists []. rewrite app_nil_r. auto.
Qed.

Lemma songsAdded_trans pid k1 k2 s1 s2 s3 :
  songsAdded pid k1 s1 s2 -> songsAdded pid k2 s2 s3 ->
  songsAdded pid (k1 + k2) s1 s3.
Proof.
  intros (Hs1 & Hp1 & Hn1 & ng1 & Hg1 & Hl1 & Hf1)
         (Hs2 & Hp2 & Hn2 & ng2 & Hg2 & Hl2 & Hf2).
  repeat split; try congruence; try lia.
  exists (ng1 ++ ng2)%list. rewrite Hg2, Hg1, <- app_assoc, length_app.
  repeat split; auto. apply Forall_app. auto.
Qed.

Lemma createSong_adds env user repoInfo pid created song w :
  exists k w',
    createSong env user repoInfo pid created song w = (Returned (created + k), w') /\
    k <= 1 /\ songsAdded pid k (store w) (store w').
Proof.
  unfold createSong, bind, Date_now, Supabase.insertSong. cbn [store reads].
  destruct (existsb _ (songs (store w))).
  - eexists 0, _. rewrite Nat.add_0_r. split; [reflexivity|]. split; [lia|].
    apply songsAdded_refl.
  - eexists 1, _. rewrite Nat.add_1_r. split; [reflexivity|]. split; [lia|].
    unfold songsAdded. cbn. split; [reflexivity|]. split; [reflexivity|].
    split; [lia|]. eexists [_]. split; [reflexivity|]. split; [reflexivity|].
    repeat constructor.
Qed.

Lemma createSongs_add env user repoInfo pid songs created w :
  exists k w',
    foldM (createSong env user repoInfo pid) songs created w
      = (Returned (created + k), w') /\
    k <= List.length songs /\ songsAdded pid k (store w) (store w').
Proof.
  revert created w. induction songs as [|song rest IH]; intros created w; cbn [foldM].
  - exists 0, w. rewrite Nat.add_0_r. repeat split; auto. apply songsAdded_refl.
  - destruct (createSong_adds env user repoInfo pid created song w)
      as (k1 & w1 & Hrun1 & Hk1 & Hadd1).
    unfold bind. rewrite Hrun1.
    destruct (IH (created + k1) w1) as (k2 & w2 & Hrun2 & Hk2 & Hadd2).
    exists (k1 + k2), w2. rewrite Hrun2, Nat.add_assoc. split; [reflexivity|].
    split; [simpl; lia|]. eapply songsAdded_trans; eauto.
Qed.

Lemma imported_nil user sid s : imported user sid [] s s [] [].
Proof.
  unfold imported. rewrite !app_nil_r. repeat split; auto.
Qed.

Lemma createPlaylists_import env user repoInfo sid scanned report w :
  exists np ng w',
    foldM (createPlaylist env user repoInfo sid) scanned report w
      = (Returned {| totalPlaylistsCreated :=
                       totalPlaylistsCreated report + List.length np;
                     totalSongsCreated :=
                       totalSongsCreated report + List.length ng |}, w') /\
    imported user sid scanned (store w) (store w') np ng.
Proof.
  revert report w. induction scanned as [|c rest IH]; intros report w; cbn [foldM].
  - exists [], [], w. cbn. rewrite !Nat.add_0_r. destruct report.
    split; [reflexivity | apply imported_nil].
  - unfold bind at 1. unfold createPlaylist at 1.
    unfold bind at 1. unfold Supabase.insertPlaylist at 1.
    set (row := {| plist_id := next_id (store w); user_id := user; source_id := sid;
                   plist_name := pl_name c; folder_path := pl_path c |}).
    set (w1 := {| store := Supabase.withPlaylist row (store w); reads := reads w |}).
    unfold bind at 1.
    destruct (createSongs_add env user repoInfo (plist_id row) (pl_songs c)
                (totalSongsCreated report) w1)
      as (k & w2 & Hrun & Hk & (Hs & Hp & Hn & ng1 & Hg & Hlen & Hall)).
    rewrite Hrun. cbn [ret].
    destruct (IH {| totalPlaylistsCreated := S (totalPlaylistsCreated report);
                    totalSongsCreated := totalSongsCreated report + k |} w2)
      as (np & ng2 & w3 & Hrun3 & (Hs3 & Hp3 & Hg3 & Hn3 & Hrows & Hsongs)).
    exists (row :: np), (ng1 ++ ng2)%list, w3. split.
    + rewrite Hrun3. cbn [totalPlaylistsCreated totalSongsCreated List.length].
      rewrite length_app, Hlen. do 2 f_equal. f_equal; lia.
    + subst w1. cbn [store Supabase.withPlaylist playlists songs
        streaming_sources next_id] in *. unfold imported.
      rewrite Hs3, Hs, Hp3, Hp, Hg3, Hg.
      rewrite <- !app_assoc. cbn [app]. repeat split; auto; try lia.
      * constructor.
        -- cbn. repeat split; auto; lia.
        -- eapply Forall2_impl; [|exact Hrows]. cbn. intros p c' H. intuition lia.
      * apply Forall_app. split.
        -- eapply Forall_impl; [|exact Hall]. intros g Hgid. exists row.
           split; [now left | exact Hgid].
        -- eapply Forall_impl; [|exact Hsongs]. intros g (p & Hin & Hgid).
           exists p. split; [now right | exact Hgid].
Qed.

End ImportShape.

Section ImportWhole.
Import AddStreamingLinkModal.

(** The part of the import that follows the resolution of the source. *)
Lemma scan_then_create env user info sid w :
  let rest :=
    match GitHubService.scanRepositoryStructure (remote env) (owner info) (repo info) with
    | ScanThrew => throw ScanFailed
    | ScanReturned scanned _ =>
        if (List.length scanned =? 0)%nat then throw NoAudioFiles
        else foldM (createPlaylist env user info sid) scanned
               {| totalPlaylistsCreated := 0; totalSongsCreated := 0 |}
    end in
  (GitHubService.scanRepositoryStructure (remote env) (owner info) (repo info)
   = ScanThrew /\ rest w = (Threw ScanFailed, w)) \/
  (exists warnings,
     GitHubService.scanRepositoryStructure (remote env) (owner info) (repo info)
     = ScanReturned [] warnings /\ rest w = (Threw NoAudioFiles, w)) \/
  (exists scanned warnings np ng w',
     GitHubService.scanRepositoryStructure (remote env) (owner info) (repo info)
     = ScanReturned scanned warnings /\ scanned <> [] /\
     rest w = (Returned {| totalPlaylistsCreated := List.length np;
                           totalSongsCreated := List.length ng |}, w') /\
     imported user sid scanned (store w) (store w') np ng).
Proof.
  intros rest. subst rest.
  destruct (GitHubService.scanRepositoryStructure _ _ _) as [|scanned warnings].
  - left. split; reflexivity.
  - right. destruct scanned as [|c others].
    + left. exists warnings. split; reflexivity.
    + right. cbn [List.length Nat.eqb].
      destruct (createPlaylists_import env user info sid (c :: others)
                  {| totalPlaylistsCreated := 0; totalSongsCreated := 0 |} w)
        as (np & ng & w' & Hrun & Himp).
      exists (c :: others), warnings, np, ng, w'.
      split; [reflexivity|]. split; [discriminate|]. split; [exact Hrun | exact Himp].
Qed.

(** Every way a single import can end. *)
Lemma handleSubmit_cases env user name githubLink db :
  let link := JS.trim githubLink in
  let result := run (handleSubmit env user name githubLink) db in
  (githubUrlPattern link = false /\ result = (Threw InvalidUrl, db)) \/
  (githubUrlPattern link = true /\
   Supabase.sourcesByLinkOwnedBy link user db <> [] /\
   result = (Threw AlreadyAdded, db)) \/
  (exists info s1 sourceData,
     githubUrlPattern link = true /\
     GitHubService.parseGitHubUrl link = Some info /\
     Supabase.sourcesByLinkOwnedBy link user db = [] /\
     ((resolvedSource link db = Some sourceData /\ s1 = db) \/
      (Supabase.sourcesByLink link db = [] /\
       sourceData = {| src_id := next_id db; src_name := JS.trim name;
                       drive_link := link; created_by := user;
                       last_synced := clock env 0 |} /\
       s1 = Supabase.withSource sourceData db)) /\
     ((GitHubService.scanRepositoryStructure (remote env) (owner info) (repo info)
       = ScanThrew /\ result = (Threw ScanFailed, s1)) \/
      (exists warnings,
         GitHubService.scanRepositoryStructure (remote env) (owner info) (repo info)
         = ScanReturned [] warnings /\ result = (Threw NoAudioFiles, s1)) \/
      (exists scanned warnings np ng db',
         GitHubService.scanRepositoryStructure (remote env) (owner info) (repo info)
         = ScanReturned scanned warnings /\ scanned <> [] /\
         result = (Returned {| totalPlaylistsCreated := List.length np;
                               totalSongsCreated := List.length ng |}, db') /\
         imported user (src_id sourceData) scanned s1 db' np ng))).
Proof.
  intros link result.
  assert (Hres : result = run (handleSubmit env user name githubLink) db) by reflexivity.
  clearbody result. unfold run, handleSubmit in Hres. fold link in Hres.
  destruct (githubUrlPattern link) eqn:Hpat; cbn [negb] in Hres; [|now left].
  right. destruct (githubUrlPattern_parses _ Hpat) as (info & Hparse).
  rewrite Hparse in Hres. unfold bind at 1 in Hres.
  unfold Supabase.read at 1 in Hres. cbn [store] in Hres.
  destruct (Supabase.sourcesByLinkOwnedBy link user db) as [|o os] eqn:Howned.
  2:{ left. cbn in Hres. repeat split; auto. discriminate. }
  right. cbn [List.length Nat.ltb Nat.leb] in Hres.
  unfold bind at 1 in Hres. unfold Supabase.read at 1 in Hres. cbn [store] in Hres.
  unfold resolvedSource.
  assert (Htail : forall sourceData w,
    result = (let (r, w') :=
                match GitHubService.scanRepositoryStructure (remote env) (owner info) (repo info) with
                | ScanThrew => throw ScanFailed
                | ScanReturned scanned _ =>
                    if (List.length scanned =? 0)%nat then throw NoAudioFiles
                    else foldM (createPlaylist env user info (src_id sourceData)) scanned
                           {| totalPlaylistsCreated := 0; totalSongsCreated := 0 |}
                end w in (r, store w')) ->
    (GitHubService.scanRepositoryStructure (remote env) (owner info) (repo info)
       = ScanThrew /\ result = (Threw ScanFailed, store w)) \/
    (exists warnings,
       GitHubService.scanRepositoryStructure (remote env) (owner info) (repo info)
       = ScanReturned [] warnings /\ result = (Threw NoAudioFiles, store w)) \/
    (exists scanned warnings np ng db',
       GitHubService.scanRepositoryStructure (remote env) (owner info) (repo info)
       = ScanReturned scanned warnings /\ scanned <> [] /\
       result = (Returned {| totalPlaylistsCreated := List.length np;
                             totalSongsCreated := List.length ng |}, db') /\
       imported user (src_id sourceData) scanned (store w) db' np ng)).
  { intros sourceData w Heq.
    destruct (scan_then_create env user info (src_id sourceData) w)
      as [[Hscan Hrun]|[(ws & Hscan & Hrun)|(sc & ws & np & ng & w' & Hscan & Hne & Hrun & Himp)]];
      rewrite Hrun in Heq.
    - now left.
    - right. left. now exists ws.
    - right. right. now exists sc, ws, np, ng, (store w'). }
  destruct (Supabase.sourcesByLink link db) as [|existing others] eqn:Hfound.
  - unfold bind at 1 in Hres. unfold bind at 1 in Hres.
    unfold Date_now at 1 in Hres. cbn [store reads] in Hres.
    unfold bind at 1 in Hres. unfold Supabase.insertSource at 1 in Hres.
    cbn [store reads ret] in Hres.
    eexists info, _, _. split; [reflexivity|]. split; [exact Hparse|].
    split; [reflexivity|]. split.
    + right. split; [reflexivity|]. split; reflexivity.
    + exact (Htail _ _ Hres).
  - unfold bind at 1 in Hres. cbn [ret] in Hres.
    exists info, db, existing. split; [reflexivity|]. split; [exact Hparse|].
    split; [reflexivity|]. split.
    + left. cbn. auto.
    + exact (Htail _ _ Hres).
Qed.

End ImportWhole.

(* ------------------------------------------------------------------ *)
(** * The statuses of a bulk import *)

Section BulkStatuses.
Import AdminBulkImportModal.

Lemma extract_spec (text : string) :
  NoDup (BulkList.extractGitHubUrls text) /\
  Forall RepoAddress (BulkList.extractGitHubUrls text).
Proof.
  unfold BulkList.extractGitHubUrls.
  destruct (@addToSet_spec (BulkList.matchAll 0 text) [] (NoDup_nil _)) as [Hnd Hin].
  split; [exact Hnd|]. apply Forall_forall. intros u Hu. apply Hin in Hu.
  destruct Hu as [[]|Hu].
  pose proof (matchAll_all 0 text) as Hall. rewrite Forall_forall in Hall. auto.
Qed.

Lemma url_chars_slashFree (g : string) :
  JS.forallb AddStreamingLinkModal.url_char g = true -> slashFree g.
Proof.
  unfold slashFree. induction g as [|c g IH]; simpl; [reflexivity|].
  intros H. apply andb_true_iff in H. destruct H as [Hc Hg].
  rewrite (IH Hg), andb_true_r. apply url_char_not_slash in Hc.
  unfold GitHubService.not_slash. now rewrite (proj1 Hc).
Qed.

Lemma RepoAddress_parses (url : string) :
  RepoAddress url ->
  exists g1 g2,
    url = "https://github.com/" ++ g1 ++ "/" ++ g2 /\
    GitHubService.parseGitHubUrl url
    = Some {| owner := g1; repo := GitHubService.dropDotGit g2 |}.
Proof.
  intros (g1 & g2 & -> & H1 & H2 & Hc1 & Hc2). exists g1, g2. split; [reflexivity|].
  destruct (@parseGitHubUrl_of_address g1 g2 H1 H2 (url_chars_slashFree _ Hc1)
              (url_chars_slashFree _ Hc2)) as (Hweb & _).
  specialize (Hweb "" (or_introl eq_refl)). now rewrite append_nil_r in Hweb.
Qed.

Context {E : Type}.

Lemma foldM_returns {X S} (body : S -> X -> Op E S) (l : list X) :
  (forall s x w, exists s' w', body s x w = (Returned s', w')) ->
  forall s w, exists s' w', foldM body l s w = (Returned s', w').
Proof.
  intros Hbody. induction l as [|x rest IH]; intros s w; cbn [foldM].
  - now exists s, w.
  - unfold bind. destruct (Hbody s x w) as (s1 & w1 & ->). apply IH.
Qed.

Lemma bulk_findOrCreateSong_returns env song pid info w :
  exists id w', findOrCreateSong (E := E) env song pid info w = (Returned id, w').
Proof.
  unfold findOrCreateSong, bind, Supabase.read, Supabase.write, Supabase.insertSong, ret.
  destruct (Supabase.songByLink _ (store w)); [eauto|].
  destruct (existsb _ _); eauto.
Qed.

Lemma linkSong_returns env pid info count song w :
  exists count' w',
    linkSong (E := E) env pid info count song w = (Returned count', w') /\
    count' <= S count.
Proof.
  unfold linkSong. unfold bind at 1.
  destruct (bulk_findOrCreateSong_returns env song pid info w) as ([id|] & w' & ->);
    eexists _, _; (split; [reflexivity | lia]).
Qed.

Lemma linkSongs_return env pid info songs count w :
  exists count' w',
    foldM (linkSong (E := E) env pid info) songs count w = (Returned count', w').
Proof.
  apply foldM_returns. intros s x w0.
  destruct (linkSong_returns env pid info s x w0) as (c & w1 & H & _). eauto.
Qed.

Lemma bulk_createPlaylist_returns env user info sid total playlist w :
  exists total' w',
    createPlaylist (E := E) env user info sid total playlist w = (Returned total', w') /\
    total <= total' <= S total.
Proof.
  unfold createPlaylist. unfold bind at 1. unfold Supabase.insertPlaylist at 1.
  unfold bind at 1.
  destruct (linkSongs_return env (next_id (store w)) info (pl_songs playlist) 0
              {| store := Supabase.withPlaylist
                            {| plist_id := next_id (store w); user_id := user;
                               source_id := sid; plist_name := pl_name playlist;
                               folder_path := pl_path playlist |} (store w);
                 reads := reads w |}) as (n & w' & Hn).
  cbn [plist_id]. rewrite Hn.
  destruct (0 <? n)%nat; eexists _, _; (split; [reflexivity | lia]).
Qed.

Lemma bulk_createPlaylists_return env user info sid scanned total w :
  exists total' w',
    foldM (createPlaylist (E := E) env user info sid) scanned total w
    = (Returned total', w') /\
    total <= total' <= total + List.length scanned.
Proof.
  revert total w. induction scanned as [|c rest IH]; intros total w; cbn [foldM].
  - exists total, w. split; [reflexivity | simpl; lia].
  - unfold bind.
    destruct (bulk_createPlaylist_returns env user info sid total c w)
      as (t1 & w1 & -> & Ht1).
    destruct (IH t1 w1) as (t2 & w2 & -> & Ht2).
    exists t2, w2. split; [reflexivity | simpl; lia].
Qed.

(** The body of the bulk loop always ends with a status, the one read off
    the URL and the remote; a success counts at most the scanned playlists. *)
Lemma processRepository_status env user url w :
  exists status w',
    processRepository (E := E) env user url w = (Returned status, w') /\
    failureOf status = expectedFailure env url /\
    (GitHubService.parseGitHubUrl url = None -> store w' = store w).
Proof.
  unfold processRepository, expectedFailure.
  unfold bind at 1. unfold Supabase.read at 1.
  destruct (GitHubService.parseGitHubUrl url) as [info|] eqn:Hparse.
  2:{ destruct (Supabase.sourcesByLink _ _); unfold bind, ret;
        exists (StatusError InvalidUrlFormat), w; auto. }
  assert (Htail : forall sourceData w0,
    exists status w',
      match GitHubService.scanRepositoryStructure (remote env) (owner info) (repo info) with
      | ScanThrew => ret (StatusError Caught)
      | ScanReturned scanned _ =>
          if (List.length scanned =? 0)%nat then ret (StatusError NoAudioFiles)
          else total <- foldM (createPlaylist (E := E) env user info (src_id sourceData))
                          scanned 0 ;;
               ret (StatusSuccess total)
      end w0 = (Returned status, w') /\
      failureOf status
      = match GitHubService.scanRepositoryStructure (remote env) (owner info) (repo info) with
        | ScanThrew => Some Caught
        | ScanReturned [] _ => Some NoAudioFiles
        | ScanReturned (_ :: _) _ => None
        end).
  { intros sourceData w0.
    destruct (GitHubService.scanRepositoryStructure _ _ _) as [|scanned warnings].
    - now exists (StatusError Caught), w0.
    - destruct scanned as [|c rest].
      + now exists (StatusError NoAudioFiles), w0.
      + cbn [List.length Nat.eqb]. unfold bind at 1.
        destruct (bulk_createPlaylists_return env user info (src_id sourceData)
                    (c :: rest) 0 w0) as (t & w1 & -> & _).
        now exists (StatusSuccess t), w1. }
  destruct (Supabase.sourcesByLink _ _) as [|existing others].
  - unfold bind at 1. unfold bind at 1. unfold Date_now at 1.
    unfold bind at 1. unfold Supabase.insertSource at 1. cbn [ret].
    edestruct Htail as (st & w' & -> & Hst).
    exists st, w'. split; [reflexivity|]. split; [exact Hst | discriminate].
  - unfold bind at 1. cbn [ret].
    edestruct Htail as (st & w' & -> & Hst).
    exists st, w'. split; [reflexivity|]. split; [exact Hst | discriminate].
Qed.

Lemma processAll_from env user urls results w :
  exists statuses w',
    foldM (fun results url =>
             status <- processRepository (E := E) env user url ;;
             ret (results ++ [status])%list) urls results w
    = (Returned (results ++ statuses)%list, w') /\
    Forall2 (fun url status => failureOf status = expectedFailure env url)
            urls statuses.
Proof.
  revert results w. induction urls as [|url rest IH]; intros results w; cbn [foldM].
  - exists [], w. rewrite app_nil_r. split; [reflexivity | constructor].
  - unfold bind at 1. unfold bind at 1.
    destruct (processRepository_status env user url w) as (st & w1 & -> & Hst & _).
    cbn [ret].
    destruct (IH (results ++ [st])%list w1) as (sts & w2 & -> & Hall).
    exists (st :: sts), w2. rewrite <- app_assoc. split; [reflexivity|].
    now constructor.
Qed.

End BulkStatuses.

Section BulkWhole.
Import AdminBulkImportModal.

Lemma expectedFailure_address env url :
  RepoAddress url -> expectedFailure env url <> Some InvalidUrlFormat.
Proof.
  intros Hurl. destruct (RepoAddress_parses Hurl) as (g1 & g2 & _ & Hparse).
  unfold expectedFailure. rewrite Hparse.
  destruct (GitHubService.scanRepositoryStructure _ _ _) as [|[|c rest] ws];
    discriminate.
Qed.

Lemma Forall2_length' {A B} (R : A -> B -> Prop) l l' :
  Forall2 R l l' -> List.length l = List.length l'.
Proof. induction 1; simpl; congruence. Qed.

Lemma Forall2_combine_In {A B} (R : A -> B -> Prop) l l' a b :
  Forall2 R l l' -> In (a, b) (List.combine l l') -> R a b.
Proof.
  induction 1 as [|x y l l' Hxy _ IH]; simpl; [intros []|].
  intros [Heq|Hin]; [injection Heq as <- <-; exact Hxy | auto].
Qed.

Lemma map_fst_combine {A B} (l : list A) (l' : list B) :
  List.length l = List.length l' -> List.map fst (List.combine l l') = l.
Proof.
  revert l'. induction l as [|a l IH]; intros [|b l']; simpl; try discriminate; auto.
  intros H. f_equal. apply IH. lia.
Qed.

End BulkWhole.

(* ------------------------------------------------------------------ *)
(** * The bulk import links every song *)

Section BulkLinks.
Import AdminBulkImportModal.
Context {E : Type}.







End BulkLinks.

(* ------------------------------------------------------------------ *)
(** * The shape of a refresh *)

Section RefreshShape.
Import LibraryPage.

Lemma refresh_addSong_adds env info pid count song w :
  exists k j w',
    addSong env info pid count song w = (Returned (count + k), w') /\
    j <= k <= 1 /\ songsAdded pid j (store w) (store w') /\ reads w' = reads w.
Proof.
  unfold addSong, catch. unfold bind at 1. unfold findOrCreateSong at 1.
  unfold bind at 1. unfold Supabase.read at 1.
  cbn [sd_unique_link sd_title sd_duration sd_file_path].
  destruct (Supabase.songByLink _ (store w)) as [existing|].
  - destruct (playlist_id existing =? pid)%nat; cbn [ret].
    + exists 1, 0, w. rewrite Nat.add_1_r. split; [reflexivity|].
      split; [lia|]. split; [apply songsAdded_refl | reflexivity].
    + exists 0, 0, w. rewrite Nat.add_0_r. split; [reflexivity|].
      split; [lia|]. split; [apply songsAdded_refl | reflexivity].
  - unfold bind, Supabase.insertSong.
    destruct (existsb _ (songs (store w))); cbn [ret throw].
    + exists 0, 0, w. rewrite Nat.add_0_r. split; [reflexivity|].
      split; [lia|]. split; [apply songsAdded_refl | reflexivity].
    + eexists 1, 1, _. rewrite Nat.add_1_r. split; [reflexivity|].
      split; [lia|]. split; [|reflexivity].
      unfold songsAdded. cbn. split; [reflexivity|]. split; [reflexivity|].
      split; [lia|]. eexists [_]. split; [reflexivity|]. split; [reflexivity|].
      repeat constructor.
Qed.

Lemma refresh_addSongs_add env info pid songs count w :
  exists k j w',
    foldM (addSong env info pid) songs count w = (Returned (count + k), w') /\
    j <= k <= List.length songs /\
    songsAdded pid j (store w) (store w') /\ reads w' = reads w.
Proof.
  revert count w. induction songs as [|song rest IH]; intros count w; cbn [foldM].
  - exists 0, 0, w. rewrite Nat.add_0_r. repeat split; auto. apply songsAdded_refl.
  - destruct (refresh_addSong_adds env info pid count song w)
      as (k1 & j1 & w1 & Hrun1 & Hk1 & Hadd1 & Hr1).
    unfold bind. rewrite Hrun1.
    destruct (IH (count + k1) w1) as (k2 & j2 & w2 & Hrun2 & Hk2 & Hadd2 & Hr2).
    exists (k1 + k2), (j1 + j2), w2. rewrite Hrun2, Nat.add_assoc.
    split; [reflexivity|]. split; [simpl; lia|].
    split; [eapply songsAdded_trans; eauto | congruence].
Qed.

Lemma refresh_addPlaylists_add env user info sid delta count w :
  exists m np ng w',
    foldM (addPlaylist env user info sid) delta count w = (Returned (count + m), w') /\
    List.length ng <= m <= songCount delta /\
    imported user sid delta (store w) (store w') np ng /\
    reads w' = reads w.
Proof.
  revert count w. induction delta as [|c rest IH]; intros count w; cbn [foldM].
  - exists 0, [], [], w. rewrite Nat.add_0_r. split; [reflexivity|].
    split; [simpl; lia|]. split; [apply imported_nil | reflexivity].
  - unfold bind at 1. unfold addPlaylist at 1.
    unfold bind at 1. unfold Supabase.insertPlaylist at 1.
    set (row := {| plist_id := next_id (store w); user_id := user; source_id := sid;
                   plist_name := pl_name c; folder_path := pl_path c |}).
    set (w1 := {| store := Supabase.withPlaylist row (store w); reads := reads w |}).
    destruct (refresh_addSongs_add env info (plist_id row) (pl_songs c) count w1)
      as (k & j & w2 & Hrun & Hk & (Hs & Hp & Hn & ng1 & Hg & Hlen & Hall) & Hr).
    rewrite Hrun.
    destruct (IH (count + k) w2)
      as (m & np & ng2 & w3 & Hrun3 & Hm & (Hs3 & Hp3 & Hg3 & Hn3 & Hrows & Hsongs) & Hr3).
    exists (k + m), (row :: np), (ng1 ++ ng2)%list, w3. split.
    + rewrite Hrun3. now rewrite Nat.add_assoc.
    + split.
      { rewrite length_app, Hlen. unfold songCount in *. simpl. lia. }
      split; [|subst w1; cbn in Hr; congruence].
      subst w1. cbn [store Supabase.withPlaylist playlists songs
        streaming_sources next_id] in *. unfold imported.
      rewrite Hs3, Hs, Hp3, Hp, Hg3, Hg.
      rewrite <- !app_assoc. cbn [app]. repeat split; auto; try lia.
      * constructor.
        -- cbn. repeat split; auto; lia.
        -- eapply Forall2_impl; [|exact Hrows]. cbn. intros p c' H. intuition lia.
      * apply Forall_app. split.
        -- eapply Forall_impl; [|exact Hall]. intros g Hgid. exists row.
           split; [now left | exact Hgid].
        -- eapply Forall_impl; [|exact Hsongs]. intros g (p & Hin & Hgid).
           exists p. split; [now right | exact Hgid].
Qed.

(** Every way a refresh can end. *)
Lemma handleRefreshSource_cases env user source db :
  let result := run (handleRefreshSource env user source) db in
  (GitHubService.parseGitHubUrl (drive_link source) = None /\
   result = (Threw InvalidRepositoryUrl, db)) \/
  (exists info,
     GitHubService.parseGitHubUrl (drive_link source) = Some info /\
     ((GitHubService.scanRepositoryStructure (remote env) (owner info) (repo info)
       = ScanThrew /\ result = (Threw ScanFailed, db)) \/
      (exists scanned warnings,
         GitHubService.scanRepositoryStructure (remote env) (owner info) (repo info)
         = ScanReturned scanned warnings /\
         ((newFolders (src_id source) user scanned db = [] /\
           result = (Returned NoNewPlaylists, db)) \/
          (newFolders (src_id source) user scanned db <> [] /\
           exists added np ng db1,
             result = (Returned (Added (List.length
                                          (newFolders (src_id source) user scanned db))
                                       added),
                       Supabase.touchSource (src_id source) (clock env 0) db1) /\
             List.length ng <= added <= songCount (newFolders (src_id source) user scanned db) /\
             imported user (src_id source)
                      (newFolders (src_id source) user scanned db) db db1 np ng))))).
Proof.
  intros result.
  assert (Hres : result = run (handleRefreshSource env user source) db) by reflexivity.
  clearbody result. unfold run, handleRefreshSource in Hres.
  destruct (GitHubService.parseGitHubUrl (drive_link source)) as [info|];
    [right; exists info; split; [reflexivity|] | now left].
  destruct (GitHubService.scanRepositoryStructure _ _ _) as [|scanned warnings];
    [now left | right].
  exists scanned, warnings. split; [reflexivity|].
  unfold bind at 1 in Hres. unfold Supabase.read at 1 in Hres. cbn [store] in Hres.
  fold (newFolders (src_id source) user scanned db) in Hres.
  destruct (newFolders (src_id source) user scanned db) as [|c rest] eqn:Hdelta.
  - left. split; [reflexivity | exact Hres].
  - right. split; [discriminate|]. rewrite <- Hdelta in *.
    replace (List.length (newFolders (src_id source) user scanned db) =? 0)%nat
      with false in Hres by (rewrite Hdelta; reflexivity).
    unfold bind at 1 in Hres.
    destruct (refresh_addPlaylists_add env user info (src_id source)
                (newFolders (src_id source) user scanned db) 0
                {| store := db; reads := 0 |})
      as (m & np & ng & w' & Hrun & Hm & Himp & Hreads).
    rewrite Hrun in Hres. cbn [Nat.add] in Hres.
    unfold bind, Date_now, Supabase.write, ret in Hres. cbn [store reads] in Hres.
    rewrite Hreads in Hres. cbn [reads] in Hres.
    exists m, np, ng, (store w'). split; [exact Hres|]. split; [exact Hm | exact Himp].
Qed.

Lemma newFolders_In sid user scanned db p :
  In p (newFolders sid user scanned db) <->
  In p scanned /\ ~ hasFolder sid user (pl_path p) db.
Proof.
  unfold newFolders. rewrite filter_In, negb_true_iff, <- hasFolder_existing.
  split; intros [Hin H]; split; auto.
  - now rewrite H.
  - now destruct (existsb _ _).
Qed.

End RefreshShape.

(* ------------------------------------------------------------------ *)
(** * Counts, lists of addresses and the history of rows *)

Section ScanCounts.
Import GitHubService.

Lemma scanRepositoryStructure_counts remote owner repo catalog warnings :
  scanRepositoryStructure remote owner repo = ScanReturned catalog warnings ->
  exists rootContents,
    fetchRepositoryContents remote owner repo "" = Some rootContents /\
    List.length catalog + List.length warnings
    <= List.length (filter (fun item => gh_type item =? "dir") rootContents) /\
    Forall (fun p => pl_songs p <> []) catalog.
Proof.
  unfold scanRepositoryStructure.
  destruct (fetchRepositoryContents remote owner repo "") as [rootContents|];
    [|discriminate].
  set (directories := filter _ rootContents).
  pose proof (scanDirectories_counts remote owner repo directories) as Hcount.
  pose proof (@scanDirectories_songs remote owner repo directories) as Hsongs.
  destruct (scanDirectories remote owner repo directories) as [ps ws].
  intros H. injection H as <- <-. exists rootContents. split; [reflexivity|].
  split; [exact Hcount|]. apply Forall_forall. exact Hsongs.
Qed.

End ScanCounts.

Section Lines.
Import BulkList.

Lemma matchAll_newline (rest : string) :
  matchAll 0 (newline ++ rest) = matchAll 0 rest.
Proof. reflexivity. Qed.

Lemma matchAll_lines (urls : list string) :
  Forall RepoAddress urls -> matchAll 0 (String.concat newline urls) = urls.
Proof.
  induction 1 as [|url rest Hurl Hrest IH]; [reflexivity|].
  destruct rest as [|next rest].
  - cbn [String.concat].
    pose proof (@matchAll_address url "" Hurl (or_introl eq_refl)) as H.
    rewrite append_nil_r in H. exact H.
  - change (String.concat newline (url :: next :: rest))
      with (url ++ newline ++ String.concat newline (next :: rest)).
    rewrite (@matchAll_address url (newline ++ String.concat newline (next :: rest)) Hurl).
    + now rewrite matchAll_newline, IH.
    + right. eexists _, _. split; reflexivity.
Qed.

Lemma addToSet_NoDup (urls seen : list string) :
  NoDup (seen ++ urls)%list -> fold_left addToSet urls seen = (seen ++ urls)%list.
Proof.
  revert seen. induction urls as [|u urls IH]; intros seen Hnd; cbn [fold_left].
  - now rewrite app_nil_r.
  - unfold addToSet at 2.
    assert (Hfree : existsb (String.eqb u) seen = false).
    { destruct (existsb (String.eqb u) seen) eqn:Hex; [|reflexivity].
      apply existsb_exists in Hex. destruct Hex as (x & Hx & Heq).
      apply String.eqb_eq in Heq. subst x.
      apply NoDup_remove_2 in Hnd. exfalso. apply Hnd. apply in_app_iff. now left. }
    rewrite Hfree. rewrite IH; rewrite <- app_assoc; [reflexivity | exact Hnd].
Qed.

End Lines.

Section BulkCount.
Import AdminBulkImportModal.
Context {E : Type}.


End BulkCount.

Section History.

Lemma untimed_touch id now db :
  List.map untimed (streaming_sources (Supabase.touchSource id now db))
  = List.map untimed (streaming_sources db).
Proof.
  unfold Supabase.touchSource. cbn [streaming_sources]. rewrite map_map.
  apply map_ext. intros s. now destruct (src_id s =? id)%nat.
Qed.

Lemma movedTo_repoint id pid db :
  List.map (movedTo 0) (songs (Supabase.repointSong id pid db))
  = List.map (movedTo 0) (songs db).
Proof.
  unfold Supabase.repointSong. cbn [songs]. rewrite map_map.
  apply map_ext. intros s. now destruct (song_id s =? id)%nat.
Qed.

Lemma playlists_grow (ops : list Operation) (db : Store) :
  exists np, playlists (performAll ops db) = (playlists db ++ np)%list.
Proof.
  apply keeps_performAll with (I := fun s => exists np, playlists s = (playlists db ++ np)%list);
    auto.
  - intros row s (np & Hs). exists (np ++ [row])%list. cbn. now rewrite Hs, app_assoc.
  - exists []. now rewrite app_nil_r.
Qed.

Lemma songs_stay (ops : list Operation) (db : Store) :
  exists ng, List.map (movedTo 0) (songs (performAll ops db))
             = (List.map (movedTo 0) (songs db) ++ ng)%list.
Proof.
  apply keeps_performAll
    with (I := fun s => exists ng, List.map (movedTo 0) (songs s)
                                   = (List.map (movedTo 0) (songs db) ++ ng)%list);
    auto.
  - intros row s (ng & Hs) _. exists (ng ++ [movedTo 0 row])%list. cbn.
    now rewrite map_app, Hs, app_assoc.
  - intros id pid s (ng & Hs). exists ng. now rewrite movedTo_repoint.
  - exists []. now rewrite app_nil_r.
Qed.

Lemma sources_stay (ops : list Operation) (db : Store) :
  exists ns, List.map untimed (streaming_sources (performAll ops db))
             = (List.map untimed (streaming_sources db) ++ ns)%list.
Proof.
  apply keeps_performAll
    with (I := fun s => exists ns, List.map untimed (streaming_sources s)
                                   = (List.map untimed (streaming_sources db) ++ ns)%list);
    auto.
  - intros id now s (ns & Hs). exists ns. now rewrite untimed_touch.
  - intros row s (ns & Hs) _. exists (ns ++ [untimed row])%list. cbn.
    now rewrite map_app, Hs, app_assoc.
  - exists []. now rewrite app_nil_r.
Qed.

End History.

Section Isolation.

Lemma imported_length user sid scanned s s' np ng :
  imported user sid scanned s s' np ng -> List.length np = List.length scanned.
Proof.
  intros (_ & _ & _ & _ & Hrows & _). eapply Forall2_length'. exact Hrows.
Qed.

End Isolation.

(* ------------------------------------------------------------------ *)
(** * Further properties: addresses and links *)

(** X1: what [parseGitHubUrl] returns is read off the URL.  The URL holds
    [github.com/], the owner, a slash and a segment that ends the URL or is
    followed by a slash; the owner and the segment are not empty and hold
    no slash, and the repository is the segment without a final [.git]. *)
Theorem X1_parse_reads_the_address (url : string) (info : RepoInfo) :
  GitHubService.parseGitHubUrl url = Some info ->
  exists before segment after,
    url = before ++ "github.com/" ++ owner info ++ "/" ++ segment ++ after /\
    (after = "" \/ exists t, after = String "/" t) /\
    owner info <> "" /\ slashFree (owner info) /\
    segment <> "" /\ slashFree segment /\
    repo info = GitHubService.dropDotGit segment /\ slashFree (repo info).
Proof. apply parseGitHubUrl_sound. Qed.

Lemma X1_parse_reads_the_address_witness :
  GitHubService.parseGitHubUrl "https://github.com/alice/mymusic.git/tree/main"
  = Some Sample.mymusicInfo /\
  exists before segment after,
    "https://github.com/alice/mymusic.git/tree/main"
    = before ++ "github.com/" ++ "alice" ++ "/" ++ segment ++ after /\
    (after = "" \/ exists t, after = String "/" t) /\
    "alice" <> "" /\ slashFree "alice" /\
    segment <> "" /\ slashFree segment /\
    "mymusic" = GitHubService.dropDotGit segment /\ slashFree "mymusic".
Proof.
  split; [reflexivity|].
  exact (@X1_parse_reads_the_address
           "https://github.com/alice/mymusic.git/tree/main" Sample.mymusicInfo eq_refl).
Defined.

(** X2: the web address of a repository, the address of a page inside it
    and its clone address, the one ending in [.git], parse to the same
    owner and repository. *)
Theorem X2_web_and_clone_address (ownerName repoName path : string) :
  ownerName <> "" -> repoName <> "" -> slashFree ownerName -> slashFree repoName ->
  JS.endsWith repoName ".git" = false ->
  let info := Some {| owner := ownerName; repo := repoName |} in
  GitHubService.parseGitHubUrl ("https://github.com/" ++ ownerName ++ "/" ++ repoName) = info /\
  GitHubService.parseGitHubUrl
    ("https://github.com/" ++ ownerName ++ "/" ++ repoName ++ "/" ++ path) = info /\
  GitHubService.parseGitHubUrl
    ("https://github.com/" ++ ownerName ++ "/" ++ repoName ++ ".git") = info.
Proof.
  intros Ho Hr Hso Hsr Hgit info.
  destruct (@parseGitHubUrl_of_address ownerName repoName Ho Hr Hso Hsr) as (Hweb & Hdrop & Hclone).
  pose proof (Hweb "" (or_introl eq_refl)) as H1. rewrite append_nil_r in H1.
  pose proof (Hweb ("/" ++ path) (or_intror (ex_intro _ path eq_refl))) as H2.
  rewrite (Hdrop Hgit) in H1, H2. auto.
Qed.

Lemma X2_web_and_clone_address_witness :
  ("alice" <> "" /\ "mymusic" <> "" /\ slashFree "alice" /\ slashFree "mymusic" /\
   JS.endsWith "mymusic" ".git" = false) /\
  GitHubService.parseGitHubUrl "https://github.com/alice/mymusic"
  = Some Sample.mymusicInfo /\
  GitHubService.parseGitHubUrl "https://github.com/alice/mymusic/tree/main"
  = Some Sample.mymusicInfo /\
  GitHubService.parseGitHubUrl "https://github.com/alice/mymusic.git"
  = Some Sample.mymusicInfo.
Proof.
  split; [repeat split; discriminate|].
  exact (@X2_web_and_clone_address "alice" "mymusic" "tree/main"
           ltac:(discriminate) ltac:(discriminate) eq_refl eq_refl eq_refl).
Defined.

(** X3: the unique link tells songs apart.  Two links derived, in one
    environment, from parsed repository addresses and file paths are equal
    only when the owners, the repositories and the paths are. *)
Theorem X3_unique_link_injective (env : Env) (url url' : string)
    (info info' : RepoInfo) (path path' : string) :
  GitHubService.parseGitHubUrl url = Some info ->
  GitHubService.parseGitHubUrl url' = Some info' ->
  GitHubService.generateUniqueLink env (owner info) (repo info) path
  = GitHubService.generateUniqueLink env (owner info') (repo info') path' ->
  info = info' /\ path = path'.
Proof.
  intros H H' Hlink.
  apply parseGitHubUrl_sound in H, H'.
  destruct H as (_ & _ & _ & _ & _ & _ & Ho & _ & _ & _ & Hr).
  destruct H' as (_ & _ & _ & _ & _ & _ & Ho' & _ & _ & _ & Hr').
  destruct (@generateUniqueLink_inj env _ _ _ _ _ _ Ho Hr Ho' Hr' Hlink) as (Heo & Her & Hp).
  destruct info, info'. cbn in *. subst. auto.
Qed.

Lemma X3_unique_link_injective_witness :
  (GitHubService.parseGitHubUrl Sample.mymusic = Some Sample.mymusicInfo /\
   GitHubService.parseGitHubUrl "https://github.com/alice/mymusic.git"
   = Some Sample.mymusicInfo /\
   GitHubService.generateUniqueLink (Sample.session 0) "alice" "mymusic"
     "Rock_Hits/song_one.mp3" = Sample.songOneLink) /\
  Sample.mymusicInfo = Sample.mymusicInfo /\
  "Rock_Hits/song_one.mp3" = "Rock_Hits/song_one.mp3".
Proof.
  split; [repeat split|].
  exact (@X3_unique_link_injective (Sample.session 0) Sample.mymusic
           "https://github.com/alice/mymusic.git" Sample.mymusicInfo Sample.mymusicInfo
           "Rock_Hits/song_one.mp3" "Rock_Hits/song_one.mp3" eq_refl eq_refl eq_refl).
Defined.

(* ------------------------------------------------------------------ *)
(** * Further properties: the scanner and the display names *)

(** X4: a scan that returns fetched the root listing; its playlists and
    its warnings together are at most the directories of that listing, and
    every playlist of the catalog has a song. *)
Theorem X4_catalog_bounded (remote : Remote) (owner repo : string)
    (catalog : list ScannedPlaylist) (warnings : list string) :
  GitHubService.scanRepositoryStructure remote owner repo
  = ScanReturned catalog warnings ->
  exists rootContents,
    GitHubService.fetchRepositoryContents remote owner repo "" = Some rootContents /\
    List.length catalog + List.length warnings
    <= List.length (filter (fun item => gh_type item =? "dir") rootContents) /\
    Forall (fun p => pl_songs p <> []) catalog.
Proof. apply scanRepositoryStructure_counts. Qed.

Lemma X4_catalog_bounded_witness :
  GitHubService.scanRepositoryStructure Sample.github "alice" "mix"
  = ScanReturned [playlistOf (Sample.dir "A") Sample.mixA;
                  playlistOf (Sample.dir "C") Sample.mixC] ["B"] /\
  exists rootContents,
    GitHubService.fetchRepositoryContents Sample.github "alice" "mix" ""
    = Some rootContents /\
    2 + 1 <= List.length (filter (fun item => gh_type item =? "dir") rootContents) /\
    Forall (fun p => pl_songs p <> [])
           [playlistOf (Sample.dir "A") Sample.mixA;
            playlistOf (Sample.dir "C") Sample.mixC].
Proof.
  split; [reflexivity|].
  exact (@X4_catalog_bounded Sample.github "alice" "mix"
           [playlistOf (Sample.dir "A") Sample.mixA;
            playlistOf (Sample.dir "C") Sample.mixC] ["B"] eq_refl).
Defined.

(** X5: the display name of a playlist is as long as the directory name,
    holds no underscore and no hyphen, and formatting it again changes
    nothing. *)
Theorem X5_playlist_name_shape (dirname : string) :
  String.length (GitHubService.formatPlaylistName dirname) = String.length dirname /\
  separatorFree (GitHubService.formatPlaylistName dirname) /\
  GitHubService.formatPlaylistName (GitHubService.formatPlaylistName dirname)
  = GitHubService.formatPlaylistName dirname.
Proof.
  unfold GitHubService.formatPlaylistName, GitHubService.capitalizeWords.
  assert (Hfree : separatorFree
                    (GitHubService.capitalizeFrom false
                       (GitHubService.cleanSeparators dirname)))
    by apply capitalizeFrom_free, cleanSeparators_free.
  split; [|split; [exact Hfree|]].
  - rewrite capitalizeFrom_length. apply map_length.
  - rewrite (cleanSeparators_id Hfree). apply capitalizeFrom_idem.
Qed.

(** X6: the title of a song holds no underscore and no hyphen and is never
    longer than the file name. *)
Theorem X6_song_title_shape (filename : string) :
  separatorFree (GitHubService.extractSongTitle filename) /\
  String.length (GitHubService.extractSongTitle filename) <= String.length filename.
Proof.
  unfold GitHubService.extractSongTitle, GitHubService.capitalizeWords.
  split; [apply capitalizeFrom_free, cleanSeparators_free|].
  rewrite capitalizeFrom_length. unfold GitHubService.cleanSeparators.
  rewrite map_length.
  destruct (removeExtension_prefix filename) as (cut & Hcut).
  rewrite Hcut at 2. rewrite length_append. lia.
Qed.

(* ------------------------------------------------------------------ *)
(** * Further properties: the bulk import *)

(** X7: the URLs extracted from a list are pairwise distinct, and each
    passes the URL check of the single import, is left as it is by [trim],
    parses to the owner and the repository written in it, and is named
    owner/repository. *)
Theorem X7_extracted_urls_importable (text : string) :
  NoDup (BulkList.extractGitHubUrls text) /\
  Forall (fun url =>
            AddStreamingLinkModal.githubUrlPattern url = true /\
            JS.trim url = url /\
            exists g1 g2,
              url = "https://github.com/" ++ g1 ++ "/" ++ g2 /\
              GitHubService.parseGitHubUrl url
              = Some {| owner := g1; repo := GitHubService.dropDotGit g2 |} /\
              AdminBulkImportModal.generateSourceName url
              = g1 ++ "/" ++ GitHubService.dropDotGit g2)
         (BulkList.extractGitHubUrls text).
Proof.
  destruct (extract_spec text) as [Hnd Hall]. split; [exact Hnd|].
  eapply Forall_impl; [|exact Hall]. intros url Hurl.
  split; [now apply RepoAddress_pattern|]. split; [now apply RepoAddress_trim|].
  destruct (RepoAddress_parses Hurl) as (g1 & g2 & Heq & Hparse).
  exists g1, g2. split; [exact Heq|]. split; [exact Hparse|].
  unfold AdminBulkImportModal.generateSourceName. now rewrite Hparse.
Qed.

(** X8: from a list that holds one repository address a line, no address
    twice, the extraction yields these addresses in their order. *)
Theorem X8_list_of_addresses (urls : list string) :
  forallb BulkList.isRepoAddress urls = true -> NoDup urls ->
  BulkList.extractGitHubUrls (String.concat newline urls) = urls.
Proof.
  intros Hall Hnd. unfold BulkList.extractGitHubUrls.
  rewrite matchAll_lines.
  - now apply addToSet_NoDup.
  - apply Forall_forall. intros url Hin. rewrite forallb_forall in Hall.
    now apply isRepoAddress_spec, Hall.
Qed.

Lemma X8_list_of_addresses_witness :
  (forallb BulkList.isRepoAddress
     ["https://github.com/alice/mymusic"; "https://github.com/alice/mix"] = true /\
   NoDup ["https://github.com/alice/mymusic"; "https://github.com/alice/mix"]) /\
  BulkList.extractGitHubUrls
    (String.concat newline
       ["https://github.com/alice/mymusic"; "https://github.com/alice/mix"])
  = ["https://github.com/alice/mymusic"; "https://github.com/alice/mix"].
Proof.
  assert (Hnd : NoDup ["https://github.com/alice/mymusic"; "https://github.com/alice/mix"]).
  { repeat constructor; simpl; intuition discriminate. }
  split; [split; [reflexivity | exact Hnd]|].
  exact (@X8_list_of_addresses
           ["https://github.com/alice/mymusic"; "https://github.com/alice/mix"]
           eq_refl Hnd).
Defined.


(** X10: the bulk import as a whole.  Without the list it fails and
    writes nothing, and so it does when the list holds no repository
    address; otherwise it returns one result for each extracted URL, in
    order, named owner/repository, and none of them reports an invalid
    URL format. *)
Theorem X10_bulk_submit (env : Env) (user : string) (response : option string)
    (db : Store) :
  match response with
  | None =>
      run (BulkSubmit.handleSubmit env user response) db
      = (Threw BulkSubmit.FetchFailed, db)
  | Some text =>
      (BulkList.extractGitHubUrls text = [] /\
       run (BulkSubmit.handleSubmit env user response) db
       = (Threw BulkSubmit.NoUrlsFound, db)) \/
      (exists results db',
         run (BulkSubmit.handleSubmit env user response) db = (Returned results, db') /\
         List.map (fun r => fst (fst r)) results = BulkList.extractGitHubUrls text /\
         Forall (fun r =>
                   snd (fst r) = AdminBulkImportModal.generateSourceName (fst (fst r)) /\
                   snd (fst r) <> "Unknown Repository" /\
                   snd r <> AdminBulkImportModal.StatusError
                              AdminBulkImportModal.InvalidUrlFormat)
                results)
  end.
Proof.
  destruct response as [text|]; [|reflexivity].
  unfold run, BulkSubmit.handleSubmit.
  destruct (BulkList.extractGitHubUrls text) as [|u us] eqn:Hurls; [now left | right].
  rewrite <- Hurls.
  replace (List.length (BulkList.extractGitHubUrls text) =? 0)%nat with false
    by (rewrite Hurls; reflexivity).
  unfold bind at 1. unfold AdminBulkImportModal.processAll.
  destruct (@processAll_from BulkSubmit.SubmitError env user
              (BulkList.extractGitHubUrls text) [] {| store := db; reads := 0 |})
    as (statuses & w' & Hrun & Hall).
  rewrite Hrun. cbn [app ret].
  eexists _, (store w'). split; [reflexivity|].
  pose proof (Forall2_length' Hall) as Hlen.
  split.
  - rewrite map_map. cbn [fst]. now apply map_fst_combine.
  - destruct (extract_spec text) as [_ Haddr].
    apply Forall_forall. intros r Hr. apply in_map_iff in Hr.
    destruct Hr as ([url st] & <- & Hin). cbn [fst snd].
    pose proof (in_combine_l _ _ _ _ Hin) as Hurl.
    rewrite Forall_forall in Haddr. specialize (Haddr url Hurl).
    split; [reflexivity|]. split.
    + destruct (RepoAddress_parses Haddr) as (g1 & g2 & _ & Hparse).
      unfold AdminBulkImportModal.generateSourceName. rewrite Hparse. cbn [owner repo].
      intros Heq.
      assert (Hslash : JS.forallb GitHubService.not_slash
                         (g1 ++ "/" ++ GitHubService.dropDotGit g2) = false).
      { rewrite forallb_app'. cbn. apply andb_false_r. }
      rewrite Heq in Hslash. discriminate Hslash.
    + intros ->. apply (expectedFailure_address env) in Haddr. apply Haddr.
      pose proof (@Forall2_combine_In _ _ _ _ _ _ _ Hall Hin) as Hst.
      cbn in Hst. now rewrite <- Hst.
Qed.





(* ------------------------------------------------------------------ *)
(** * Properties of the store kept by the operations of one user

    As in the section before, with the insert of a playlist restricted to
    the rows owned by the user the operation runs for. *)

Section ClosedFor.

Variable user : string.
Variable I : Store -> Prop.

Hypothesis I_playlist :
  forall row s, user_id row = user -> I s -> I (Supabase.withPlaylist row s).
Hypothesis I_song : forall row s, I s -> I (Supabase.withSong row s).
Hypothesis I_repoint : forall id pid s, I s -> I (Supabase.repointSong id pid s).
Hypothesis I_touch : forall id now s, I s -> I (Supabase.touchSource id now s).
Hypothesis I_source : forall row s, I s -> I (Supabase.withSource row s).

Ltac keep :=
  first
    [ apply hoare_ret; now auto
    | apply hoare_throw; now auto
    | apply hoare_read; now auto
    | apply hoare_Date_now; now auto
    | apply hoare_write; intros; now auto
    | apply hoare_insertPlaylist; intros; apply I_playlist; [reflexivity | assumption]
    | apply hoare_insertSource; intros; now auto
    | apply hoare_insertSong; intros; now auto ].

Ltac next := apply keeps_bind; [keep | intros ?].

Lemma own_handleSubmit env name githubLink :
  keeps I (AddStreamingLinkModal.handleSubmit env user name githubLink).
Proof.
  unfold AddStreamingLinkModal.handleSubmit.
  destruct (negb _); [keep|].
  destruct (GitHubService.parseGitHubUrl _) as [repoInfo|]; [|keep].
  next. destruct (0 <? _)%nat; [keep|]. next.
  apply keeps_bind.
  - destruct a0 as [|existing others]; [|keep].
    next. next. destruct a1; keep.
  - intros sourceData.
    destruct (GitHubService.scanRepositoryStructure _ _ _) as [|scanned warnings];
      [keep|].
    destruct (_ =? 0)%nat; [keep|].
    apply keeps_foldM. intros report playlist _.
    unfold AddStreamingLinkModal.createPlaylist. next.
    destruct a1 as [playlistData|]; [|keep].
    apply keeps_bind; [|intros; keep].
    apply keeps_foldM. intros created song _.
    unfold AddStreamingLinkModal.createSong. next. next. destruct a2; keep.
Qed.

Lemma own_processAll {E} env githubUrls :
  keeps (E := E) I (AdminBulkImportModal.processAll env user githubUrls).
Proof.
  unfold AdminBulkImportModal.processAll. apply keeps_foldM. intros results url _.
  apply keeps_bind; [|intros; keep].
  unfold AdminBulkImportModal.processRepository. next.
  apply keeps_bind.
  - destruct a as [|existing others]; [|keep].
    destruct (GitHubService.parseGitHubUrl url); [|keep].
    next. next. destruct a0; keep.
  - intros [status|sourceData]; [keep|].
    destruct (GitHubService.parseGitHubUrl url) as [repoInfo|]; [|keep].
    destruct (GitHubService.scanRepositoryStructure _ _ _) as [|scanned warnings];
      [keep|].
    destruct (_ =? 0)%nat; [keep|].
    apply keeps_bind; [|intros; keep].
    apply keeps_foldM. intros total playlist _.
    unfold AdminBulkImportModal.createPlaylist. next.
    destruct a0 as [playlistData|]; [|keep].
    apply keeps_bind.
    + apply keeps_foldM. intros count song _.
      unfold AdminBulkImportModal.linkSong. apply keeps_bind.
      * unfold AdminBulkImportModal.findOrCreateSong. next.
        destruct a0 as [existing|]; [next; keep|]. next. destruct a0; keep.
      * intros [id|]; keep.
    + intros n. destruct (0 <? n)%nat; keep.
Qed.

Lemma own_handleRefreshSource env source :
  keeps I (LibraryPage.handleRefreshSource env user source).
Proof.
  unfold LibraryPage.handleRefreshSource.
  destruct (GitHubService.parseGitHubUrl _) as [repoInfo|]; [|keep].
  destruct (GitHubService.scanRepositoryStructure _ _ _) as [|scanned warnings];
    [keep|].
  next. destruct (_ =? 0)%nat; [keep|].
  apply keeps_bind; [|intros count; next; next; keep].
  apply keeps_foldM. intros count playlist _.
  unfold LibraryPage.addPlaylist. next.
  destruct a0 as [playlistData|]; [|keep].
  apply keeps_foldM. intros added song _.
  unfold LibraryPage.addSong. apply keeps_catch; [|intros; keep].
  apply keeps_bind; [|intros [row|]; keep].
  unfold LibraryPage.findOrCreateSong. next.
  destruct a0 as [existing|].
  - destruct (_ =? _)%nat; keep.
  - next. destruct a0; keep.
Qed.

Lemma own_perform (op : Operation) (db : Store) :
  actor op = user -> I db -> I (perform db op).
Proof.
  destruct op; cbn [actor perform]; intros ->; apply keeps_run.
  - apply own_handleSubmit.
  - apply own_processAll.
  - apply own_handleRefreshSource.
Qed.

End ClosedFor.

Section Others.

Lemma others_playlists_kept (other : string) (op : Operation) (db : Store) :
  actor op <> other ->
  playlistsOfUser other (perform db op) = playlistsOfUser other db.
Proof.
  intros Hne.
  apply (@own_perform (actor op)
           (fun s => playlistsOfUser other s = playlistsOfUser other db)); auto.
  intros row s Hrow Hs. unfold playlistsOfUser in *. cbn [playlists Supabase.withPlaylist].
  rewrite filter_app, Hs. cbn [filter]. rewrite Hrow.
  apply String.eqb_neq in Hne. rewrite Hne. apply app_nil_r.
Qed.

End Others.

(* ------------------------------------------------------------------ *)
(** * Further properties: the single import *)


(** What a single import that returns has written. *)
Lemma handleSubmit_returned (env : Env) (user name githubLink : string)
    (db db' : Store) (report : AddStreamingLinkModal.ImportReport) :
  run (AddStreamingLinkModal.handleSubmit env user name githubLink) db
  = (Returned report, db') ->
  exists info scanned warnings src ns np ng,
    GitHubService.parseGitHubUrl (JS.trim githubLink) = Some info /\
    GitHubService.scanRepositoryStructure (remote env) (owner info) (repo info)
    = ScanReturned scanned warnings /\
    streaming_sources db' = (streaming_sources db ++ ns)%list /\
    List.length ns <= 1 /\
    In src (streaming_sources db') /\ drive_link src = JS.trim githubLink /\
    playlists db' = (playlists db ++ np)%list /\
    songs db' = (songs db ++ ng)%list /\
    AddStreamingLinkModal.totalPlaylistsCreated report = List.length scanned /\
    AddStreamingLinkModal.totalSongsCreated report = List.length ng /\
    Forall2 (fun p c => user_id p = user /\ source_id p = src_id src /\
                        plist_name p = pl_name c /\ folder_path p = pl_path c)
            np scanned /\
    Forall (fun g => exists p, In p np /\ playlist_id g = plist_id p) ng.
Proof.
  intros Hrun.
  destruct (handleSubmit_cases env user name githubLink db)
    as [[_ H]|[(_ & _ & H)|(info & s1 & src & _ & Hparse & _ & Hsrc & Hend)]];
    [congruence | congruence |].
  destruct Hend as [[_ H]|[(ws & _ & H)|(sc & ws & np & ng & db1 & Hscan & _ & H & Himp)]];
    [congruence | congruence |].
  rewrite Hrun in H. injection H as -> <-.
  pose proof (imported_length Himp) as Hlen.
  destruct Himp as (Hss & Hp & Hg & _ & Hrows & Hsongs).
  assert (Hs1 : playlists s1 = playlists db /\ songs s1 = songs db /\
                (exists ns, streaming_sources s1 = (streaming_sources db ++ ns)%list /\
                            List.length ns <= 1) /\
                In src (streaming_sources s1) /\
                drive_link src = JS.trim githubLink).
  { destruct Hsrc as [[Hres ->]|(_ & -> & ->)].
    - repeat split.
      + exists []. rewrite app_nil_r. split; [reflexivity | simpl; lia].
      + unfold resolvedSource, Supabase.sourcesByLink in Hres.
        destruct (filter _ (streaming_sources db)) as [|r rs] eqn:Hf; [discriminate|].
        injection Hres as ->.
        assert (Hin : In src (filter (fun s => drive_link s =? JS.trim githubLink)
                                     (streaming_sources db))) by (rewrite Hf; now left).
        now apply filter_In in Hin.
      + unfold resolvedSource, Supabase.sourcesByLink in Hres.
        destruct (filter _ (streaming_sources db)) as [|r rs] eqn:Hf; [discriminate|].
        injection Hres as ->.
        assert (Hin : In src (filter (fun s => drive_link s =? JS.trim githubLink)
                                     (streaming_sources db))) by (rewrite Hf; now left).
        apply filter_In in Hin. now apply String.eqb_eq.
    - split; [reflexivity|]. split; [reflexivity|]. split; [|split].
      + eexists [_]. split; [reflexivity | simpl; lia].
      + cbn. apply in_app_iff. right. now left.
      + reflexivity. }
  destruct Hs1 as (Hp1 & Hg1 & (ns & Hns & Hnslen) & Hin & Hlink).
  exists info, sc, ws, src, ns, np, ng.
  split; [exact Hparse|]. split; [exact Hscan|].
  split; [congruence|]. split; [exact Hnslen|].
  split; [now rewrite Hss|]. split; [exact Hlink|].
  split; [congruence|]. split; [congruence|].
  split; [exact Hlen|]. split; [reflexivity|].
  split; [|exact Hsongs].
  eapply Forall2_impl; [|exact Hrows]. cbn. tauto.
Qed.

(** X14: what a completed single import reports is what it wrote.  The
    playlist rows appended are one for each playlist of the catalog, in
    order, with its name and folder, owned by the user against one source
    row that carries the trimmed link; the song rows appended sit in these
    playlists; the report counts exactly these rows; every row that was
    there is untouched. *)
Theorem X14_import_report_exact (env : Env) (user name githubLink : string)
    (db db' : Store) (report : AddStreamingLinkModal.ImportReport) :
  run (AddStreamingLinkModal.handleSubmit env user name githubLink) db
  = (Returned report, db') ->
  exists info scanned warnings src ns np ng,
    GitHubService.parseGitHubUrl (JS.trim githubLink) = Some info /\
    GitHubService.scanRepositoryStructure (remote env) (owner info) (repo info)
    = ScanReturned scanned warnings /\
    streaming_sources db' = (streaming_sources db ++ ns)%list /\
    List.length ns <= 1 /\
    In src (streaming_sources db') /\ drive_link src = JS.trim githubLink /\
    playlists db' = (playlists db ++ np)%list /\
    songs db' = (songs db ++ ng)%list /\
    AddStreamingLinkModal.totalPlaylistsCreated report = List.length scanned /\
    AddStreamingLinkModal.totalSongsCreated report = List.length ng /\
    Forall2 (fun p c => user_id p = user /\ source_id p = src_id src /\
                        plist_name p = pl_name c /\ folder_path p = pl_path c)
            np scanned /\
    Forall (fun g => exists p, In p np /\ playlist_id g = plist_id p) ng.
Proof. apply handleSubmit_returned. Qed.

Lemma X14_import_report_exact_witness :
  run (AddStreamingLinkModal.handleSubmit (Sample.session 1000) "alice-id" "My Music"
         Sample.mymusic) emptyStore
  = (Returned {| AddStreamingLinkModal.totalPlaylistsCreated := 1;
                 AddStreamingLinkModal.totalSongsCreated := 2 |}, Sample.afterAlice) /\
  exists info scanned warnings src ns np ng,
    GitHubService.parseGitHubUrl (JS.trim Sample.mymusic) = Some info /\
    GitHubService.scanRepositoryStructure (remote (Sample.session 1000))
      (owner info) (repo info) = ScanReturned scanned warnings /\
    streaming_sources Sample.afterAlice = (streaming_sources emptyStore ++ ns)%list /\
    List.length ns <= 1 /\
    In src (streaming_sources Sample.afterAlice) /\
    drive_link src = JS.trim Sample.mymusic /\
    playlists Sample.afterAlice = (playlists emptyStore ++ np)%list /\
    songs Sample.afterAlice = (songs emptyStore ++ ng)%list /\
    1 = List.length scanned /\
    2 = List.length ng /\
    Forall2 (fun p c => user_id p = "alice-id" /\ source_id p = src_id src /\
                        plist_name p = pl_name c /\ folder_path p = pl_path c)
            np scanned /\
    Forall (fun g => exists p, In p np /\ playlist_id g = plist_id p) ng.
Proof.
  assert (Hrun : run (AddStreamingLinkModal.handleSubmit (Sample.session 1000)
                        "alice-id" "My Music" Sample.mymusic) emptyStore
                 = (Returned {| AddStreamingLinkModal.totalPlaylistsCreated := 1;
                                AddStreamingLinkModal.totalSongsCreated := 2 |},
                    Sample.afterAlice)) by (vm_compute; reflexivity).
  split; [exact Hrun|].
  exact (@X14_import_report_exact (Sample.session 1000) "alice-id" "My Music"
           Sample.mymusic emptyStore Sample.afterAlice _ Hrun).
Defined.

(** X15: no operation touches the playlists of a user it does not run
    for.  After any sequence of imports, bulk imports and refreshes none
    of which runs for [other], the playlists of [other] are the rows they
    were, in their order. *)
Theorem X15_other_users_playlists_kept (other : string) (ops : list Operation)
    (db : Store) :
  Forall (fun op => actor op <> other) ops ->
  playlistsOfUser other (performAll ops db) = playlistsOfUser other db.
Proof.
  unfold performAll. intros Hall. revert db.
  induction Hall as [|op ops Hop _ IH]; intros db; cbn [fold_left]; [reflexivity|].
  rewrite IH. now apply others_playlists_kept.
Qed.

Lemma X15_other_users_playlists_kept_witness :
  Forall (fun op => actor op <> "alice-id")
         [Import (Sample.session 2000) "bob-id" "Her Music" Sample.mymusic;
          BulkImport (Sample.session 3000) "admin-id" [Sample.mymusic];
          Refresh (Sample.session 5000) "carol-id" Sample.mymusicSource] /\
  playlistsOfUser "alice-id"
    (performAll [Import (Sample.session 2000) "bob-id" "Her Music" Sample.mymusic;
                 BulkImport (Sample.session 3000) "admin-id" [Sample.mymusic];
                 Refresh (Sample.session 5000) "carol-id" Sample.mymusicSource]
                Sample.afterAlice)
  = playlistsOfUser "alice-id" Sample.afterAlice.
Proof.
  assert (Hall : Forall (fun op => actor op <> "alice-id")
            [Import (Sample.session 2000) "bob-id" "Her Music" Sample.mymusic;
             BulkImport (Sample.session 3000) "admin-id" [Sample.mymusic];
             Refresh (Sample.session 5000) "carol-id" Sample.mymusicSource])
    by (repeat constructor; discriminate).
  split; [exact Hall|].
  exact (@X15_other_users_playlists_kept "alice-id" _ Sample.afterAlice Hall).
Defined.

(* ------------------------------------------------------------------ *)
(** * Further properties: the refresh *)


(** X17: what a refresh that adds playlists wrote.  The playlists it
    reports are the scanned playlists for whose folder the user had no
    playlist of the source; one playlist row was appended for each, in
    order, owned by the user against the source; the song rows appended
    sit in these playlists and are at most the songs it reports, which are
    at most the songs scanned in them; every playlist and song row that
    was there is untouched; and the source rows are those of a store in
    which only [last_synced] of the source was set, to the first reading
    of the clock. *)
Theorem X17_refresh_added (env : Env) (user : string) (source : SourceRow)
    (db db' : Store) (newPlaylists addedSongs : nat) :
  run (LibraryPage.handleRefreshSource env user source) db
  = (Returned (LibraryPage.Added newPlaylists addedSongs), db') ->
  exists info scanned warnings np ng,
    GitHubService.parseGitHubUrl (drive_link source) = Some info /\
    GitHubService.scanRepositoryStructure (remote env) (owner info) (repo info)
    = ScanReturned scanned warnings /\
    newPlaylists = List.length (newFolders (src_id source) user scanned db) /\
    List.length ng <= addedSongs /\
    addedSongs <= songCount (newFolders (src_id source) user scanned db) /\
    streaming_sources db'
    = streaming_sources (Supabase.touchSource (src_id source) (clock env 0) db) /\
    playlists db' = (playlists db ++ np)%list /\
    songs db' = (songs db ++ ng)%list /\
    Forall2 (fun p c => user_id p = user /\ source_id p = src_id source /\
                        plist_name p = pl_name c /\ folder_path p = pl_path c)
            np (newFolders (src_id source) user scanned db) /\
    Forall (fun g => exists p, In p np /\ playlist_id g = plist_id p) ng.
Proof.
  intros Hrun.
  destruct (handleRefreshSource_cases env user source db)
    as [[_ H]|(info & Hparse & [[_ H]|(sc & ws & Hscan & [[_ H]|(Hne & m & np & ng & db1 & H & Hm & Himp)])])];
    try congruence.
  rewrite Hrun in H. injection H as -> -> ->.
  destruct Himp as (Hss & Hp & Hg & _ & Hrows & Hsongs).
  exists info, sc, ws, np, ng.
  split; [exact Hparse|]. split; [exact Hscan|]. split; [reflexivity|].
  split; [lia|]. split; [lia|].
  split; [unfold Supabase.touchSource; cbn [streaming_sources]; now rewrite Hss|].
  split; [exact Hp|]. split; [exact Hg|]. split; [|exact Hsongs].
  eapply Forall2_impl; [|exact Hrows]. cbn. tauto.
Qed.

Lemma X17_refresh_added_witness :
  run (LibraryPage.handleRefreshSource (Sample.session 5000) "carol-id"
         Sample.mymusicSource) Sample.afterBulk
  = (Returned (LibraryPage.Added 1 0), Sample.afterRefresh) /\
  exists info scanned warnings np ng,
    GitHubService.parseGitHubUrl (drive_link Sample.mymusicSource) = Some info /\
    GitHubService.scanRepositoryStructure (remote (Sample.session 5000))
      (owner info) (repo info) = ScanReturned scanned warnings /\
    1 = List.length (newFolders (src_id Sample.mymusicSource) "carol-id" scanned
                       Sample.afterBulk) /\
    List.length ng <= 0 /\
    0 <= songCount (newFolders (src_id Sample.mymusicSource) "carol-id" scanned
                      Sample.afterBulk) /\
    streaming_sources Sample.afterRefresh
    = streaming_sources
        (Supabase.touchSource (src_id Sample.mymusicSource)
           (clock (Sample.session 5000) 0) Sample.afterBulk) /\
    playlists Sample.afterRefresh = (playlists Sample.afterBulk ++ np)%list /\
    songs Sample.afterRefresh = (songs Sample.afterBulk ++ ng)%list /\
    Forall2 (fun p c => user_id p = "carol-id" /\
                        source_id p = src_id Sample.mymusicSource /\
                        plist_name p = pl_name c /\ folder_path p = pl_path c)
            np (newFolders (src_id Sample.mymusicSource) "carol-id" scanned
                  Sample.afterBulk) /\
    Forall (fun g => exists p, In p np /\ playlist_id g = plist_id p) ng.
Proof.
  assert (Hrun : run (LibraryPage.handleRefreshSource (Sample.session 5000) "carol-id"
                        Sample.mymusicSource) Sample.afterBulk
                 = (Returned (LibraryPage.Added 1 0), Sample.afterRefresh))
    by (vm_compute; reflexivity).
  split; [exact Hrun|].
  exact (@X17_refresh_added (Sample.session 5000) "carol-id" Sample.mymusicSource
           Sample.afterBulk Sample.afterRefresh 1 0 Hrun).
Defined.

(* ------------------------------------------------------------------ *)
(** * Further properties: any sequence of operations *)

(** X18: imports, bulk imports and refreshes delete nothing and rewrite
    little.  After any sequence of them the playlist rows that were there
    are there unchanged, in place; so are the song rows but for their
    playlist, and the source rows but for [last_synced]; new rows come
    after them. *)
Theorem X18_rows_are_never_deleted (ops : list Operation) (db : Store) :
  (exists np, playlists (performAll ops db) = (playlists db ++ np)%list) /\
  (exists ng, List.map (movedTo 0) (songs (performAll ops db))
              = (List.map (movedTo 0) (songs db) ++ ng)%list) /\
  (exists ns, List.map untimed (streaming_sources (performAll ops db))
              = (List.map untimed (streaming_sources db) ++ ns)%list).
Proof.
  split; [apply playlists_grow|]. split; [apply songs_stay | apply sources_stay].
Qed.

(* ------------------------------------------------------------------ *)
(** * Further properties: the library page and the source list *)

(** X19: deleting a playlist.  A declined confirmation changes nothing.
    A confirmed deletion removes the playlist rows of that id owned by
    the user and no other playlist row, removes no source, removes only
    songs of that playlist id, leaves none of them when the user owned the
    playlist, and leaves every remaining song in a remaining playlist if
    every song was in one. *)
Theorem X19_delete_playlist (user : string) (pid : nat) (db : Store) :
  run (LibraryTools.handleDeletePlaylist (E := Empty_set) false user pid) db
  = (Returned tt, db) /\
  exists db',
    run (LibraryTools.handleDeletePlaylist (E := Empty_set) true user pid) db
    = (Returned tt, db') /\
    streaming_sources db' = streaming_sources db /\
    (forall p, In p (playlists db') <->
               In p (playlists db) /\ ~ (plist_id p = pid /\ user_id p = user)) /\
    (forall g, In g (songs db') -> In g (songs db)) /\
    (forall g, In g (songs db) -> playlist_id g <> pid -> In g (songs db')) /\
    ((exists p, In p (playlists db) /\ plist_id p = pid /\ user_id p = user) ->
     forall g, In g (songs db') -> playlist_id g <> pid) /\
    (songsHavePlaylists db -> songsHavePlaylists db').
Proof.
  split; [reflexivity|].
  exists (LibraryTools.deletePlaylist pid user db). split; [reflexivity|].
  split; [reflexivity|].
  assert (Hdoomed : forall p, (plist_id p =? pid)%nat && (user_id p =? user) = true
                              <-> plist_id p = pid /\ user_id p = user).
  { intros p. now rewrite andb_true_iff, Nat.eqb_eq, String.eqb_eq. }
  assert (Hp : forall p, In p (playlists (LibraryTools.deletePlaylist pid user db)) <->
                         In p (playlists db) /\ ~ (plist_id p = pid /\ user_id p = user)).
  { intros p. cbn. rewrite filter_In, negb_true_iff, <- Hdoomed.
    now destruct (_ && _). }
  assert (Hg : forall g, In g (songs (LibraryTools.deletePlaylist pid user db)) <->
                         In g (songs db) /\
                         ~ exists p, In p (playlists db) /\
                                     (plist_id p = pid /\ user_id p = user) /\
                                     plist_id p = playlist_id g).
  { intros g. cbn. rewrite filter_In, negb_true_iff. split; intros [Hin Hno]; split; auto.
    - intros (p & Hpin & Hd & Hid).
      assert (existsb (fun p => (plist_id p =? playlist_id g)%nat)
                (filter (fun p => (plist_id p =? pid)%nat && (user_id p =? user))
                        (playlists db)) = true); [|congruence].
      apply existsb_exists. exists p. split; [|now apply Nat.eqb_eq].
      apply filter_In. split; [exact Hpin | now apply Hdoomed].
    - destruct (existsb _ _) eqn:Hex; [|reflexivity]. exfalso. apply Hno.
      apply existsb_exists in Hex. destruct Hex as (p & Hpin & Hid).
      apply filter_In in Hpin. destruct Hpin as [Hpin Hd].
      exists p. split; [exact Hpin|]. split; [now apply Hdoomed | now apply Nat.eqb_eq]. }
  split; [exact Hp|]. split; [intros g Hin; now apply Hg|]. split.
  { intros g Hin Hne. apply Hg. split; [exact Hin|].
    intros (p & _ & [Hid _] & Heq). congruence. }
  split.
  { intros (p & Hpin & Hid & Hu) g Hin Heq. apply Hg in Hin. destruct Hin as [_ Hno].
    apply Hno. exists p. repeat split; auto. congruence. }
  intros Hint g Hin. apply Hg in Hin. destruct Hin as [Hin Hno].
  destruct (Hint g Hin) as (p & Hpin & Hid). exists p. split; [|exact Hid].
  apply Hp. split; [exact Hpin|]. intros Hd. apply Hno. now exists p.
Qed.

(** X20: the age of a source is told by the milliseconds since its last
    refresh: 'Just now' below one hour, and for a date in the future; the
    whole hours, from 1 to 23, below one day; the whole days, from 1 to 6,
    below seven days; the date from seven days on. *)
Theorem X20_time_ago_thresholds (now date : Z) :
  let diff := (now - date)%Z in
  (LibraryTools.formatTimeAgo now date = LibraryTools.JustNow <-> (diff < hour)%Z) /\
  (forall h, LibraryTools.formatTimeAgo now date = LibraryTools.HoursAgo h <->
             (hour <= diff < day /\ h = diff / hour)%Z) /\
  (forall d, LibraryTools.formatTimeAgo now date = LibraryTools.DaysAgo d <->
             (day <= diff < 7 * day /\ d = diff / day)%Z) /\
  (forall t, LibraryTools.formatTimeAgo now date = LibraryTools.OnDate t <->
             (7 * day <= diff)%Z /\ t = date).
Proof.
  intros diff. unfold LibraryTools.formatTimeAgo. fold diff.
  change (1000 * 60 * 60)%Z with hour.
  assert (Hh : (hour * (diff / hour) <= diff < hour * (diff / hour) + hour)%Z).
  { pose proof (Z.mul_div_le diff hour ltac:(reflexivity)).
    pose proof (Z.mul_succ_div_gt diff hour ltac:(reflexivity)). lia. }
  assert (Hdd : (diff / hour / 24 = diff / day)%Z).
  { rewrite Z.div_div by (unfold hour; lia). reflexivity. }
  assert (Hd : (day * (diff / day) <= diff < day * (diff / day) + day)%Z).
  { pose proof (Z.mul_div_le diff day ltac:(reflexivity)).
    pose proof (Z.mul_succ_div_gt diff day ltac:(reflexivity)). lia. }
  rewrite Hdd. unfold hour, day in *.
  destruct (Z.ltb_spec (diff / 3600000) 1) as [H1|H1];
    [|destruct (Z.ltb_spec (diff / 3600000) 24) as [H2|H2];
      [|destruct (Z.ltb_spec (diff / 86400000) 7) as [H3|H3]]].
  - split; [split; [lia | reflexivity]|].
    split; [intros h; split; [discriminate | lia]|].
    split; [intros d; split; [discriminate | lia]|].
    intros t; split; [discriminate | lia].
  - split; [split; [discriminate | lia]|].
    split; [intros h; split; [intros [= <-]; lia | intros [_ ->]; reflexivity]|].
    split; [intros d; split; [discriminate | lia]|].
    intros t; split; [discriminate | lia].
  - split; [split; [discriminate | lia]|].
    split; [intros h; split; [discriminate | lia]|].
    split; [intros d; split; [intros [= <-]; lia | intros [_ ->]; reflexivity]|].
    intros t; split; [discriminate | lia].
  - split; [split; [discriminate | lia]|].
    split; [intros h; split; [discriminate | lia]|].
    split; [intros d; split; [discriminate | lia]|].
    intros t; split; [intros [= <-]; split; [lia | reflexivity] | intros [_ ->]; reflexivity].
Qed.

(** X21: the name shown for a source in the source list and the name the
    bulk import gives it.  For a URL that does not parse the first is the
    URL itself and the second 'Unknown Repository'; for one that parses
    both are the owner, a slash and the repository, but that the first
    keeps a final [.git] of the repository segment. *)
Theorem X21_repo_name_and_source_name (url : string) :
  match GitHubService.parseGitHubUrl url with
  | None =>
      AdminSourceManagementModal.getRepoName url = url /\
      AdminBulkImportModal.generateSourceName url = "Unknown Repository"
  | Some info =>
      exists segment,
        AdminSourceManagementModal.getRepoName url = owner info ++ "/" ++ segment /\
        AdminBulkImportModal.generateSourceName url
        = owner info ++ "/" ++ GitHubService.dropDotGit segment /\
        repo info = GitHubService.dropDotGit segment /\
        (JS.endsWith segment ".git" = false ->
         AdminSourceManagementModal.getRepoName url
         = AdminBulkImportModal.generateSourceName url)
  end.
Proof.
  unfold AdminBulkImportModal.generateSourceName, AdminSourceManagementModal.getRepoName,
    GitHubService.parseGitHubUrl.
  destruct (GitHubService.matchUrl url) as [[g1 g2]|] eqn:Hm; [|auto].
  cbn [owner repo]. exists g2. repeat split.
  intros Hgit. apply matchUrl_spec in Hm. destruct Hm as (before & rest & _ & Hhere).
  apply matchHere_spec in Hhere. destruct Hhere as (after & _ & _ & Hg2 & _ & Hs2 & _).
  destruct (@parseGitHubUrl_of_address "o" g2 ltac:(discriminate) Hg2 eq_refl Hs2)
    as (_ & Hdrop & _).
  now rewrite (Hdrop Hgit).
Qed.

(* ------------------------------------------------------------------ *)
(** * Further properties: the player *)

Section Player.
Import MusicContext.

Lemma findIndexFrom_absent (i : Z) (id : nat) (l : list SongRow) :
  ~ In id (List.map song_id l) -> findIndexFrom i id l = (-1)%Z.
Proof.
  revert i. induction l as [|s l IH]; intros i Hnot; cbn; [reflexivity|].
  destruct (Nat.eqb_spec (song_id s) id) as [Heq|Hne].
  - exfalso. apply Hnot. now left.
  - apply IH. intros Hin. apply Hnot. now right.
Qed.

Lemma findIndexFrom_at (i : Z) (before after : list SongRow) (song : SongRow) :
  distinctIds (before ++ song :: after) ->
  findIndexFrom i (song_id song) (before ++ song :: after)
  = (i + Z.of_nat (List.length before))%Z.
Proof.
  unfold distinctIds. revert i.
  induction before as [|s before IH]; intros i Hnd; cbn [app findIndexFrom List.length].
  - rewrite Nat.eqb_refl. cbn. lia.
  - cbn in Hnd. inversion Hnd as [|? ? Hnot Hnd']; subst.
    destruct (Nat.eqb_spec (song_id s) (song_id song)) as [Heq|Hne].
    + exfalso. apply Hnot. rewrite Heq, map_app. apply in_app_iff. right. now left.
    + rewrite (IH (i + 1)%Z Hnd'). lia.
Qed.

Lemma at_index_middle (before after : list SongRow) (song : SongRow) :
  at_index (before ++ song :: after) (Z.of_nat (List.length before)) = Some song.
Proof.
  unfold at_index.
  destruct (Z.ltb_spec (Z.of_nat (List.length before)) 0) as [H|_]; [lia|].
  rewrite Nat2Z.id. rewrite nth_error_app2 by lia. now rewrite Nat.sub_diag.
Qed.

End Player.

(** X22: next and previous walk a playlist of distinct songs, shuffle
    off.  From a song that is not the last, next plays the song after it,
    and previous then plays the first one again; from the last song next
    plays the first song of the playlist when the loop mode is 'all' and
    changes nothing otherwise; from the first song previous plays the
    last. *)
Theorem X22_next_and_previous_walk (mode : MusicContext.LoopMode)
    (before after : list SongRow) (song following : SongRow) (on : bool) :
  let l := (before ++ song :: following :: after)%list in
  distinctIds l ->
  MusicContext.nextSong 0 (playing mode l song on) = playing mode l following true /\
  MusicContext.previousSong (playing mode l following true) = playing mode l song true /\
  MusicContext.nextSong 0 (playing MusicContext.LoopAll l
                             (List.last l song) on)
  = playing MusicContext.LoopAll l (List.hd song l) true /\
  (mode <> MusicContext.LoopAll ->
   MusicContext.nextSong 0 (playing mode l (List.last l song) on)
   = playing mode l (List.last l song) on) /\
  MusicContext.previousSong (playing mode l (List.hd song l) on)
  = playing mode l (List.last l song) true.
Proof.
  intros l Hnd.
  assert (Hlen : List.length l = List.length before + 2 + List.length after).
  { unfold l. rewrite length_app. cbn. lia. }
  assert (Hsong : MusicContext.findIndex (song_id song) l
                  = Z.of_nat (List.length before)).
  { unfold MusicContext.findIndex, l.
    rewrite (@findIndexFrom_at 0 before (following :: after) song Hnd). lia. }
  assert (Hfoll : MusicContext.findIndex (song_id following) l
                  = Z.of_nat (List.length before + 1)).
  { unfold MusicContext.findIndex.
    assert (Hl : l = ((before ++ [song]) ++ following :: after)%list)
      by (unfold l; now rewrite <- app_assoc).
    rewrite Hl in *.
    rewrite (@findIndexFrom_at 0 (before ++ [song]) after following Hnd).
    rewrite length_app. cbn. lia. }
  assert (Hat1 : MusicContext.at_index l (Z.of_nat (List.length before)) = Some song)
    by apply at_index_middle.
  assert (Hat2 : MusicContext.at_index l (Z.of_nat (List.length before + 1))
                 = Some following).
  { assert (Hl : l = ((before ++ [song]) ++ following :: after)%list)
      by (unfold l; now rewrite <- app_assoc).
    rewrite Hl.
    replace (List.length before + 1) with (List.length (before ++ [song])%list)
      by (rewrite length_app; reflexivity).
    apply at_index_middle. }
  (* the last and the first song *)
  destruct (@exists_last _ l) as (init & final & Hfinal).
  { unfold l. now destruct before. }
  assert (Hlast : List.last l song = final) by (rewrite Hfinal; apply last_last).
  assert (Hlast_ix : MusicContext.findIndex (song_id final) l
                     = Z.of_nat (List.length init)).
  { unfold MusicContext.findIndex. rewrite Hfinal in *.
    rewrite (@findIndexFrom_at 0 init [] final Hnd). lia. }
  assert (Hinit : List.length l = List.length init + 1)
    by (rewrite Hfinal, length_app; reflexivity).
  assert (Hat_last : MusicContext.at_index l (Z.of_nat (List.length init)) = Some final).
  { rewrite Hfinal. apply at_index_middle. }
  destruct l as [|first rest] eqn:Hl0; [cbn in Hlen; lia|].
  assert (Hfirst_ix : MusicContext.findIndex (song_id first) (first :: rest) = 0%Z)
    by (unfold MusicContext.findIndex; cbn; now rewrite Nat.eqb_refl).
  assert (Hat0 : MusicContext.at_index (first :: rest) 0 = Some first) by reflexivity.
  cbn [List.hd]. rewrite Hlast.
  unfold MusicContext.nextSong, MusicContext.previousSong, playing.
  cbn [MusicContext.currentSong MusicContext.currentPlaylist MusicContext.isShuffled
       MusicContext.loopMode MusicContext.isPlaying].
  rewrite Hsong, Hfoll, Hlast_ix, Hfirst_ix.
  replace (Z.of_nat (List.length (first :: rest)) =? 0)%Z with false
    by (symmetry; apply Z.eqb_neq; lia).
  repeat split.
  - rewrite Z.rem_small by lia.
    replace (Z.of_nat (List.length before) + 1)%Z
      with (Z.of_nat (List.length before + 1)) by lia.
    replace (Z.of_nat (List.length before + 1) =? 0)%Z with false
      by (symmetry; apply Z.eqb_neq; lia).
    rewrite Hat2. cbn. now rewrite orb_true_r.
  - replace (Z.of_nat (List.length before + 1) =? 0)%Z with false
      by (symmetry; apply Z.eqb_neq; lia).
    replace (Z.of_nat (List.length before + 1) - 1)%Z
      with (Z.of_nat (List.length before)) by lia.
    now rewrite Hat1.
  - replace (Z.of_nat (List.length init) + 1)%Z
      with (Z.of_nat (List.length (first :: rest))) by lia.
    rewrite Z.rem_same by lia. cbn [MusicContext.isAll orb].
    now rewrite Hat0.
  - intros Hmode.
    replace (Z.of_nat (List.length init) + 1)%Z
      with (Z.of_nat (List.length (first :: rest))) by lia.
    rewrite Z.rem_same by lia.
    replace (Z.of_nat (List.length init) =? Z.of_nat (List.length (first :: rest)) - 1)%Z
      with true by (symmetry; apply Z.eqb_eq; lia).
    destruct mode; [reflexivity | reflexivity | congruence].
  - cbn [Z.eqb].
    replace (Z.of_nat (List.length (first :: rest)) - 1)%Z
      with (Z.of_nat (List.length init)) by lia.
    now rewrite Hat_last.
Qed.

Lemma X22_next_and_previous_walk_witness :
  let l := [PlayerSample.songOneRow; PlayerSample.songTwoRow] in
  distinctIds l /\
  MusicContext.nextSong 0 (playing MusicContext.LoopOff l PlayerSample.songOneRow false)
  = playing MusicContext.LoopOff l PlayerSample.songTwoRow true /\
  MusicContext.previousSong (playing MusicContext.LoopOff l PlayerSample.songTwoRow true)
  = playing MusicContext.LoopOff l PlayerSample.songOneRow true.
Proof.
  intros l.
  assert (Hnd : distinctIds l)
    by (unfold distinctIds; repeat constructor; simpl; intuition discriminate).
  split; [exact Hnd|].
  destruct (@X22_next_and_previous_walk MusicContext.LoopOff [] []
              PlayerSample.songOneRow PlayerSample.songTwoRow false Hnd)
    as (Hnext & Hprev & _).
  split; [exact Hnext | exact Hprev].
Defined.

(** X23: a current song that is not in the playlist.  With shuffle off,
    next plays the first song of the playlist, and previous keeps the
    current song and only sets the player to playing. *)
Theorem X23_song_outside_the_playlist (mode : MusicContext.LoopMode)
    (first : SongRow) (rest : list SongRow) (song : SongRow) (on : bool) :
  ~ In (song_id song) (List.map song_id (first :: rest)) ->
  MusicContext.nextSong 0 (playing mode (first :: rest) song on)
  = playing mode (first :: rest) first true /\
  MusicContext.previousSong (playing mode (first :: rest) song on)
  = playing mode (first :: rest) song true.
Proof.
  intros Hnot.
  assert (Hix : MusicContext.findIndex (song_id song) (first :: rest) = (-1)%Z)
    by now apply findIndexFrom_absent.
  unfold MusicContext.nextSong, MusicContext.previousSong, playing.
  cbn [MusicContext.currentSong MusicContext.currentPlaylist MusicContext.isShuffled
       MusicContext.loopMode MusicContext.isPlaying].
  rewrite Hix.
  replace (Z.of_nat (List.length (first :: rest)) =? 0)%Z with false
    by (symmetry; apply Z.eqb_neq; cbn [List.length]; lia).
  split.
  - change (-1 + 1)%Z with 0%Z. rewrite Z.rem_0_l by (cbn [List.length]; lia).
    replace (-1 =? Z.of_nat (List.length (first :: rest)) - 1)%Z with false
      by (symmetry; apply Z.eqb_neq; cbn [List.length]; lia).
    cbn. now rewrite orb_true_r.
  - reflexivity.
Qed.

Lemma X23_song_outside_the_playlist_witness :
  ~ In (song_id PlayerSample.strayRow) (List.map song_id [PlayerSample.songOneRow]) /\
  MusicContext.nextSong 0 (playing MusicContext.LoopOff [PlayerSample.songOneRow]
                             PlayerSample.strayRow false)
  = playing MusicContext.LoopOff [PlayerSample.songOneRow] PlayerSample.songOneRow true /\
  MusicContext.previousSong (playing MusicContext.LoopOff [PlayerSample.songOneRow]
                               PlayerSample.strayRow false)
  = playing MusicContext.LoopOff [PlayerSample.songOneRow] PlayerSample.strayRow true.
Proof.
  assert (Hnot : ~ In (song_id PlayerSample.strayRow) (List.map song_id [PlayerSample.songOneRow]))
    by (simpl; intuition discriminate).
  split; [exact Hnot|].
  exact (@X23_song_outside_the_playlist MusicContext.LoopOff PlayerSample.songOneRow []
           PlayerSample.strayRow false Hnot).
Defined.

(* ------------------------------------------------------------------ *)
(** * Further properties: a refresh after an import *)

Lemma Forall2_In_r {A B} (R : A -> B -> Prop) l l' b :
  Forall2 R l l' -> In b l' -> exists a, In a l /\ R a b.
Proof.
  induction 1 as [|x y l l' Hxy _ IH]; simpl; [intros []|].
  intros [<-|Hin].
  - exists x. auto.
  - destruct (IH Hin) as (a & Ha & HR). exists a. auto.
Qed.

(** X24: a refresh right after an import finds nothing new.  When a single
    import returns, the source it imported against carries the trimmed
    link, and a refresh of that source by the same user, the content API
    answering the same, reports no new playlist and leaves the store as
    the import left it. *)
Theorem X24_refresh_after_import (env env' : Env) (user name githubLink : string)
    (db db' : Store) (report : AddStreamingLinkModal.ImportReport) :
  run (AddStreamingLinkModal.handleSubmit env user name githubLink) db
  = (Returned report, db') ->
  remote env' = remote env ->
  exists source,
    In source (streaming_sources db') /\
    drive_link source = JS.trim githubLink /\
    run (LibraryPage.handleRefreshSource env' user source) db'
    = (Returned LibraryPage.NoNewPlaylists, db').
Proof.
  intros Hrun Hrem.
  destruct (@handleSubmit_returned _ _ _ _ _ _ _ Hrun)
    as (info & scanned & warnings & src & ns & np & ng & Hparse & Hscan & _ & _ &
        Hin & Hlink & Hp & _ & _ & _ & Hrows & _).
  exists src. split; [exact Hin|]. split; [exact Hlink|].
  rewrite <- Hlink in Hparse.
  apply (@refresh_nothing_new user src info (remote env) scanned warnings Hparse Hscan
           env' db' src Hrem eq_refl eq_refl).
  intros c Hc. destruct (@Forall2_In_r _ _ _ _ _ _ Hrows Hc) as (p & Hpin & Hu & Hs & _ & Hf).
  exists p. rewrite Hp, in_app_iff. auto.
Qed.

Lemma X24_refresh_after_import_witness :
  (run (AddStreamingLinkModal.handleSubmit (Sample.session 1000) "alice-id" "My Music"
          Sample.mymusic) emptyStore
   = (Returned {| AddStreamingLinkModal.totalPlaylistsCreated := 1;
                  AddStreamingLinkModal.totalSongsCreated := 2 |}, Sample.afterAlice) /\
   remote (Sample.session 7000) = remote (Sample.session 1000)) /\
  exists source,
    In source (streaming_sources Sample.afterAlice) /\
    drive_link source = JS.trim Sample.mymusic /\
    run (LibraryPage.handleRefreshSource (Sample.session 7000) "alice-id" source)
        Sample.afterAlice
    = (Returned LibraryPage.NoNewPlaylists, Sample.afterAlice).
Proof.
  assert (Hrun : run (AddStreamingLinkModal.handleSubmit (Sample.session 1000)
                        "alice-id" "My Music" Sample.mymusic) emptyStore
                 = (Returned {| AddStreamingLinkModal.totalPlaylistsCreated := 1;
                                AddStreamingLinkModal.totalSongsCreated := 2 |},
                    Sample.afterAlice)) by (vm_compute; reflexivity).
  split; [split; [exact Hrun | reflexivity]|].
  exact (@X24_refresh_after_import (Sample.session 1000) (Sample.session 7000)
           "alice-id" "My Music" Sample.mymusic emptyStore Sample.afterAlice _
           Hrun eq_refl).
Defined.
